(** * fetchserver: the REST facade of [app.js] over a document store

    A shallow embedding of the Express application of [src/app.js] (and of the
    two sibling revisions kept next to it), with the properties of its routes.

    Layout: the JavaScript values and built-ins the handlers use, the document
    store the handlers call, the Express router, the handlers and the layer
    stacks of the three revisions; then the theorems.

    Modelling conventions.
    - Strings are sequences of characters with codes below 256; on them
      letter case, for a pattern of ASCII characters, is ASCII case.
    - Numbers are rationals with the two infinities; [parseFloat] rounds to
      the nearest binary64 value, as the engine does; [NaN] is the [None] of an
      [option].
    - A request carries its path as the list of its decoded segments (a
      trailing slash shows as a last, empty segment; a path that
      percent-encodes a character of a fixed segment is not described) and
      its body as the object [express.json()] parsed.
    - A request that is left without a response ends with the answer
      [no_response].
    - Where the store's or a built-in's behaviour depends on the installed
      version or lies outside the fragment described here, the computation
      answers [OutOfModel] and the top-level functions return [None]; no
      theorem speaks about such a request. *)

From Stdlib Require Import ZArith NArith QArith Qpower Qfield String Ascii List Bool Lia.
From Stdlib Require Import Sorting.Sorted Sorting.Permutation.
From stdpp Require Import base gmap strings list.

Local Open Scope string_scope.
Local Open Scope Z_scope.

(** ** Characters and strings *)

Definition code (c : ascii) : N := N_of_ascii c.

Definition in_range (lo hi : N) (c : ascii) : bool :=
  ((lo <=? code c) && (code c <=? hi))%N.

Definition is_digit (c : ascii) : bool := in_range 48 57 c.
Definition is_upper (c : ascii) : bool := in_range 65 90 c.

(** ASCII lower-casing, the case folding of the [i] flag and of Express's
    case-insensitive routing on the characters modelled. *)
Definition lower (c : ascii) : ascii :=
  if is_upper c then ascii_of_N (code c + 32) else c.

Definition ci_eqb (a b : ascii) : bool := Ascii.eqb (lower a) (lower b).

Fixpoint ci_string_eqb (s t : string) : bool :=
  match s, t with
  | EmptyString, EmptyString => true
  | String a s', String b t' => ci_eqb a b && ci_string_eqb s' t'
  | _, _ => false
  end.

Fixpoint string_forall (p : ascii -> bool) (s : string) : bool :=
  match s with
  | EmptyString => true
  | String c s' => p c && string_forall p s'
  end.

Definition string_exists (p : ascii -> bool) (s : string) : bool :=
  negb (string_forall (fun c => negb (p c)) s).

(** [ci_prefix p s]: [p] is a prefix of [s] up to letter case. *)
Fixpoint ci_prefix (p s : string) : bool :=
  match p, s with
  | EmptyString, _ => true
  | String a p', String b s' => ci_eqb a b && ci_prefix p' s'
  | String _ _, EmptyString => false
  end.

(** [ci_substring p s]: [p] occurs in [s] up to letter case. *)
Fixpoint ci_substring (p s : string) : bool :=
  ci_prefix p s ||
  match s with
  | EmptyString => false
  | String _ s' => ci_substring p s'
  end.

(** ** Numbers: [parseInt] and [parseFloat] *)

Inductive number :=
| Fin (q : Q)
| PInf
| NInf.

(** WhiteSpace and LineTerminator code units below 256. *)
Definition is_ws (c : ascii) : bool :=
  let n := code c in
  ((n =? 9) || (n =? 10) || (n =? 11) || (n =? 12) || (n =? 13) || (n =? 32)
   || (n =? 160))%N.

Fixpoint trim_start (s : string) : string :=
  match s with
  | String c s' => if is_ws c then trim_start s' else s
  | EmptyString => s
  end.

Definition digit_val (c : ascii) : Z := Z.of_N (code c) - 48.

(** The longest prefix of decimal digits, and what follows it. *)
Fixpoint take_digits (s : string) : list Z * string :=
  match s with
  | String c s' =>
      if is_digit c
      then let '(ds, r) := take_digits s' in (digit_val c :: ds, r)
      else (nil, s)
  | EmptyString => (nil, s)
  end.

Definition digits_value (ds : list Z) : Z :=
  fold_left (fun acc d => 10 * acc + d) ds 0.

Definition take_sign (s : string) : bool * string :=
  match s with
  | String "-" r => (true, r)
  | String "+" r => (false, r)
  | _ => (false, s)
  end.

Definition signed (neg : bool) (z : Z) : Z := if neg then - z else z.

(** [parseInt(s, 10)]: leading white space, an optional sign, the longest run
    of digits; [None] is [NaN]. *)
Definition parseInt (s : string) : option Z :=
  let '(neg, r) := take_sign (trim_start s) in
  match take_digits r with
  | (nil, _) => None
  | (ds, _) => Some (signed neg (digits_value ds))
  end.

Definition is_nil {A} (l : list A) : bool :=
  match l with nil => true | _ => false end.

(** The exponent part [e[+-]digits] of a StrDecimalLiteral; it is part of the
    literal only when it has a digit. *)
Definition take_exponent (s : string) : Z :=
  match s with
  | String c r =>
      if (Ascii.eqb c "e" || Ascii.eqb c "E")%bool
      then let '(neg, r') := take_sign r in
           match take_digits r' with
           | (nil, _) => 0
           | (ds, _) => signed neg (digits_value ds)
           end
      else 0
  | EmptyString => 0
  end.

(** [n / d] rounded to the nearest integer, ties to the even one, for
    [0 <= n] and [0 < d]. *)
Definition round_half_even (n d : Z) : Z :=
  let q := n / d in
  match 2 * (n mod d) ?= d with
  | Lt => q
  | Gt => q + 1
  | Eq => if Z.even q then q else q + 1
  end.

(** The Number value of a rational: the nearest IEEE 754 binary64 value,
    ties to even, an infinity beyond the largest one. With [2^e <= |x| <
    2^(e+1)], the last place of the significand is [2^(e-52)], and [2^-1074]
    in the subnormal range. *)
Definition to_double (x : Q) : number :=
  let n := Z.abs (Qnum x) in
  let d := Zpos (Qden x) in
  if n =? 0 then Fin 0
  else
    let e0 := Z.log2 n - Z.log2 d in
    let below := if 0 <=? e0 then n <? 2 ^ e0 * d else n * 2 ^ (- e0) <? d in
    let e := if below then e0 - 1 else e0 in
    let u := Z.max (e - 52) (-1074) in
    let m := if 0 <=? u then round_half_even n (d * 2 ^ u)
             else round_half_even (n * 2 ^ (- u)) d in
    if (0 <=? u) && (2 ^ 1024 <=? m * 2 ^ u)
    then (if Qnum x <? 0 then NInf else PInf)
    else Fin (Qred (inject_Z (if Qnum x <? 0 then - m else m) * Qpower (2 # 1) u)).

(** [parseFloat(s)]: leading white space, then the longest prefix that is a
    StrDecimalLiteral, rounded to a Number; [None] is [NaN]. *)
Definition parseFloat (s : string) : option number :=
  let '(neg, r) := take_sign (trim_start s) in
  if String.prefix "Infinity" r then Some (if neg then NInf else PInf)
  else
    let '(ip, r1) := take_digits r in
    let '(fp, r2) :=
      match r1 with
      | String "." r' => take_digits r'
      | _ => (nil, r1)
      end in
    if is_nil ip && is_nil fp then None
    else
      let m := signed neg (digits_value (ip ++ fp)) in
      let e := take_exponent r2 - Z.of_nat (List.length fp) in
      Some (to_double (inject_Z m * Qpower (10 # 1) e)).

Definition num_compare (a b : number) : comparison :=
  match a, b with
  | NInf, NInf => Eq
  | NInf, _ => Lt
  | _, NInf => Gt
  | PInf, PInf => Eq
  | PInf, _ => Gt
  | _, PInf => Lt
  | Fin x, Fin y => Qcompare x y
  end.

Definition num_eqb (a b : number) : bool :=
  match num_compare a b with Eq => true | _ => false end.

(** ** Identifiers of the store

    An [ObjectId] is a 96-bit value; its text form is 24 hexadecimal digits. *)

Inductive ObjectId := Oid (n : N).

Definition oid_val (o : ObjectId) : N := let 'Oid n := o in n.

Definition hex_val (c : ascii) : option N :=
  if is_digit c then Some (code c - 48)%N
  else if in_range 97 102 c then Some (code c - 87)%N
  else if in_range 65 70 c then Some (code c - 55)%N
  else None.

Definition hex_char (d : N) : ascii :=
  if (d <? 10)%N then ascii_of_N (d + 48) else ascii_of_N (d + 87).

Fixpoint parse_hex (acc : N) (s : string) : option N :=
  match s with
  | EmptyString => Some acc
  | String c s' =>
      match hex_val c with
      | Some d => parse_hex (16 * acc + d)%N s'
      | None => None
      end
  end.

(** [w] hexadecimal digits of [n], most significant first. *)
Fixpoint to_hex (w : nat) (n : N) : string :=
  match w with
  | O => EmptyString
  | S w' => String (hex_char ((n / 16 ^ N.of_nat w') mod 16)%N) (to_hex w' n)
  end.

Definition toHexString (o : ObjectId) : string := to_hex 24 (oid_val o).

(** ** Exceptions and partial results *)

Inductive Error :=
| Err_DbNotInitialized                (* [new Error("Database not initialized")] *)
| Err_TypeError_db                    (* [db.collection] on the undefined [db] *)
| Err_BSON_id (s : string)            (* [new ObjectId(s)] refused [s] *)
| Err_RegExp_syntax (p : string)      (* [new RegExp(p, 'i')] refused [p] *)
| Err_Mongo_network                   (* the store cannot be reached *)
| Err_Mongo_duplicate_key             (* E11000 *)
| Err_Mongo_immutable_id.             (* an update would change [_id] *)

(** [error.message]. The first text is the source's; the others stand for the
    engine's and the driver's wording, which no theorem depends on. *)
Definition message (e : Error) : string :=
  match e with
  | Err_DbNotInitialized => "Database not initialized"
  | Err_TypeError_db => "Cannot read properties of undefined (reading 'collection')"
  | Err_BSON_id _ => "input must be a 24 character hex string, 12 byte Uint8Array, or an integer"
  | Err_RegExp_syntax p => "Invalid regular expression: /" +:+ p +:+ "/i: Nothing to repeat"
  | Err_Mongo_network => "Server selection timed out"
  | Err_Mongo_duplicate_key => "E11000 duplicate key error"
  | Err_Mongo_immutable_id => "Performing an update on the path '_id' would modify the immutable field '_id'"
  end.

(** The result of a call: a value, a thrown exception, or a call the model
    does not describe. *)
Inductive res (A : Type) :=
| Val (a : A)
| Throw (e : Error)
| OutOfModel.

Arguments Val {A} a.
Arguments Throw {A} e.
Arguments OutOfModel {A}.

#[export] Instance res_ret : MRet res := fun A a => Val a.

#[export] Instance res_bind : MBind res := fun A B k m =>
  match m with
  | Val a => k a
  | Throw e => Throw e
  | OutOfModel => OutOfModel
  end.

(** [new ObjectId(s)] for a string argument: 24 hexadecimal digits give the
    identifier. A 12-character string is taken as 12 raw bytes by older
    drivers and refused by newer ones; every other string is refused. *)
Definition ObjectId_new (s : string) : res ObjectId :=
  if Nat.eqb (String.length s) 24 then
    match parse_hex 0 s with
    | Some n => Val (Oid n)
    | None => Throw (Err_BSON_id s)
    end
  else if Nat.eqb (String.length s) 12 then OutOfModel
  else Throw (Err_BSON_id s).

(** ** Values and documents *)

Set Warnings "-register-all".

Inductive value :=
| VNull
| VBool (b : bool)
| VNum (n : number)
| VStr (s : string)
| VArr (vs : list value)
| VObj (fs : list (string * value))
| VOid (o : ObjectId).

(** A document, as a JavaScript object: fields in insertion order. *)
Definition document := list (string * value).

Definition doc_get (k : string) (d : document) : option value :=
  snd <$> List.find (fun kv => String.eqb (fst kv) k) d.

Definition doc_has (k : string) (d : document) : bool :=
  match doc_get k d with Some _ => true | None => false end.

Definition doc_remove (k : string) (d : document) : document :=
  List.filter (fun kv => negb (String.eqb (fst kv) k)) d.

(** [d[k] = v]: in place when the field exists, appended otherwise. *)
Fixpoint doc_set (k : string) (v : value) (d : document) : document :=
  match d with
  | nil => (k, v) :: nil
  | (k', v') :: d' =>
      if String.eqb k' k then (k, v) :: d' else (k', v') :: doc_set k v d'
  end.

Fixpoint nodup_keys (ks : list string) : bool :=
  match ks with
  | nil => true
  | k :: ks' => negb (existsb (String.eqb k) ks') && nodup_keys ks'
  end.

(** Field names that are plain names in every version of the store: not
    empty, no path separator, no operator prefix, no NUL. *)
Definition plain_key (k : string) : bool :=
  match k with
  | EmptyString => false
  | String c _ =>
      negb (Ascii.eqb c "$") &&
      string_forall (fun c => negb (Ascii.eqb c ".") && negb (N.eqb (code c) 0)) k
  end.

Fixpoint plain_value (v : value) : bool :=
  match v with
  | VArr vs => forallb plain_value vs
  | VObj fs =>
      nodup_keys (map fst fs) &&
      forallb (fun kv => let '(k, x) := kv in plain_key k && plain_value x) fs
  | _ => true
  end.

(** An object with distinct, plain field names, at every depth. *)
Definition plain_doc (d : document) : bool := plain_value (VObj d).

(** JavaScript truthiness of [o.k] ([None] is [undefined]). *)
Definition truthy (v : option value) : bool :=
  match v with
  | None => false
  | Some VNull => false
  | Some (VBool b) => b
  | Some (VNum n) => negb (num_eqb n (Fin 0))
  | Some (VStr s) => negb (String.eqb s "")
  | Some (VArr _) | Some (VObj _) | Some (VOid _) => true
  end.

(** [Array.isArray(o.k)]. *)
Definition isArray (v : option value) : bool :=
  match v with Some (VArr _) => true | _ => false end.

(** ** Scalar keys: the store's order on the values it sorts and identifies by

    Null (and a missing field) before numbers, numbers before strings,
    strings before identifiers, identifiers before booleans. *)

Inductive key :=
| KNull
| KNum (n : number)
| KStr (s : string)
| KOid (o : ObjectId)
| KBool (b : bool).

Definition key_of (v : option value) : option key :=
  match v with
  | None | Some VNull => Some KNull
  | Some (VNum n) => Some (KNum n)
  | Some (VStr s) => Some (KStr s)
  | Some (VOid o) => Some (KOid o)
  | Some (VBool b) => Some (KBool b)
  | Some (VArr _) | Some (VObj _) => None
  end.

Definition key_rank (k : key) : N :=
  match k with
  | KNull => 0 | KNum _ => 1 | KStr _ => 2 | KOid _ => 3 | KBool _ => 4
  end.

Definition key_compare (a b : key) : comparison :=
  match a, b with
  | KNull, KNull => Eq
  | KNum x, KNum y => num_compare x y
  | KStr x, KStr y => String.compare x y
  | KOid x, KOid y => N.compare (oid_val x) (oid_val y)
  | KBool x, KBool y => Bool.compare x y
  | _, _ => N.compare (key_rank a) (key_rank b)
  end.

Definition key_leb (a b : key) : bool :=
  match key_compare a b with Gt => false | _ => true end.

Definition key_eqb (a b : key) : bool :=
  match key_compare a b with Eq => true | _ => false end.

(** ** Regular expressions

    [new RegExp(p, 'i')] on the patterns described here: a run of literal
    characters, with or without a leading [^]. A pattern that opens with a
    quantifier has nothing to repeat and is a SyntaxError. *)

Record RegExp := { rx_anchored : bool; rx_text : string }.

Definition is_syntax_char (c : ascii) : bool :=
  string_exists (Ascii.eqb c) "^$\.*+?()[]{}|".

Definition literal_char (c : ascii) : bool :=
  in_range 32 126 c && negb (is_syntax_char c).

Definition is_quantifier (c : ascii) : bool :=
  Ascii.eqb c "*" || Ascii.eqb c "+" || Ascii.eqb c "?".

Definition RegExp_new (p : string) : res RegExp :=
  match p with
  | EmptyString => Val {| rx_anchored := false; rx_text := "" |}
  | String c r =>
      if is_quantifier c then Throw (Err_RegExp_syntax p)
      else if Ascii.eqb c "^" then
        if string_forall literal_char r
        then Val {| rx_anchored := true; rx_text := r |}
        else OutOfModel
      else if string_forall literal_char p
        then Val {| rx_anchored := false; rx_text := p |}
        else OutOfModel
  end.

(** Whether the expression matches somewhere in [s]. *)
Definition rx_test (r : RegExp) (s : string) : bool :=
  if rx_anchored r then ci_prefix (rx_text r) s else ci_substring (rx_text r) s.

(** ** The document store *)

(** Query filters, as the handlers build them. *)
Inductive cond :=
| CRegex (f : string) (r : RegExp)     (* [{f: /r/i}] *)
| CNum (f : string) (n : number).      (* [{f: n}] *)

Inductive selector :=
| SAll                                 (* [{}] *)
| SOr (cs : list cond)                 (* [{$or: cs}] *)
| SById (o : ObjectId).                (* [{_id: o}] *)

(** A condition on a field holds of its value, or of an element when the
    value is an array. *)
Definition field_matches (p : value -> bool) (v : value) : bool :=
  p v || match v with VArr vs => existsb p vs | _ => false end.

Definition is_match (r : RegExp) (v : value) : bool :=
  match v with VStr s => rx_test r s | _ => false end.

Definition is_num (n : number) (v : value) : bool :=
  match v with VNum m => num_eqb m n | _ => false end.

Definition cond_matches (c : cond) (d : document) : bool :=
  match c with
  | CRegex f r =>
      match doc_get f d with Some v => field_matches (is_match r) v | None => false end
  | CNum f n =>
      match doc_get f d with Some v => field_matches (is_num n) v | None => false end
  end.

Definition has_id (k : key) (d : document) : bool :=
  match key_of (doc_get "_id" d) with
  | Some k' => key_eqb k k'
  | None => false
  end.

Definition matches (f : selector) (d : document) : bool :=
  match f with
  | SAll => true
  | SOr cs => existsb (fun c => cond_matches c d) cs
  | SById o => has_id (KOid o) d
  end.

Record store := {
  online : bool;                            (* the connection is up *)
  colls : gmap string (list document);      (* the collections *)
  next_oid : N;                             (* the next generated identifier *)
  callback_api : bool                       (* the driver still calls a function
                                               given to [toArray] (mongodb 4.x) *)
}.

Definition docs (s : store) (c : string) : list document :=
  default nil (colls s !! c).

Definition set_docs (s : store) (c : string) (ds : list document) : store :=
  {| online := online s; colls := <[c := ds]> (colls s); next_oid := next_oid s;
     callback_api := callback_api s |}.

Definition bump_oid (s : store) : store :=
  {| online := online s; colls := colls s; next_oid := (next_oid s + 1)%N;
     callback_api := callback_api s |}.

Definition oid_limit : N := (2 ^ 96)%N.

(** [find(f).toArray()] *)
Definition find (c : string) (f : selector) (s : store) : res (list document) :=
  if online s then Val (List.filter (matches f) (docs s c)) else Throw Err_Mongo_network.

(** [findOne({_id: o})] *)
Definition findOne (c : string) (o : ObjectId) (s : store) : res (option document) :=
  if online s then Val (List.find (has_id (KOid o)) (docs s c)) else Throw Err_Mongo_network.

(** The reading of [limit]: zero is no limit. For a negative limit the driver
    asks for a single batch of at most [|n|] documents: a batch holds one
    document at least, and how many more depends on their sizes, so of the
    negative limits only [-1] is described. *)
Definition apply_limit {A} (n : Z) (l : list A) : option (list A) :=
  if n =? 0 then Some l
  else if 0 <? n then Some (firstn (Z.to_nat n) l)
  else if n =? -1 then Some (firstn 1 l)
  else None.

Fixpoint insert_by {A} (leb : A -> A -> bool) (x : A) (l : list A) : list A :=
  match l with
  | nil => x :: nil
  | y :: l' => if leb x y then x :: l else y :: insert_by leb x l'
  end.

Definition sort_by {A} (leb : A -> A -> bool) (l : list A) : list A :=
  fold_right (insert_by leb) nil l.

(** The order of a [sort: [[field, dir]]] option on keyed documents. *)
Definition dir_leb (desc : bool) (a b : key * document) : bool :=
  if desc then key_leb (fst b) (fst a) else key_leb (fst a) (fst b).

Fixpoint with_keys (f : string) (ds : list document) : option (list (key * document)) :=
  match ds with
  | nil => Some nil
  | d :: ds' =>
      match key_of (doc_get f d), with_keys f ds' with
      | Some k, Some r => Some ((k, d) :: r)
      | _, _ => None
      end
  end.

(** The documents of [find({}, {limit: n, sort: [[f, dir]]})]. Documents whose
    sort field holds an array or an object, sort fields that are paths or
    operators, and the negative limits below [-1] are outside the model. *)
Definition find_sorted (c : string) (n : Z) (f : string) (desc : bool) (s : store)
  : res (list document) :=
  if negb (online s) then Throw Err_Mongo_network
  else if negb (plain_key f) then OutOfModel
  else match with_keys f (docs s c) with
       | None => OutOfModel
       | Some kds =>
           match apply_limit n (sort_by (dir_leb desc) kds) with
           | Some r => Val (map snd r)
           | None => OutOfModel
           end
       end.

Record InsertOneResult := { acknowledged : bool; insertedId : value }.
Record UpdateResult := { matchedCount : nat }.
Record DeleteResult := { deletedCount : nat }.

(** [insertOne(doc)]. The driver gives a document whose [_id] is missing or
    [null] a generated one; another scalar [_id] is kept and must not be
    taken; the store puts [_id] first. The driver's generator is a counter
    here; that it runs out, or yields an identifier the collection already
    has, does not arise in practice and is outside the model. *)
Definition insertOne (c : string) (doc : document) (s : store)
  : res (InsertOneResult * store) :=
  if negb (online s) then Throw Err_Mongo_network
  else if negb (plain_doc doc) then OutOfModel
  else
    let generated (fields : document) : res (InsertOneResult * store) :=
      let o := Oid (next_oid s) in
      if (oid_limit <=? next_oid s)%N || existsb (has_id (KOid o)) (docs s c)
      then OutOfModel
      else Val ({| acknowledged := true; insertedId := VOid o |},
                bump_oid (set_docs s c (docs s c ++ (("_id", VOid o) :: fields) :: nil))) in
    match doc_get "_id" doc with
    | None => generated doc
    | Some VNull => generated (doc_remove "_id" doc)
    | Some v =>
        match key_of (Some v) with
        | None => OutOfModel
        | Some k =>
            if existsb (has_id k) (docs s c) then Throw Err_Mongo_duplicate_key
            else Val ({| acknowledged := true; insertedId := v |},
                      set_docs s c (docs s c ++ (("_id", v) :: doc_remove "_id" doc) :: nil))
        end
    end.

(** The first element satisfying [p], with what precedes and follows it. *)
Fixpoint split_first {A} (p : A -> bool) (l : list A) : option (list A * A * list A) :=
  match l with
  | nil => None
  | x :: l' =>
      if p x then Some (nil, x, l')
      else match split_first p l' with
           | Some (pre, y, post) => Some (x :: pre, y, post)
           | None => None
           end
  end.

Definition name_leb (a b : string * value) : bool :=
  match String.compare (fst a) (fst b) with Gt => false | _ => true end.

(** [{$set: body}] on one document. The store takes the fields of the update
    in the order of their names: a field the document has is set where it
    is, a new one is added at the end. (From version 5.0 on, names that are
    numbers are taken in numeric order; the place of such new fields among
    themselves is not described.) *)
Definition apply_set (body d : document) : document :=
  fold_left (fun acc kv => doc_set (fst kv) (snd kv) acc) (sort_by name_leb body) d.

(** [updateOne({_id: o}, {$set: body})]. An empty [$set] and a [$set] of
    [_id] that matches no document are outside the model. *)
Definition updateOne (c : string) (o : ObjectId) (body : document) (s : store)
  : res (UpdateResult * store) :=
  if negb (online s) then Throw Err_Mongo_network
  else if negb (plain_doc body) || is_nil body then OutOfModel
  else
    match split_first (has_id (KOid o)) (docs s c) with
    | None =>
        if doc_has "_id" body then OutOfModel
        else Val ({| matchedCount := 0 |}, s)
    | Some (pre, d, post) =>
        let keeps_id :=
          match doc_get "_id" body with
          | None => true
          | Some v => has_id (KOid o) (("_id", v) :: nil)
          end in
        if keeps_id
        then Val ({| matchedCount := 1 |}, set_docs s c (pre ++ apply_set body d :: post))
        else Throw Err_Mongo_immutable_id
    end.

(** [deleteOne({_id: o})] *)
Definition deleteOne (c : string) (o : ObjectId) (s : store)
  : res (DeleteResult * store) :=
  if negb (online s) then Throw Err_Mongo_network
  else
    match split_first (has_id (KOid o)) (docs s c) with
    | None => Val ({| deletedCount := 0 |}, s)
    | Some (pre, _, post) => Val ({| deletedCount := 1 |}, set_docs s c (pre ++ post))
    end.

(** Collection names without path or operator characters, which
    [db.collection(name)] accepts in every driver version. *)
Definition collection_name_ok (n : string) : bool :=
  plain_key n &&
  string_forall (fun c => negb (Ascii.eqb c "$")) n.

(** ** Requests, responses and the process state *)

Inductive method := GET | POST | PUT | DELETE.

Record request := Request {
  req_method : method;
  req_path : list string;        (* the decoded segments of the path *)
  req_q : option string;         (* [req.query.q] *)
  req_body : document            (* [req.body] *)
}.

Inductive payload :=
| Text (s : string)              (* [res.send] of a string *)
| Json (v : value)               (* [res.send] of an object, [res.json] *)
| ErrorPage (e : Error)          (* Express's page for an error no layer took *)
| NotFoundPage                   (* Express's page when no layer answered *)
| Pending.                       (* nothing is sent: the client waits *)

Record response := { status : nat; content : payload }.

(** What a request is left with when its handler returns without sending and
    without calling [next]. *)
Definition no_response : response := {| status := 0; content := Pending |}.

(** The global [db]: [None] until [connectToDatabase] has assigned it. *)
Record server := { db : option store }.

Definition connectToDatabase (mongo : store) (st : server) : server :=
  if online mongo then {| db := Some mongo |} else st.

(** What a request accumulates on its way: [req.params], [req.collection]. *)
Record req_state := {
  params : list (string * string);
  collection : option string
}.

Definition param (k : string) (cx : req_state) : string :=
  default "" (snd <$> List.find (fun kv => String.eqb (fst kv) k) (params cx)).

Inductive action :=
| Send (r : response)
| Next
| NextErr (e : Error).

(** ** Handlers *)

Definition msg (s : string) : value := VObj (("msg", VStr s) :: nil).

Definition json_docs (ds : list document) : value := VArr (map VObj ds).

Definition json_insert (r : InsertOneResult) : value :=
  VObj (("acknowledged", VBool (acknowledged r)) :: ("insertedId", insertedId r) :: nil).

Definition ok (v : value) : response := {| status := 200; content := Json v |}.

(** The global [db.collection(c)]: a TypeError while [db] is undefined. *)
Definition db_collection {A} (st : server) (op : store -> res A) : res A :=
  match db st with
  | Some s => op s
  | None => Throw Err_TypeError_db
  end.

(** [req.collection], bound by the parameter callback from the same [db]. *)
Definition req_collection {A} (cx : req_state) (st : server)
    (op : string -> store -> res A) : res A :=
  match collection cx, db st with
  | Some c, Some s => op c s
  | _, _ => Throw Err_TypeError_db
  end.

Definition put_store (s : store) : server := {| db := Some s |}.

(** [try { ... } catch (error) { h(error) }] around a handler body. *)
Definition try_catch (st : server) (m : res (response * server))
    (h : Error -> action) : option (action * server) :=
  match m with
  | Val (r, st') => Some (Send r, st')
  | Throw e => Some (h e, st)
  | OutOfModel => None
  end.

(** [app.param("collectionName", ...)] *)
Definition param_collectionName (name : string) (cx : req_state) (st : server)
  : option (action * req_state) :=
  match db st with
  | None => Some (NextErr Err_DbNotInitialized, cx)
  | Some _ =>
      if collection_name_ok name
      then Some (Next, {| params := params cx; collection := Some name |})
      else None
  end.

Definition root_handler (st : server) : option (action * server) :=
  Some (Send {| status := 200;
                content := Text "Welcome! Please select a collection, e.g., /collections/lessons" |},
        st).

(** Each route handler is a [try] block and its [catch]; the blocks first. *)

Definition list_try (cx : req_state) (st : server) : res (response * server) :=
  results ← req_collection cx st (fun c => find c SAll);
  mret (ok (json_docs results), st).

Definition getById_try (cx : req_state) (st : server) : res (response * server) :=
  o ← ObjectId_new (param "id" cx);
  result ← req_collection cx st (fun c => findOne c o);
  match result with
  | None => mret ({| status := 404; content := Json (msg "Document not found") |}, st)
  | Some d => mret (ok (VObj d), st)
  end.

Definition insert_try (rq : request) (cx : req_state) (st : server)
  : res (response * server) :=
  '(result, s') ← req_collection cx st (fun c => insertOne c (req_body rq));
  mret (ok (json_insert result), put_store s').

Definition delete_try (cx : req_state) (st : server) : res (response * server) :=
  o ← ObjectId_new (param "id" cx);
  '(result, s') ← req_collection cx st (fun c => deleteOne c o);
  mret (ok (if Nat.eqb (deletedCount result) 1 then msg "success" else msg "error"),
        put_store s').

Definition update_try (rq : request) (cx : req_state) (st : server)
  : res (response * server) :=
  o ← ObjectId_new (param "id" cx);
  '(result, s') ← req_collection cx st (fun c => updateOne c o (req_body rq));
  mret (ok (if Nat.eqb (matchedCount result) 1 then msg "success" else msg "error"),
        put_store s').

(** The order route of [app.js]. *)
Definition order_try (rq : request) (st : server) : res (response * server) :=
  let order := req_body rq in
  if negb (truthy (doc_get "name" order)) || negb (truthy (doc_get "email" order))
     || negb (truthy (doc_get "lessonIDs" order)) || negb (isArray (doc_get "lessonIDs" order))
  then mret ({| status := 400;
                content := Json (msg "Invalid order data. Ensure all required fields are provided.") |},
             st)
  else
    '(result, s') ← db_collection st (insertOne "orders" order);
    mret ({| status := 201;
             content := Json (VObj (("msg", VStr "Order created successfully")
                                    :: ("orderID", insertedId result) :: nil)) |},
          put_store s').

Definition order_fields : list string :=
  "name" :: "email" :: "address" :: "city" :: "postcode" :: "phone" :: "lessonIDs" :: nil.

(** The object literal [{name, email, ..., lessonIDs}] of destructured fields. *)
Definition pick_fields (ks : list string) (d : document) : document :=
  omap (fun k => pair k <$> doc_get k d) ks.

(** The order route of the first sibling revision. *)
Definition order_try_000 (rq : request) (st : server) : res (response * server) :=
  let b := req_body rq in
  if negb (truthy (doc_get "name" b)) || negb (truthy (doc_get "email" b))
     || negb (truthy (doc_get "address" b)) || negb (truthy (doc_get "city" b))
     || negb (truthy (doc_get "postcode" b)) || negb (truthy (doc_get "phone" b))
     || negb (isArray (doc_get "lessonIDs" b))
  then mret ({| status := 400;
                content := Json (VObj (("error", VStr "Invalid order data") :: nil)) |}, st)
  else
    '(result, s') ← db_collection st (insertOne "orders" (pick_fields order_fields b));
    mret ({| status := 201;
             content := Json (VObj (("message", VStr "Order created successfully")
                                    :: ("_id", insertedId result) :: nil)) |},
          put_store s').

(** The filter of the search route of [app.js]. *)
Definition search_conditions (query : string) (regex : RegExp) : list cond :=
  ((if negb (String.eqb query "")
    then CRegex "subject" regex :: CRegex "description" regex :: CRegex "location" regex :: nil
    else nil)
   ++
   match parseFloat query with
   | Some parsedNumber => CNum "price" parsedNumber :: CNum "availablespaces" parsedNumber :: nil
   | None => nil
   end)%list.

Definition search_query (conditions : list cond) : selector :=
  if is_nil conditions then SAll else SOr conditions.

Definition search_selector (q : option string) : res selector :=
  let query := default "" q in
  regex ← RegExp_new query;
  mret (search_query (search_conditions query regex)).

Definition search_try (rq : request) (st : server) : res (response * server) :=
  searchQuery ← search_selector (req_q rq);
  results ← db_collection st (find "lessons" searchQuery);
  mret (ok (json_docs results), st).

(** The search route of the second sibling revision: the expression on all
    five fields. *)
Definition search_selector_001 (q : option string) : res selector :=
  regex ← RegExp_new (default "" q);
  mret (SOr (CRegex "subject" regex :: CRegex "description" regex :: CRegex "location" regex
             :: CRegex "price" regex :: CRegex "availablespaces" regex :: nil)).

Definition search_try_001 (rq : request) (st : server) : res (response * server) :=
  searchQuery ← search_selector_001 (req_q rq);
  results ← db_collection st (find "lessons" searchQuery);
  mret (ok (json_docs results), st).

(** The handlers: the block with its [catch]. All forward the error with
    [next(error)], except the order route of [app.js] and the search routes. *)

Definition list_handler (cx : req_state) (st : server) : option (action * server) :=
  try_catch st (list_try cx st) NextErr.

Definition getById_handler (cx : req_state) (st : server) : option (action * server) :=
  try_catch st (getById_try cx st) NextErr.

Definition insert_handler (rq : request) (cx : req_state) (st : server)
  : option (action * server) :=
  try_catch st (insert_try rq cx st) NextErr.

Definition delete_handler (cx : req_state) (st : server) : option (action * server) :=
  try_catch st (delete_try cx st) NextErr.

Definition update_handler (rq : request) (cx : req_state) (st : server)
  : option (action * server) :=
  try_catch st (update_try rq cx st) NextErr.

Definition order_handler (rq : request) (st : server) : option (action * server) :=
  try_catch st (order_try rq st)
    (fun _ => Send {| status := 500;
                      content := Json (msg "An error occurred while processing your order. Please try again.") |}).

Definition order_handler_000 (rq : request) (st : server) : option (action * server) :=
  try_catch st (order_try_000 rq st) NextErr.

Definition search_error (e : Error) : action :=
  Send {| status := 500; content := Json (VObj (("error", VStr (message e)) :: nil)) |}.

Definition search_handler (rq : request) (st : server) : option (action * server) :=
  try_catch st (search_try rq st) search_error.

Definition search_handler_001 (rq : request) (st : server) : option (action * server) :=
  try_catch st (search_try_001 rq st) search_error.

(** The integers a JavaScript number holds exactly. *)
Definition safe_integer (z : Z) : bool := Z.abs z <? 2 ^ 53.

(** Whether the driver behind [db] calls a function given to [toArray]. The
    source fixes no version of the driver: the 4.x versions call it, with the
    error or the documents; from 5.0 on [toArray] takes no argument and
    returns a promise. *)
Definition calls_back (st : server) : bool :=
  match db st with Some s => callback_api s | None => true end.

(** The sorted listing has no [try] and awaits nothing: all it does is in the
    function it gives to [toArray], which forwards the error or sends the
    documents. With a driver that does not call the function the query runs,
    its promise is dropped and the handler returns: nothing is sent. (A
    dropped promise that rejects is outside the model.) A [max] that is not
    a number reaches the store as [NaN], and one beyond the safe integers is
    rounded by [parseInt]: neither is modelled. *)
Definition sorted_handler (cx : req_state) (st : server) : option (action * server) :=
  match parseInt (param "max" cx) with
  | None => None
  | Some max =>
      if negb (safe_integer max) then None
      else
        let sortDirection := String.eqb (param "sortAscDesc" cx) "desc" in
        match req_collection cx st
                (fun c => find_sorted c max (param "sortAspect" cx) sortDirection) with
        | Val results =>
            if calls_back st then Some (Send (ok (json_docs results)), st)
            else Some (Send no_response, st)
        | Throw err => if calls_back st then Some (NextErr err, st) else None
        | OutOfModel => None
        end
  end.

Definition notFound_handler (st : server) : option (action * server) :=
  Some (Send {| status := 404; content := Text "Error: Resource not found" |}, st).

(** The four-argument middleware the second sibling revision keeps commented
    out. *)
Definition errorReport_handler (err : Error) (st : server) : option (action * server) :=
  let m := message err in
  Some (Send {| status := 404;
                content := Json (VObj (("error",
                  VStr (if String.eqb m "" then "An error occurred" else m)) :: nil)) |},
        st).

(** ** The router *)

Inductive seg :=
| Lit (s : string)         (* a fixed segment, matched without regard to case *)
| Par (name : string).     (* [:name], any non-empty segment *)

(** Express's routing is not strict: a path matches with or without one
    trailing slash. *)
Fixpoint match_path (pat : list seg) (p : list string) : option (list (string * string)) :=
  match pat, p with
  | nil, nil => Some nil
  | nil, x :: nil => if String.eqb x "" then Some nil else None
  | Lit s :: pat', x :: p' => if ci_string_eqb s x then match_path pat' p' else None
  | Par n :: pat', x :: p' =>
      if String.eqb x "" then None
      else cons (n, x) <$> match_path pat' p'
  | _, _ => None
  end.

Definition method_eqb (a b : method) : bool :=
  match a, b with
  | GET, GET | POST, POST | PUT, PUT | DELETE, DELETE => true
  | _, _ => false
  end.

(** The functions registered on the application. *)
Inductive handler_id :=
| H_cors | H_morgan | H_json | H_static
| H_param_collectionName
| H_root | H_list | H_getById | H_insert | H_delete | H_update
| H_order | H_order_000 | H_sorted | H_search | H_search_001
| H_notFound | H_errorReport.

Inductive layer :=
| Use (h : handler_id)                                (* [app.use(fn)], [fn] of two or three arguments *)
| UseError (h : handler_id)                           (* [app.use(fn)], [fn] of four arguments *)
| Route (m : method) (pat : list seg) (h : handler_id). (* [app.get], [app.post], ... *)

(** The body of each function, run as a plain layer. The four library
    middlewares pass the request on: the body is already parsed, and
    [express.static] passes on every request but a GET (or HEAD) for a file
    that exists under [images/], which it answers itself; the requests
    described here name no such file. The parameter callback is run by
    [step] before a route's handler, and a four-argument function is passed
    over when no error is pending. *)
Definition run_handler (h : handler_id) (rq : request) (cx : req_state) (st : server)
  : option (action * server) :=
  match h with
  | H_cors | H_morgan | H_json | H_static => Some (Next, st)
  | H_param_collectionName => Some (Next, st)
  | H_root => root_handler st
  | H_list => list_handler cx st
  | H_getById => getById_handler cx st
  | H_insert => insert_handler rq cx st
  | H_delete => delete_handler cx st
  | H_update => update_handler rq cx st
  | H_order => order_handler rq st
  | H_order_000 => order_handler_000 rq st
  | H_sorted => sorted_handler cx st
  | H_search => search_handler rq st
  | H_search_001 => search_handler_001 rq st
  | H_notFound => notFound_handler st
  | H_errorReport => Some (Next, st)
  end.

Definition run_error_handler (h : handler_id) (err : Error) (st : server)
  : option (action * server) :=
  match h with
  | H_errorReport => errorReport_handler err st
  | _ => Some (NextErr err, st)
  end.

(** What a request ends in: the response, the state it leaves, the functions
    that ran (in order), and the error that was pending when Express's own
    final handler answered. *)
Record outcome := {
  out_response : response;
  out_state : server;
  out_trace : list handler_id;
  out_unhandled : option Error
}.

Definition has_par (n : string) (pat : list seg) : bool :=
  existsb (fun sg => match sg with Par m => String.eqb m n | Lit _ => false end) pat.

(** Express's final handler: the error page (status 500 for an error without
    a status of its own) or the not-found page. *)
Definition final_response (err : option Error) : response :=
  match err with
  | Some e => {| status := 500; content := ErrorPage e |}
  | None => {| status := 404; content := NotFoundPage |}
  end.

(** What one layer does with a request: answer it, pass it on (with or
    without an error), or leave the model. *)
Inductive step_result :=
| Done (o : outcome)
| Go (err : option Error) (cx : req_state) (st : server) (tr : list handler_id)
| Stuck.

Definition after (r : option (action * server)) (cx : req_state)
    (tr : list handler_id) : step_result :=
  match r with
  | None => Stuck
  | Some (Send resp, st') =>
      Done {| out_response := resp; out_state := st'; out_trace := tr;
              out_unhandled := None |}
  | Some (Next, st') => Go None cx st' tr
  | Some (NextErr e, st') => Go (Some e) cx st' tr
  end.

(** With an error pending, routes and plain middleware are skipped and only
    four-argument middleware runs; without one, four-argument middleware is
    skipped. A route whose pattern has [:collectionName] runs the parameter
    callback before its handler. *)
Definition step (l : layer) (err : option Error) (rq : request) (cx : req_state)
    (st : server) (tr : list handler_id) : step_result :=
  match err, l with
  | Some e, UseError h => after (run_error_handler h e st) cx (tr ++ h :: nil)%list
  | Some _, _ => Go err cx st tr
  | None, UseError _ => Go None cx st tr
  | None, Use h => after (run_handler h rq cx st) cx (tr ++ h :: nil)%list
  | None, Route m pat h =>
      if negb (method_eqb m (req_method rq)) then Go None cx st tr
      else
        match match_path pat (req_path rq) with
        | None => Go None cx st tr
        | Some ps =>
            let cx1 := {| params := ps; collection := collection cx |} in
            if has_par "collectionName" pat then
              match param_collectionName (param "collectionName" cx1) cx1 st with
              | None => Stuck
              | Some (NextErr e, cx2) =>
                  Go (Some e) cx2 st (tr ++ H_param_collectionName :: nil)%list
              | Some (_, cx2) =>
                  after (run_handler h rq cx2 st) cx2
                    (tr ++ H_param_collectionName :: h :: nil)%list
              end
            else after (run_handler h rq cx1 st) cx1 (tr ++ h :: nil)%list
        end
  end.

(** [dispatch] walks the stack in registration order. *)
Fixpoint dispatch (stack : list layer) (err : option Error) (rq : request)
    (cx : req_state) (st : server) (tr : list handler_id) : option outcome :=
  match stack with
  | nil =>
      Some {| out_response := final_response err; out_state := st; out_trace := tr;
              out_unhandled := err |}
  | l :: rest =>
      match step l err rq cx st tr with
      | Done o => Some o
      | Go err' cx' st' tr' => dispatch rest err' rq cx' st' tr'
      | Stuck => None
      end
  end.

Definition handle (stack : list layer) (st : server) (rq : request) : option outcome :=
  dispatch stack None rq {| params := nil; collection := None |} st nil.

(** ** The three stacks *)

Definition middlewares : list layer :=
  Use H_cors :: Use H_morgan :: Use H_json :: Use H_static :: nil.

Definition collections_ : list seg := Lit "collections" :: Par "collectionName" :: nil.

(** [src/app.js] *)
Definition app : list layer :=
  (middlewares ++
  Route GET nil H_root
  :: Route GET collections_ H_list
  :: Route GET (collections_ ++ Par "id" :: nil)%list H_getById
  :: Route POST collections_ H_insert
  :: Route DELETE (collections_ ++ Par "id" :: nil)%list H_delete
  :: Route PUT (collections_ ++ Par "id" :: nil)%list H_update
  :: Route POST (Lit "collections" :: Lit "orders" :: nil) H_order
  :: Route GET (collections_ ++ Par "max" :: Par "sortAspect" :: Par "sortAscDesc" :: nil)%list H_sorted
  :: Route GET (Lit "search" :: nil) H_search
  :: Use H_notFound
  :: nil)%list.

(** The first sibling revision: no delete and no sorted listing, the order
    route with the full validation. *)
Definition app_000 : list layer :=
  (middlewares ++
  Route GET nil H_root
  :: Route GET collections_ H_list
  :: Route GET (collections_ ++ Par "id" :: nil)%list H_getById
  :: Route POST collections_ H_insert
  :: Route POST (Lit "collections" :: Lit "orders" :: nil) H_order_000
  :: Route PUT (collections_ ++ Par "id" :: nil)%list H_update
  :: Route GET (Lit "search" :: nil) H_search
  :: Use H_notFound
  :: nil)%list.

(** The second sibling revision: no order route, the earlier search. *)
Definition app_001 : list layer :=
  (middlewares ++
  Route GET nil H_root
  :: Route GET collections_ H_list
  :: Route GET (collections_ ++ Par "id" :: nil)%list H_getById
  :: Route POST collections_ H_insert
  :: Route DELETE (collections_ ++ Par "id" :: nil)%list H_delete
  :: Route PUT (collections_ ++ Par "id" :: nil)%list H_update
  :: Route GET (collections_ ++ Par "max" :: Par "sortAspect" :: Par "sortAscDesc" :: nil)%list H_sorted
  :: Route GET (Lit "search" :: nil) H_search_001
  :: Use H_notFound
  :: nil)%list.

(** ** Vocabulary of the statements *)

(** The trace of the four library middlewares every request goes through. *)
Definition mw_trace : list handler_id := H_cors :: H_morgan :: H_json :: H_static :: nil.

Definition takes_errors (l : layer) : bool :=
  match l with UseError _ => true | _ => false end.

(** How a request ends when its handler's block gave [m] and the handler forwards
    what it catches. *)
Definition finish (st : server) (m : res (response * server)) (tr : list handler_id)
  : option outcome :=
  match m with
  | Val (r, st') =>
      Some {| out_response := r; out_state := st'; out_trace := tr; out_unhandled := None |}
  | Throw e =>
      Some {| out_response := final_response (Some e); out_state := st; out_trace := tr;
              out_unhandled := Some e |}
  | OutOfModel => None
  end.

(** The answer of the last layer of the stack. *)
Definition fallback_404 : response :=
  {| status := 404; content := Text "Error: Resource not found" |}.

(** The requests that a route with [:collectionName] takes: by method, the
    segments after [collections]. *)
Definition collection_route (m : method) (p : list string) : bool :=
  forallb (fun x => negb (String.eqb x "")) p &&
  match m, p with
  | GET, _ :: nil | GET, _ :: _ :: nil | GET, _ :: _ :: _ :: _ :: nil
  | POST, _ :: nil | PUT, _ :: _ :: nil | DELETE, _ :: _ :: nil => true
  | _, _ => false
  end.

(** The generated identifier is available: below the 96-bit limit and not in
    the collection. *)
Definition fresh_oid (s : store) (c : string) : bool :=
  (next_oid s <? oid_limit)%N &&
  negb (existsb (has_id (KOid (Oid (next_oid s)))) (docs s c)).

(** Every generated identifier in the store is below the generator. *)
Definition store_ok (s : store) : Prop :=
  forall c d o, In d (docs s c) -> doc_get "_id" d = Some (VOid o) ->
    (oid_val o < next_oid s)%N.





(** ** Sample data *)

Definition lesson (i : N) (subject location : string) (price spaces : Z) : document :=
  ("_id", VOid (Oid i)) :: ("subject", VStr subject) :: ("location", VStr location)
  :: ("price", VNum (Fin (inject_Z price)))
  :: ("availablespaces", VNum (Fin (inject_Z spaces))) :: nil.

Definition lessons5 : list document :=
  lesson 0 "Math" "London" 100 5
  :: lesson 1 "English" "Room 20" 80 5
  :: lesson 2 "Music" "Bristol" 90 20
  :: lesson 3 "Art" "Oxford" 20 4
  :: lesson 4 "Chess" "York" 95 2
  :: nil.

Definition store5 : store :=
  {| online := true; colls := {[ "lessons" := lessons5 ]}; next_oid := 5;
     callback_api := true |}.

Definition empty_store : store :=
  {| online := true; colls := ∅; next_oid := 0; callback_api := true |}.


(** The order of the specification's example, without address and phone,
    and the same with every field. *)
Definition short_order : document :=
  ("name", VStr "A") :: ("email", VStr "a@b.com")
  :: ("lessonIDs", VArr (VNum (Fin 1) :: VNum (Fin 2) :: nil)) :: nil.

Definition full_order : document :=
  ("name", VStr "A") :: ("email", VStr "a@b.com")
  :: ("address", VStr "1 High Street") :: ("city", VStr "London")
  :: ("postcode", VStr "N1 1AA") :: ("phone", VStr "02000000000")
  :: ("lessonIDs", VArr (VNum (Fin 1) :: VNum (Fin 2) :: nil)) :: nil.

(** ** Vocabulary of the further statements *)

(** The handler a layer runs on a request that carries no error: a plain
    middleware always, a route when the method is its own. *)
Definition runs (l : layer) (rq : request) (h : handler_id) : Prop :=
  match l with
  | Use h' => h' = h
  | Route m _ h' => h' = h /\ method_eqb m (req_method rq) = true
  | UseError _ => False
  end.

(** The writes to the store, by the handler that makes them. *)
Inductive write (rq : request) (s s' : store) : handler_id -> Prop :=
| W_insert c r :
    insertOne c (req_body rq) s = Val (r, s') -> write rq s s' H_insert
| W_order r :
    insertOne "orders" (req_body rq) s = Val (r, s') -> write rq s s' H_order
| W_order_000 r :
    insertOne "orders" (pick_fields order_fields (req_body rq)) s = Val (r, s') ->
    write rq s s' H_order_000
| W_update c o r :
    updateOne c o (req_body rq) s = Val (r, s') -> write rq s s' H_update
| W_delete c o r :
    deleteOne c o s = Val (r, s') -> write rq s s' H_delete.

(** Whether a route takes the request. *)
Definition route_matches (l : layer) (rq : request) : bool :=
  match l with
  | Route m pat _ =>
      method_eqb m (req_method rq) &&
      match match_path pat (req_path rq) with Some _ => true | None => false end
  | _ => false
  end.

Definition no_route (stack : list layer) (rq : request) : bool :=
  forallb (fun l => negb (route_matches l rq)) stack.

(** Requests served one after the other. *)
Fixpoint serve (stack : list layer) (st : server) (rqs : list request) : option server :=
  match rqs with
  | nil => Some st
  | rq :: rest =>
      match handle stack st rq with
      | Some out => serve stack (out_state out) rest
      | None => None
      end
  end.

(** The identifiers of a collection are pairwise different. *)
Definition id_key (d : document) : option key := key_of (doc_get "_id" d).

Definition same_key (a b : option key) : bool :=
  match a, b with
  | Some x, Some y => key_eqb x y
  | _, _ => false
  end.

Fixpoint distinct_keys (ks : list (option key)) : bool :=
  match ks with
  | nil => true
  | k :: ks' => negb (existsb (same_key k) ks') && distinct_keys ks'
  end.

Definition ids_unique (s : store) : Prop :=
  forall c, distinct_keys (map id_key (docs s c)) = true.

(** The handlers that answer or forward an error, and never call [next()]
    without one: those of the routes and the fallback. *)
Definition answers (h : handler_id) : bool :=
  match h with
  | H_cors | H_morgan | H_json | H_static | H_param_collectionName | H_errorReport => false
  | _ => true
  end.

Definition is_route (l : layer) : bool :=
  match l with Route _ _ _ => true | _ => false end.

(** The routes of the three stacks, between the middlewares and the
    fallback. *)
Definition routes_of (stack : list layer) : list layer := List.filter is_route stack.

(** A field on which a regular expression cannot match: it holds neither a
    string nor an array. *)
Definition no_text (v : option value) : bool :=
  match v with
  | Some (VStr _) | Some (VArr _) => false
  | _ => true
  end.

(** * Properties *)

Arguments list_handler : simpl never.
Arguments getById_handler : simpl never.
Arguments insert_handler : simpl never.
Arguments delete_handler : simpl never.
Arguments update_handler : simpl never.
Arguments order_handler : simpl never.
Arguments order_handler_000 : simpl never.
Arguments sorted_handler : simpl never.
Arguments search_handler : simpl never.
Arguments search_handler_001 : simpl never.
Arguments list_try : simpl never.
Arguments getById_try : simpl never.
Arguments insert_try : simpl never.
Arguments delete_try : simpl never.
Arguments update_try : simpl never.
Arguments order_try : simpl never.
Arguments order_try_000 : simpl never.
Arguments search_try : simpl never.
Arguments search_try_001 : simpl never.
Arguments ci_string_eqb : simpl never.
Arguments doc_get : simpl never.
Arguments collection_name_ok : simpl never.

(** ** Characters and routing *)

Lemma ci_eqb_refl c : ci_eqb c c = true.
Proof. unfold ci_eqb. apply Ascii.eqb_refl. Qed.

Lemma ci_string_eqb_refl s : ci_string_eqb s s = true.
Proof.
  induction s as [|c s IH]; [reflexivity|].
  change (ci_eqb c c && ci_string_eqb s s = true).
  now rewrite ci_eqb_refl, IH.
Qed.

Lemma eqb_empty_false s : s <> "" -> String.eqb s "" = false.
Proof. intros H. now apply String.eqb_neq. Qed.

Lemma plain_key_nonempty k : plain_key k = true -> k <> "".
Proof. destruct k; [discriminate | discriminate]. Qed.

Lemma collection_name_nonempty n : collection_name_ok n = true -> n <> "".
Proof.
  unfold collection_name_ok. intros H. apply andb_prop in H as [H _].
  now apply plain_key_nonempty.
Qed.

(** ** The router *)

Lemma dispatch_pending stack e rq cx st tr :
  forallb (fun l => negb (takes_errors l)) stack = true ->
  dispatch stack (Some e) rq cx st tr =
  Some {| out_response := final_response (Some e); out_state := st; out_trace := tr;
          out_unhandled := Some e |}.
Proof.
  induction stack as [|l rest IH]; intros H; [reflexivity|].
  simpl in H. apply andb_prop in H as [Hl Hrest].
  destruct l; try discriminate; simpl; auto.
Qed.

Ltac ci_eval :=
  repeat match goal with
  | |- context [ci_string_eqb ?a ?a] => rewrite (ci_string_eqb_refl a)
  | |- context [ci_string_eqb ?a ?b] =>
      let v := eval vm_compute in (ci_string_eqb a b) in
      change (ci_string_eqb a b) with v
  end.

Ltac route_eval :=
  repeat first
    [ progress cbn
    | progress ci_eval
    | rewrite eqb_empty_false by assumption ].

Lemma route_getById st s name id q b :
  db st = Some s -> collection_name_ok name = true -> id <> "" ->
  handle app st (Request GET ("collections" :: name :: id :: nil) q b) =
  finish st (getById_try {| params := ("collectionName", name) :: ("id", id) :: nil;
                            collection := Some name |} st)
         (mw_trace ++ H_param_collectionName :: H_getById :: nil).
Proof.
  intros Hdb Hn Hi.
  pose proof (collection_name_nonempty _ Hn) as Hne.
  unfold handle, app, middlewares. route_eval.
  unfold param_collectionName. rewrite Hdb, Hn. cbn.
  unfold getById_handler.
  destruct (getById_try _ st) as [[r st']|e|]; cbn; reflexivity.
Qed.

Lemma route_list s name q b :
  collection_name_ok name = true ->
  handle app (put_store s) (Request GET ("collections" :: name :: nil) q b) =
  finish (put_store s)
         (list_try {| params := ("collectionName", name) :: nil; collection := Some name |}
                   (put_store s))
         (mw_trace ++ H_param_collectionName :: H_list :: nil).
Proof.
  intros Hn. pose proof (collection_name_nonempty _ Hn) as Hne.
  unfold handle, app, middlewares. route_eval.
  unfold param_collectionName. cbn. rewrite Hn. cbn.
  unfold list_handler.
  destruct (list_try _ _) as [[r st']|e|]; cbn; reflexivity.
Qed.

Lemma route_insert s name q b :
  collection_name_ok name = true ->
  handle app (put_store s) (Request POST ("collections" :: name :: nil) q b) =
  finish (put_store s)
         (insert_try (Request POST ("collections" :: name :: nil) q b)
                     {| params := ("collectionName", name) :: nil; collection := Some name |}
                     (put_store s))
         (mw_trace ++ H_param_collectionName :: H_insert :: nil).
Proof.
  intros Hn. pose proof (collection_name_nonempty _ Hn) as Hne.
  unfold handle, app, middlewares. route_eval.
  unfold param_collectionName. cbn. rewrite Hn. cbn.
  unfold insert_handler.
  destruct (insert_try _ _ _) as [[r st']|e|]; cbn; reflexivity.
Qed.

Lemma route_delete s name id q b :
  collection_name_ok name = true -> id <> "" ->
  handle app (put_store s) (Request DELETE ("collections" :: name :: id :: nil) q b) =
  finish (put_store s)
         (delete_try {| params := ("collectionName", name) :: ("id", id) :: nil;
                        collection := Some name |} (put_store s))
         (mw_trace ++ H_param_collectionName :: H_delete :: nil).
Proof.
  intros Hn Hi. pose proof (collection_name_nonempty _ Hn) as Hne.
  unfold handle, app, middlewares. route_eval.
  unfold param_collectionName. cbn. rewrite Hn. cbn.
  unfold delete_handler.
  destruct (delete_try _ _) as [[r st']|e|]; cbn; reflexivity.
Qed.

Lemma route_update s name id q b :
  collection_name_ok name = true -> id <> "" ->
  handle app (put_store s) (Request PUT ("collections" :: name :: id :: nil) q b) =
  finish (put_store s)
         (update_try (Request PUT ("collections" :: name :: id :: nil) q b)
                     {| params := ("collectionName", name) :: ("id", id) :: nil;
                        collection := Some name |} (put_store s))
         (mw_trace ++ H_param_collectionName :: H_update :: nil).
Proof.
  intros Hn Hi. pose proof (collection_name_nonempty _ Hn) as Hne.
  unfold handle, app, middlewares. route_eval.
  unfold param_collectionName. cbn. rewrite Hn. cbn.
  unfold update_handler.
  destruct (update_try _ _ _) as [[r st']|e|]; cbn; reflexivity.
Qed.



Lemma route_search st q b :
  handle app st (Request GET ("search" :: nil) q b) =
  match search_try (Request GET ("search" :: nil) q b) st with
  | Val (r, st') =>
      Some {| out_response := r; out_state := st'; out_trace := mw_trace ++ H_search :: nil;
              out_unhandled := None |}
  | Throw e =>
      Some {| out_response :=
                {| status := 500; content := Json (VObj (("error", VStr (message e)) :: nil)) |};
              out_state := st; out_trace := mw_trace ++ H_search :: nil;
              out_unhandled := None |}
  | OutOfModel => None
  end.
Proof.
  unfold handle, app, middlewares. route_eval.
  unfold search_handler.
  destruct (search_try _ _) as [[r st']|e|]; cbn; reflexivity.
Qed.

Lemma route_root st q b :
  handle app st (Request GET nil q b) =
  Some {| out_response :=
            {| status := 200;
               content := Text "Welcome! Please select a collection, e.g., /collections/lessons" |};
          out_state := st; out_trace := mw_trace ++ H_root :: nil; out_unhandled := None |}.
Proof. reflexivity. Qed.

(** A request for a route with [:collectionName] while [db] is undefined: the
    parameter callback forwards its error and no handler runs. *)
Lemma route_no_db m name rest q b :
  collection_route m (name :: rest) = true ->
  handle app {| db := None |} (Request m ("collections" :: name :: rest) q b) =
  Some {| out_response := final_response (Some Err_DbNotInitialized);
          out_state := {| db := None |};
          out_trace := mw_trace ++ H_param_collectionName :: nil;
          out_unhandled := Some Err_DbNotInitialized |}.
Proof.
  unfold collection_route. intros H. apply andb_prop in H as [Hne Hshape].
  assert (Hnz : forall x, In x (name :: rest) -> x <> "").
  { intros x Hx. rewrite forallb_forall in Hne. specialize (Hne x Hx).
    apply negb_true_iff in Hne. now apply String.eqb_neq. }
  destruct m, rest as [|a [|a2 [|a3 [|a4 rest]]]]; try discriminate Hshape;
    unfold handle, app, middlewares;
    repeat first
      [ progress cbn
      | progress ci_eval
      | rewrite eqb_empty_false by (apply Hnz; simpl; tauto) ];
    reflexivity.
Qed.

(** ** Built-ins *)

Lemma round_half_even_exact n : round_half_even n 1 = n.
Proof.
  unfold round_half_even. rewrite Z.mod_1_r, Z.div_1_r. reflexivity.
Qed.

Lemma Qred_inject_Z z : Qred (inject_Z z) = inject_Z z.
Proof.
  unfold Qred, inject_Z.
  pose proof (Z.ggcd_gcd z 1) as Hg. pose proof (Z.ggcd_correct_divisors z 1) as Hd.
  destruct (Z.ggcd z 1) as [g [a b]]. cbn in Hg, Hd. rewrite Z.gcd_1_r in Hg. subst g.
  destruct Hd as [Ha Hb]. rewrite !Z.mul_1_l in *. subst. reflexivity.
Qed.

Lemma scaled_back (a k : Z) :
  0 <= k -> (inject_Z (a * 2 ^ k) * Qpower (2 # 1) (- k) == inject_Z a)%Q.
Proof.
  intros Hk. rewrite Qpower_opp.
  assert (E : (Qpower (2 # 1) k == inject_Z (2 ^ k))%Q).
  { rewrite Zpower_Qpower by exact Hk. reflexivity. }
  rewrite E, inject_Z_mult.
  assert (Hnz : ~ (inject_Z (2 ^ k) == 0)%Q).
  { unfold Qeq. cbn. pose proof (Z.pow_pos_nonneg 2 k). lia. }
  field. exact Hnz.
Qed.

(** The integers a Number holds exactly are their own Number value. *)
Lemma to_double_safe_integer z :
  Z.abs z < 2 ^ 53 -> to_double (inject_Z z) = Fin (inject_Z z).
Proof.
  intros Hz. unfold to_double. cbn [Qnum Qden inject_Z].
  destruct (Z.eqb_spec (Z.abs z) 0) as [E|E].
  { assert (z = 0) by lia. subst. reflexivity. }
  assert (Hpos : 0 < Z.abs z) by lia.
  change (Z.log2 1) with 0. rewrite Z.sub_0_r.
  pose proof (Z.log2_spec _ Hpos) as [Hlo Hhi].
  pose proof (Z.log2_nonneg (Z.abs z)) as Hnn.
  assert (Hle : Z.log2 (Z.abs z) <= 52).
  { apply Z.lt_succ_r. apply (Z.pow_lt_mono_r_iff 2); lia. }
  assert (H0 : (0 <=? Z.log2 (Z.abs z)) = true) by (apply Z.leb_le; lia).
  rewrite H0.
  assert (Hb : (Z.abs z <? 2 ^ Z.log2 (Z.abs z) * 1) = false) by (apply Z.ltb_ge; lia).
  rewrite Hb.
  set (e := Z.log2 (Z.abs z)) in *.
  assert (Hu : Z.max (e - 52) (-1074) = e - 52) by lia. rewrite Hu.
  set (k := 52 - e).
  assert (Hk : 0 <= k) by (unfold k; lia).
  assert (Hm : (if 0 <=? e - 52 then round_half_even (Z.abs z) (1 * 2 ^ (e - 52))
                else round_half_even (Z.abs z * 2 ^ (- (e - 52))) 1) = Z.abs z * 2 ^ k).
  { destruct (Z.leb_spec 0 (e - 52)) as [Hge|Hlt].
    - assert (Ee : e = 52) by lia. unfold k. rewrite Ee. cbn [Z.sub Z.opp Z.pow Z.add Z.pos_sub Z.pow_pos Pos.iter Z.mul Pos.mul].
      rewrite round_half_even_exact. lia.
    - rewrite round_half_even_exact. unfold k. f_equal. f_equal. lia. }
  rewrite Hm.
  assert (Hov : ((0 <=? e - 52) && (2 ^ 1024 <=? Z.abs z * 2 ^ k * 2 ^ (e - 52))) = false).
  { destruct (Z.leb_spec 0 (e - 52)) as [Hge|Hlt]; [|reflexivity]. cbn [andb].
    assert (Ee : e = 52) by lia. unfold k. rewrite Ee. cbn [Z.sub Z.opp Z.pow Z.add Z.pos_sub Z.pow_pos Pos.iter Z.mul Pos.mul].
    apply Z.leb_gt. assert (2 ^ 53 < 2 ^ 1024) by reflexivity. lia. }
  rewrite Hov. f_equal. rewrite <- (Qred_inject_Z z). apply Qred_complete.
  replace (e - 52) with (- k) by (unfold k; lia).
  assert (Hs : (if z <? 0 then - (Z.abs z * 2 ^ k) else Z.abs z * 2 ^ k) = z * 2 ^ k).
  { destruct (Z.ltb_spec z 0); lia. }
  rewrite Hs. now apply scaled_back.
Qed.

(** Beyond them, and on fractions, [parseFloat] rounds as the engine does. *)
Lemma parseFloat_rounds :
  parseFloat "9007199254740993" = Some (Fin 9007199254740992) /\
  parseFloat "9007199254740995" = Some (Fin 9007199254740996) /\
  parseFloat "0.1" = Some (Fin (3602879701896397 # 36028797018963968)) /\
  parseFloat "1e400" = Some PInf /\
  parseFloat "1e-400" = Some (Fin 0) /\
  parseFloat "20" = Some (Fin 20).
Proof. repeat split; vm_compute; reflexivity. Qed.


Lemma ObjectId_new_nonempty id o : ObjectId_new id = Val o -> id <> "".
Proof. intros H ->. discriminate H. Qed.

(** ** Get by id *)

Lemma getById_try_found s name id ps o d :
  online s = true -> ObjectId_new id = Val o ->
  List.find (has_id (KOid o)) (docs s name) = Some d ->
  getById_try {| params := ("collectionName", name) :: ("id", id) :: ps;
                 collection := Some name |} (put_store s)
  = Val (ok (VObj d), put_store s).
Proof.
  intros Hon Ho Hf. unfold getById_try. cbn. rewrite Ho. cbn.
  unfold findOne. rewrite Hon. cbn. now rewrite Hf.
Qed.

Lemma getById_try_missing s name id ps o :
  online s = true -> ObjectId_new id = Val o ->
  List.find (has_id (KOid o)) (docs s name) = None ->
  getById_try {| params := ("collectionName", name) :: ("id", id) :: ps;
                 collection := Some name |} (put_store s)
  = Val ({| status := 404; content := Json (msg "Document not found") |}, put_store s).
Proof.
  intros Hon Ho Hf. unfold getById_try. cbn. rewrite Ho. cbn.
  unfold findOne. rewrite Hon. cbn. now rewrite Hf.
Qed.

Lemma getById_try_malformed st name id ps e :
  ObjectId_new id = Throw e ->
  getById_try {| params := ("collectionName", name) :: ("id", id) :: ps;
                 collection := Some name |} st
  = Throw e.
Proof. intros Ho. unfold getById_try. cbn. now rewrite Ho. Qed.

(** C7. On a connected store, [GET /collections/{name}/{id}] with an id that
    parses answers the document with that identifier when the collection has
    one, and 404 with [{"msg":"Document not found"}] when it has none; with an
    id that the identifier constructor refuses, the error is forwarded and the
    answer is the error page with status 500, which is not the not-found
    answer. *)
Theorem get_by_id_found_missing_malformed (s : store) (name id : string)
    (q : option string) (b : document) :
  online s = true -> collection_name_ok name = true -> id <> "" ->
  let rq := Request GET ("collections" :: name :: id :: nil) q b in
  let not_found := {| status := 404; content := Json (msg "Document not found") |} in
  (forall o, ObjectId_new id = Val o ->
     ((exists d, In d (docs s name) /\ has_id (KOid o) d = true) ->
      exists d out, In d (docs s name) /\ has_id (KOid o) d = true /\
        handle app (put_store s) rq = Some out /\
        out_response out = ok (VObj d) /\ out_state out = put_store s) /\
     ((forall d, In d (docs s name) -> has_id (KOid o) d = false) ->
      exists out, handle app (put_store s) rq = Some out /\
        out_response out = not_found /\ out_state out = put_store s)) /\
  (forall e, ObjectId_new id = Throw e ->
     exists out, handle app (put_store s) rq = Some out /\
       out_response out = {| status := 500; content := ErrorPage e |} /\
       out_response out <> not_found /\
       out_unhandled out = Some e /\ out_state out = put_store s).
Proof.
  intros Hon Hn Hi rq not_found. subst rq. split.
  - intros o Ho. split.
    + intros [d [Hin Hid]].
      destruct (List.find (has_id (KOid o)) (docs s name)) as [d'|] eqn:Hf.
      * apply find_some in Hf as Hd'. destruct Hd' as [Hin' Hid'].
        exists d'. eexists. repeat split; try assumption.
        -- rewrite (route_getById _ s) by (assumption || reflexivity).
           rewrite (getById_try_found s name id nil o d') by assumption. reflexivity.
        -- reflexivity.
        -- reflexivity.
      * pose proof (find_none _ _ Hf d Hin) as Hc. congruence.
    + intros Hall.
      assert (Hf : List.find (has_id (KOid o)) (docs s name) = None).
      { destruct (List.find _ _) as [d'|] eqn:Hf; [|reflexivity].
        apply find_some in Hf as [Hin' Hid']. rewrite (Hall _ Hin') in Hid'. discriminate. }
      eexists. repeat split.
      * rewrite (route_getById _ s) by (assumption || reflexivity).
        rewrite (getById_try_missing s name id nil o) by assumption. reflexivity.
      * reflexivity.
      * reflexivity.
  - intros e He. eexists. repeat split.
    + rewrite (route_getById _ s) by (assumption || reflexivity).
      rewrite (getById_try_malformed _ name id nil e) by assumption. reflexivity.
    + reflexivity.
    + discriminate.
    + reflexivity.
    + reflexivity.
Qed.

Lemma get_by_id_witness :
  online store5 = true /\ collection_name_ok "lessons" = true /\
  ObjectId_new "000000000000000000000003" = Val (Oid 3) /\
  (exists d out,
     In d (docs store5 "lessons") /\ has_id (KOid (Oid 3)) d = true /\
     handle app (put_store store5)
       (Request GET ("collections" :: "lessons" :: "000000000000000000000003" :: nil) None nil)
       = Some out /\
     out_response out = ok (VObj d)) /\
  (exists out,
     handle app (put_store store5)
       (Request GET ("collections" :: "lessons" :: "0000000000000000000000ff" :: nil) None nil)
       = Some out /\
     out_response out = {| status := 404; content := Json (msg "Document not found") |}) /\
  (exists out,
     handle app (put_store store5)
       (Request GET ("collections" :: "lessons" :: "xyz" :: nil) None nil) = Some out /\
     out_response out = {| status := 500; content := ErrorPage (Err_BSON_id "xyz") |}).
Proof.
  split; [reflexivity|]. split; [reflexivity|]. split; [reflexivity|].
  repeat apply conj.
  - assert (Hi : "000000000000000000000003" <> "") by discriminate.
    destruct (get_by_id_found_missing_malformed store5 "lessons" "000000000000000000000003"
                None nil eq_refl eq_refl Hi) as [Hok _].
    destruct (Hok (Oid 3) eq_refl) as [Hfound _].
    destruct Hfound as (d & out & Hin & Hid & H & Hr & _).
    { exists (lesson 3 "Art" "Oxford" 20 4). split; [|reflexivity].
      vm_compute. tauto. }
    exists d, out. repeat split; assumption.
  - assert (Hi : "0000000000000000000000ff" <> "") by discriminate.
    destruct (get_by_id_found_missing_malformed store5 "lessons" "0000000000000000000000ff"
                None nil eq_refl eq_refl Hi) as [Hok _].
    destruct (Hok (Oid 255) eq_refl) as [_ Hmissing].
    destruct Hmissing as (out & H & Hr & _).
    { intros d Hin. vm_compute in Hin.
      repeat (destruct Hin as [<-|Hin]; [reflexivity|]). destruct Hin. }
    exists out. split; assumption.
  - assert (Hi : "xyz" <> "") by discriminate.
    destruct (get_by_id_found_missing_malformed store5 "lessons" "xyz"
                None nil eq_refl eq_refl Hi) as [_ Hbad].
    destruct (Hbad (Err_BSON_id "xyz") eq_refl) as (out & H & Hr & _).
    exists out. split; assumption.
Defined.

(** ** Documents *)

Lemma doc_get_cons k k' v d :
  doc_get k ((k', v) :: d) = if String.eqb k' k then Some v else doc_get k d.
Proof. unfold doc_get. cbn. now destruct (String.eqb k' k). Qed.

Lemma doc_get_set_eq k v d : doc_get k (doc_set k v d) = Some v.
Proof.
  induction d as [|[k' v'] d IH]; cbn.
  - rewrite doc_get_cons. now rewrite String.eqb_refl.
  - destruct (String.eqb k' k) eqn:E.
    + rewrite doc_get_cons. now rewrite String.eqb_refl.
    + rewrite doc_get_cons. now rewrite E.
Qed.

Lemma doc_get_set_ne f k v d : f <> k -> doc_get f (doc_set k v d) = doc_get f d.
Proof.
  intros Hne. induction d as [|[k' v'] d IH]; cbn.
  - rewrite doc_get_cons. apply not_eq_sym, String.eqb_neq in Hne. now rewrite Hne.
  - destruct (String.eqb k' k) eqn:E.
    + apply String.eqb_eq in E. subst k'. rewrite !doc_get_cons.
      apply not_eq_sym, String.eqb_neq in Hne. now rewrite Hne.
    + rewrite !doc_get_cons. now rewrite IH.
Qed.

Lemma nodup_keys_get_none k v d :
  nodup_keys (map fst ((k, v) :: d)) = true -> doc_get k d = None.
Proof.
  cbn. intros H. apply andb_prop in H as [H _]. apply negb_true_iff in H.
  induction d as [|[k' v'] d IH]; [reflexivity|].
  cbn in H. apply orb_false_elim in H as [H1 H2].
  rewrite doc_get_cons. rewrite String.eqb_sym, H1. now apply IH.
Qed.

Lemma fold_set_get body : forall d f,
  nodup_keys (map fst body) = true ->
  doc_get f (fold_left (fun acc kv => doc_set (fst kv) (snd kv) acc) body d) =
  match doc_get f body with
  | Some v => Some v
  | None => doc_get f d
  end.
Proof.
  induction body as [|[k v] body IH]; intros d f Hnd; [reflexivity|].
  pose proof (nodup_keys_get_none _ _ _ Hnd) as Hk.
  cbn in Hnd. apply andb_prop in Hnd as [_ Hnd].
  cbn [fold_left fst snd]. rewrite (IH _ _ Hnd). rewrite doc_get_cons.
  destruct (String.eqb k f) eqn:E.
  - apply String.eqb_eq in E. subst f. rewrite Hk. apply doc_get_set_eq.
  - destruct (doc_get f body); [reflexivity|].
    apply doc_get_set_ne. apply String.eqb_neq in E. congruence.
Qed.

(** Taking the fields of an update in the order of their names changes
    neither the names nor what each is set to. *)
Lemma existsb_insert_by k x l :
  existsb (String.eqb k) (map fst (insert_by name_leb x l)) =
  String.eqb k (fst x) || existsb (String.eqb k) (map fst l).
Proof.
  induction l as [|y l IH]; [reflexivity|]. cbn [insert_by].
  destruct (name_leb x y); [reflexivity|]. cbn [map existsb]. rewrite IH.
  now destruct (String.eqb k (fst y)), (String.eqb k (fst x)).
Qed.

Lemma nodup_keys_insert_by x l :
  nodup_keys (map fst (x :: l)) = true -> nodup_keys (map fst (insert_by name_leb x l)) = true.
Proof.
  induction l as [|y l IH]; [trivial|]. cbn [insert_by].
  destruct (name_leb x y); [trivial|]. cbn [map nodup_keys existsb].
  intros H. apply andb_prop in H as [Hx H]. apply andb_prop in H as [Hy Hl].
  apply negb_true_iff, orb_false_elim in Hx as [Hxy Hx]. apply negb_true_iff in Hy.
  rewrite IH by (cbn [map nodup_keys]; now rewrite Hx, Hl).
  rewrite existsb_insert_by, Hy, String.eqb_sym, Hxy. reflexivity.
Qed.

Lemma doc_get_insert_by x l f :
  doc_get (fst x) l = None ->
  doc_get f (insert_by name_leb x l) =
  if String.eqb (fst x) f then Some (snd x) else doc_get f l.
Proof.
  destruct x as [kx vx]. cbn [fst snd].
  induction l as [|[k v] l IH]; intros Hx; [apply doc_get_cons|]. cbn [insert_by].
  destruct (name_leb (kx, vx) (k, v)); [apply doc_get_cons|].
  rewrite doc_get_cons in Hx. destruct (String.eqb k kx) eqn:Ek; [discriminate|].
  rewrite !doc_get_cons, (IH Hx).
  destruct (String.eqb k f) eqn:Ef, (String.eqb kx f) eqn:Exf; try reflexivity.
  apply String.eqb_eq in Ef, Exf. subst. now rewrite String.eqb_refl in Ek.
Qed.

Lemma sort_by_name body :
  nodup_keys (map fst body) = true ->
  nodup_keys (map fst (sort_by name_leb body)) = true /\
  forall f, doc_get f (sort_by name_leb body) = doc_get f body.
Proof.
  induction body as [|[k v] body IH]; intros Hnd; [now split|].
  pose proof (nodup_keys_get_none _ _ _ Hnd) as Hk.
  pose proof Hnd as Hnd'. cbn in Hnd'. apply andb_prop in Hnd' as [Hfresh Hnd'].
  destruct (IH Hnd') as [IH1 IH2]. cbn [sort_by fold_right].
  fold (sort_by name_leb body). split.
  - apply nodup_keys_insert_by. cbn [map nodup_keys fst]. rewrite IH1, andb_true_r.
    apply negb_true_iff. apply negb_true_iff in Hfresh.
    clear -Hfresh IH2.
    destruct (existsb (String.eqb k) (map fst (sort_by name_leb body))) eqn:E; [|reflexivity].
    apply existsb_exists in E as (k' & Hin & Ek). apply String.eqb_eq in Ek. subst k'.
    apply in_map_iff in Hin as ([k' v'] & Ek & Hin). cbn in Ek. subst k'.
    assert (Hsome : doc_get k (sort_by name_leb body) <> None).
    { unfold doc_get. destruct (List.find _ _) eqn:Hf; [discriminate|].
      apply (find_none _ _ Hf) in Hin. cbn in Hin. now rewrite String.eqb_refl in Hin. }
    rewrite IH2 in Hsome. exfalso. apply Hsome.
    unfold doc_get. destruct (List.find _ body) as [[k' v'']|] eqn:Hf; [|reflexivity].
    apply find_some in Hf as [Hin' Ek]. cbn in Ek. apply String.eqb_eq in Ek. subst k'.
    assert (existsb (String.eqb k) (map fst body) = true).
    { apply existsb_exists. exists k. split; [|apply String.eqb_refl].
      apply in_map_iff. now exists (k, v''). }
    congruence.
  - intros f. rewrite doc_get_insert_by by (cbn [fst]; now rewrite IH2).
    cbn [fst snd]. now rewrite IH2, doc_get_cons.
Qed.

(** [$set] is a merge: a field of the body takes the body's value, every other
    field keeps its own. *)
Lemma apply_set_get body : forall d f,
  nodup_keys (map fst body) = true ->
  doc_get f (apply_set body d) =
  match doc_get f body with
  | Some v => Some v
  | None => doc_get f d
  end.
Proof.
  intros d f Hnd. destruct (sort_by_name body Hnd) as [Hs Hg].
  unfold apply_set. rewrite fold_set_get by exact Hs. now rewrite Hg.
Qed.

Lemma plain_doc_nodup d : plain_doc d = true -> nodup_keys (map fst d) = true.
Proof. unfold plain_doc. cbn. intros H. now apply andb_prop in H as [H _]. Qed.

Lemma doc_remove_absent k d : doc_get k d = None -> doc_remove k d = d.
Proof.
  induction d as [|[k' v'] d IH]; [reflexivity|].
  rewrite doc_get_cons. unfold doc_remove. cbn.
  destruct (String.eqb k' k); [discriminate|]. cbn. intros H. f_equal. now apply IH.
Qed.

(** ** Lists *)

Lemma split_first_some {A} (p : A -> bool) l pre x post :
  split_first p l = Some (pre, x, post) ->
  l = (pre ++ x :: post)%list /\ p x = true /\ forall y, In y pre -> p y = false.
Proof.
  revert pre x post. induction l as [|a l IH]; intros pre x post; cbn; [discriminate|].
  destruct (p a) eqn:E.
  - intros [= <- <- <-]. repeat split; [assumption | intros y []].
  - destruct (split_first p l) as [[[pre' y] post']|]; [|discriminate].
    intros [= <- <- <-]. destruct (IH _ _ _ eq_refl) as (-> & Hp & Hpre).
    repeat split; [assumption|]. intros z [<-|Hz]; auto.
Qed.

Lemma split_first_none {A} (p : A -> bool) l :
  split_first p l = None -> forall y, In y l -> p y = false.
Proof.
  induction l as [|a l IH]; cbn; [intros _ y []|].
  destruct (p a) eqn:E; [discriminate|].
  destruct (split_first p l) as [[[pre' y] post']|]; [discriminate|].
  intros _ z [<-|Hz]; auto.
Qed.

Lemma split_first_here {A} (p : A -> bool) pre x post :
  p x = true -> (forall y, In y pre -> p y = false) ->
  split_first p (pre ++ x :: post) = Some (pre, x, post).
Proof.
  intros Hx. induction pre as [|a pre IH]; intros Hpre; cbn.
  - now rewrite Hx.
  - rewrite (Hpre a) by now left. rewrite IH; [reflexivity|]. intros y Hy. apply Hpre. now right.
Qed.

Lemma split_first_is_some {A} (p : A -> bool) l :
  (exists x, In x l /\ p x = true) -> exists pre x post, split_first p l = Some (pre, x, post).
Proof.
  intros (x & Hin & Hx).
  destruct (split_first p l) as [[[pre y] post]|] eqn:E; [eauto|].
  rewrite (split_first_none p l E x Hin) in Hx. discriminate.
Qed.

(** ** The store *)

Lemma docs_set_docs_eq s c ds : docs (set_docs s c ds) c = ds.
Proof. unfold docs, set_docs. cbn. now rewrite lookup_insert_eq. Qed.

Lemma docs_set_docs_ne s c c' ds : c' <> c -> docs (set_docs s c ds) c' = docs s c'.
Proof. intros H. unfold docs, set_docs. cbn. now rewrite lookup_insert_ne. Qed.

Lemma docs_bump_oid s c : docs (bump_oid s) c = docs s c.
Proof. reflexivity. Qed.

Lemma is_nil_false {A} (l : list A) : l <> nil -> is_nil l = false.
Proof. now destruct l. Qed.

Lemma doc_has_false k d : doc_has k d = false -> doc_get k d = None.
Proof. unfold doc_has. now destruct (doc_get k d). Qed.

Lemma updateOne_matched s c o body pre d post :
  online s = true -> plain_doc body = true -> body <> nil -> doc_has "_id" body = false ->
  split_first (has_id (KOid o)) (docs s c) = Some (pre, d, post) ->
  updateOne c o body s =
  Val ({| matchedCount := 1 |}, set_docs s c (pre ++ apply_set body d :: post)).
Proof.
  intros Hon Hp Hne Hid Hs. unfold updateOne.
  rewrite Hon, Hp, (is_nil_false _ Hne), Hs, (doc_has_false _ _ Hid). reflexivity.
Qed.


Lemma deleteOne_matched s c o pre d post :
  online s = true ->
  split_first (has_id (KOid o)) (docs s c) = Some (pre, d, post) ->
  deleteOne c o s = Val ({| deletedCount := 1 |}, set_docs s c (pre ++ post)).
Proof. intros Hon Hs. unfold deleteOne. now rewrite Hon, Hs. Qed.

Lemma deleteOne_unmatched s c o :
  online s = true ->
  split_first (has_id (KOid o)) (docs s c) = None ->
  deleteOne c o s = Val ({| deletedCount := 0 |}, s).
Proof. intros Hon Hs. unfold deleteOne. now rewrite Hon, Hs. Qed.

Lemma update_try_val s name id ps o q b r s' m p :
  ObjectId_new id = Val o -> updateOne name o b s = Val (r, s') ->
  update_try (Request m p q b)
             {| params := ("collectionName", name) :: ("id", id) :: ps;
                collection := Some name |} (put_store s)
  = Val (ok (if Nat.eqb (matchedCount r) 1 then msg "success" else msg "error"),
         put_store s').
Proof. intros Ho Hu. unfold update_try. cbn. rewrite Ho. cbn. now rewrite Hu. Qed.

Lemma delete_try_val s name id ps o r s' :
  ObjectId_new id = Val o -> deleteOne name o s = Val (r, s') ->
  delete_try {| params := ("collectionName", name) :: ("id", id) :: ps;
                collection := Some name |} (put_store s)
  = Val (ok (if Nat.eqb (deletedCount r) 1 then msg "success" else msg "error"),
         put_store s').
Proof. intros Ho Hu. unfold delete_try. cbn. rewrite Ho. cbn. now rewrite Hu. Qed.







(** ** Identifiers and their text form *)

Lemma hex_val_char d : (d < 16)%N -> hex_val (hex_char d) = Some d.
Proof.
  intros H.
  assert (E : (d = 0 \/ d = 1 \/ d = 2 \/ d = 3 \/ d = 4 \/ d = 5 \/ d = 6 \/ d = 7 \/
               d = 8 \/ d = 9 \/ d = 10 \/ d = 11 \/ d = 12 \/ d = 13 \/ d = 14 \/ d = 15)%N)
    by lia.
  repeat (destruct E as [-> | E]; [reflexivity|]). subst d. reflexivity.
Qed.

Lemma parse_to_hex w : forall n acc,
  parse_hex acc (to_hex w n) = Some (acc * 16 ^ N.of_nat w + n mod 16 ^ N.of_nat w)%N.
Proof.
  induction w as [|w IH]; intros n acc.
  - cbn [to_hex parse_hex N.of_nat]. f_equal. rewrite N.pow_0_r, N.mod_1_r. lia.
  - cbn [to_hex parse_hex].
    rewrite hex_val_char by (apply N.mod_lt; discriminate).
    rewrite IH. f_equal.
    rewrite Nnat.Nat2N.inj_succ, N.pow_succ_r'.
    rewrite (N.mul_comm 16 (16 ^ N.of_nat w)).
    rewrite (N.Div0.mod_mul_r n (16 ^ N.of_nat w) 16). lia.
Qed.

Lemma length_to_hex w n : String.length (to_hex w n) = w.
Proof. induction w as [|w IH]; cbn; [reflexivity | now rewrite IH]. Qed.

(** The text form of an identifier parses back to it. *)
Lemma ObjectId_text_roundtrip n :
  (n < oid_limit)%N -> ObjectId_new (toHexString (Oid n)) = Val (Oid n).
Proof.
  intros H. unfold ObjectId_new, toHexString.
  rewrite length_to_hex. cbn [Nat.eqb oid_val].
  rewrite parse_to_hex. change (16 ^ N.of_nat 24)%N with oid_limit.
  rewrite N.mod_small by assumption. reflexivity.
Qed.

Lemma has_id_own o d : has_id (KOid o) (("_id", VOid o) :: d) = true.
Proof.
  unfold has_id. rewrite doc_get_cons. cbn.
  unfold key_eqb. cbn. now rewrite N.compare_refl.
Qed.

Lemma existsb_false_forall {A} (p : A -> bool) l :
  existsb p l = false -> forall x, In x l -> p x = false.
Proof.
  intros H x Hx. destruct (p x) eqn:E; [|reflexivity].
  assert (existsb p l = true) by (apply existsb_exists; eauto). congruence.
Qed.

Lemma find_app_skip {A} (p : A -> bool) l l' :
  (forall x, In x l -> p x = false) -> List.find p (l ++ l') = List.find p l'.
Proof.
  induction l as [|a l IH]; intros H; [reflexivity|].
  cbn. rewrite (H a) by now left. apply IH. intros x Hx. apply H. now right.
Qed.

Lemma fresh_oid_spec s c :
  fresh_oid s c = true ->
  (next_oid s < oid_limit)%N /\
  existsb (has_id (KOid (Oid (next_oid s)))) (docs s c) = false.
Proof.
  unfold fresh_oid. intros H. apply andb_prop in H as [H1 H2].
  split; [now apply N.ltb_lt | now apply negb_true_iff].
Qed.

Lemma insertOne_generated s c doc :
  online s = true -> plain_doc doc = true -> doc_get "_id" doc = None ->
  fresh_oid s c = true ->
  insertOne c doc s =
  Val ({| acknowledged := true; insertedId := VOid (Oid (next_oid s)) |},
       bump_oid (set_docs s c (docs s c ++ (("_id", VOid (Oid (next_oid s))) :: doc) :: nil))).
Proof.
  intros Hon Hp Hid Hf. apply fresh_oid_spec in Hf as [Hlt Hex].
  unfold insertOne. rewrite Hon, Hp, Hid. cbn [negb].
  rewrite Hex. apply N.leb_gt in Hlt. now rewrite Hlt.
Qed.

Lemma insert_try_val s name ps m p q b r s' :
  insertOne name b s = Val (r, s') ->
  insert_try (Request m p q b)
             {| params := ("collectionName", name) :: ps; collection := Some name |}
             (put_store s)
  = Val (ok (json_insert r), put_store s').
Proof. intros H. unfold insert_try. cbn. now rewrite H. Qed.

Lemma insert_try_throw s name ps m p q b e :
  insertOne name b s = Throw e ->
  insert_try (Request m p q b)
             {| params := ("collectionName", name) :: ps; collection := Some name |}
             (put_store s)
  = Throw e.
Proof. intros H. unfold insert_try. cbn. now rewrite H. Qed.

Lemma insert_try_out s name ps m p q b :
  insertOne name b s = OutOfModel ->
  insert_try (Request m p q b)
             {| params := ("collectionName", name) :: ps; collection := Some name |}
             (put_store s)
  = OutOfModel.
Proof. intros H. unfold insert_try. cbn. now rewrite H. Qed.

(** C10, as amended. On a connected store, inserting a document of plain
    fields that carries no [_id] with [POST /collections/{name}] answers the
    generated identifier (one the collection does not have yet), and
    [GET /collections/{name}/{id}] with the text of that identifier answers
    a document that is the inserted one once its [_id] is set aside. *)
Theorem insert_then_get_by_id (s : store) (name : string) (body : document)
    (q q' : option string) (b' : document) :
  online s = true -> collection_name_ok name = true ->
  plain_doc body = true -> doc_get "_id" body = None -> fresh_oid s name = true ->
  exists out1 i,
    handle app (put_store s) (Request POST ("collections" :: name :: nil) q body) = Some out1 /\
    out_response out1 = ok (json_insert {| acknowledged := true; insertedId := VOid i |}) /\
    exists out2 d,
      handle app (out_state out1)
             (Request GET ("collections" :: name :: toHexString i :: nil) q' b') = Some out2 /\
      out_response out2 = ok (VObj d) /\
      doc_get "_id" d = Some (VOid i) /\
      doc_remove "_id" d = body /\
      (forall f, f <> "_id" -> doc_get f d = doc_get f body).
Proof.
  intros Hon Hn Hp Hid Hf.
  pose proof (insertOne_generated s name body Hon Hp Hid Hf) as Hins.
  apply fresh_oid_spec in Hf as [Hlt Hex].
  set (i := Oid (next_oid s)) in *.
  set (d := ("_id", VOid i) :: body).
  set (s' := bump_oid (set_docs s name (docs s name ++ d :: nil))) in *.
  eexists _, i. split.
  { rewrite route_insert by assumption.
    rewrite (insert_try_val s name nil _ _ q body _ _ Hins). reflexivity. }
  split; [reflexivity|]. cbn [out_state].
  pose proof (ObjectId_text_roundtrip _ Hlt) as Hrt. fold i in Hrt.
  assert (Hfind : List.find (has_id (KOid i)) (docs s' name) = Some d).
  { unfold s'. rewrite docs_bump_oid, docs_set_docs_eq.
    rewrite find_app_skip by (now apply existsb_false_forall).
    cbn. unfold d. now rewrite has_id_own. }
  eexists _, d. split.
  { rewrite (route_getById _ s') by
      (reflexivity || assumption || exact (ObjectId_new_nonempty _ _ Hrt)).
    rewrite (getById_try_found s' name _ nil i d) by (assumption || reflexivity).
    reflexivity. }
  split; [reflexivity|]. unfold d. split; [|split].
  - rewrite doc_get_cons. reflexivity.
  - unfold doc_remove. cbn. fold (doc_remove "_id" body). now apply doc_remove_absent.
  - intros f Hne. rewrite doc_get_cons.
    destruct (String.eqb "_id" f) eqn:E; [|reflexivity].
    apply String.eqb_eq in E. congruence.
Qed.

Lemma insert_then_get_by_id_witness :
  let body : document := ("subject", VStr "Dance") :: ("price", VNum (Fin 10)) :: nil in
  online store5 = true /\ plain_doc body = true /\ fresh_oid store5 "lessons" = true /\
  exists out1 i,
    handle app (put_store store5) (Request POST ("collections" :: "lessons" :: nil) None body)
      = Some out1 /\
    out_response out1 = ok (json_insert {| acknowledged := true; insertedId := VOid i |}) /\
    exists out2 d,
      handle app (out_state out1)
             (Request GET ("collections" :: "lessons" :: toHexString i :: nil) None nil)
        = Some out2 /\
      out_response out2 = ok (VObj d) /\
      doc_remove "_id" d = body.
Proof.
  cbv zeta. split; [reflexivity|]. split; [reflexivity|]. split; [reflexivity|].
  destruct (insert_then_get_by_id store5 "lessons"
              (("subject", VStr "Dance") :: ("price", VNum (Fin 10)) :: nil)
              None None nil eq_refl eq_refl eq_refl eq_refl eq_refl)
    as (out1 & i & H1 & Hr1 & out2 & d & H2 & Hr2 & _ & Hrm & _).
  exists out1, i. split; [exact H1|]. split; [exact Hr1|].
  exists out2, d. repeat split; assumption.
Defined.

(** C10, the claim as stated fails: not every body comes back. A body that
    brings its own [_id] is stored under it, and the insert answers it; but
    the route by id makes an [ObjectId] of the text in the path. With the
    [_id] ["abc"] the text is no identifier and [GET] answers status 500;
    with an [_id] of 24 hexadecimal digits, a string all the same, [GET]
    looks for the [ObjectId] of that text, finds none and answers 404. *)
Lemma a_body_with_its_own_id_does_not_come_back :
  let judo (i : string) : document := ("_id", VStr i) :: ("subject", VStr "Judo") :: nil in
  let hex := "000000000000000000000009" in
  (exists out1 out2,
     handle app (put_store store5) (Request POST ("collections" :: "lessons" :: nil) None (judo "abc"))
       = Some out1 /\
     out_response out1 = ok (json_insert {| acknowledged := true; insertedId := VStr "abc" |}) /\
     handle app (out_state out1) (Request GET ("collections" :: "lessons" :: "abc" :: nil) None nil)
       = Some out2 /\
     out_response out2 = {| status := 500; content := ErrorPage (Err_BSON_id "abc") |}) /\
  (exists out1 out2 s1,
     handle app (put_store store5) (Request POST ("collections" :: "lessons" :: nil) None (judo hex))
       = Some out1 /\
     out_response out1 = ok (json_insert {| acknowledged := true; insertedId := VStr hex |}) /\
     out_state out1 = put_store s1 /\
     In (judo hex) (docs s1 "lessons") /\
     handle app (out_state out1) (Request GET ("collections" :: "lessons" :: hex :: nil) None nil)
       = Some out2 /\
     out_response out2 = {| status := 404; content := Json (msg "Document not found") |}).
Proof.
  cbv zeta. split.
  - eexists _, _. split; [vm_compute; reflexivity|]. split; [reflexivity|].
    split; [vm_compute; reflexivity|]. reflexivity.
  - eexists _, _, _. split; [vm_compute; reflexivity|]. split; [reflexivity|].
    split; [reflexivity|]. split; [vm_compute; tauto|].
    split; [vm_compute; reflexivity|]. reflexivity.
Qed.

(** ** Errors on their way through the stack *)












Lemma search_try_no_db q b regex :
  RegExp_new (default "" q) = Val regex ->
  search_try (Request GET ("search" :: nil) q b) {| db := None |} = Throw Err_TypeError_db.
Proof. intros H. unfold search_try, search_selector. cbn. rewrite H. reflexivity. Qed.





(** ** Requests before the store is connected *)

(** C4, on the code. With [db] undefined, [GET /search] does not fail with
    the "Database not initialized" condition: the handler has no guard, it
    dereferences the undefined [db], and what the client gets is status 500
    with the engine's TypeError text as [error]. This holds for every [q]
    the constructor takes, [q=math] among them. The parameter callback, a few
    lines above, has the guard: every request for a route with the
    collection-name parameter is refused with "Database not initialized"
    before any handler runs. The order handler has no guard either: had it
    run on a complete order, it would have dereferenced [db] too and answered
    its fixed 500. *)
Theorem search_without_db_dereferences_the_handle :
  let unguarded :=
    {| status := 500;
       content := Json (VObj (("error", VStr (message Err_TypeError_db)) :: nil)) |} in
  (forall q b regex,
     RegExp_new (default "" q) = Val regex ->
     search_try (Request GET ("search" :: nil) q b) {| db := None |} = Throw Err_TypeError_db /\
     handle app {| db := None |} (Request GET ("search" :: nil) q b) =
       Some {| out_response := unguarded; out_state := {| db := None |};
               out_trace := (mw_trace ++ H_search :: nil)%list; out_unhandled := None |}) /\
  (exists out,
     handle app {| db := None |} (Request GET ("search" :: nil) (Some "math") nil) = Some out /\
     out_response out = unguarded) /\
  message Err_TypeError_db <> "Database not initialized" /\
  message Err_DbNotInitialized = "Database not initialized" /\
  (forall m name rest q b,
     collection_route m (name :: rest) = true ->
     exists out,
       handle app {| db := None |} (Request m ("collections" :: name :: rest) q b) = Some out /\
       out_unhandled out = Some Err_DbNotInitialized /\
       out_response out = {| status := 500; content := ErrorPage Err_DbNotInitialized |} /\
       out_trace out = (mw_trace ++ H_param_collectionName :: nil)%list) /\
  order_handler (Request POST ("collections" :: "orders" :: nil) None full_order) {| db := None |} =
    Some (Send {| status := 500;
                  content := Json (msg "An error occurred while processing your order. Please try again.") |},
          {| db := None |}).
Proof.
  cbv zeta.
  assert (Hsearch : forall q b regex,
     RegExp_new (default "" q) = Val regex ->
     search_try (Request GET ("search" :: nil) q b) {| db := None |} = Throw Err_TypeError_db /\
     handle app {| db := None |} (Request GET ("search" :: nil) q b) =
       Some {| out_response :=
                 {| status := 500;
                    content := Json (VObj (("error", VStr (message Err_TypeError_db)) :: nil)) |};
               out_state := {| db := None |};
               out_trace := (mw_trace ++ H_search :: nil)%list; out_unhandled := None |}).
  { intros q b regex H. pose proof (search_try_no_db q b regex H) as Ht.
    split; [exact Ht|]. rewrite route_search, Ht. reflexivity. }
  split; [exact Hsearch|]. split.
  { eexists. split.
    - exact (proj2 (Hsearch (Some "math") nil {| rx_anchored := false; rx_text := "math" |}
                      eq_refl)).
    - reflexivity. }
  split; [cbn [message]; discriminate|]. split; [reflexivity|]. split.
  - intros m name rest q b Hc. eexists. split; [now apply route_no_db|]. repeat split.
  - vm_compute. reflexivity.
Qed.

(** ** The order route *)

Lemma orders_name_ok : collection_name_ok "orders" = true.
Proof. reflexivity. Qed.

(** C2. [POST /collections/orders] is taken by the generic insert route,
    registered first: the parameter callback and then the insert handler run,
    the body goes to [insertOne] on the [orders] collection as it is, and what
    the request ends in is decided by that call alone. The order handler never
    runs, so no answer is 400 or 201 and no field is checked. *)
Theorem orders_post_is_taken_by_the_generic_insert (st : server) (q : option string)
    (b : document) :
  let rq := Request POST ("collections" :: "orders" :: nil) q b in
  handle app st rq =
    match db st with
    | None =>
        Some {| out_response := {| status := 500; content := ErrorPage Err_DbNotInitialized |};
                out_state := st;
                out_trace := mw_trace ++ H_param_collectionName :: nil;
                out_unhandled := Some Err_DbNotInitialized |}
    | Some s =>
        match insertOne "orders" b s with
        | Val (r, s') =>
            Some {| out_response := ok (json_insert r); out_state := put_store s';
                    out_trace := mw_trace ++ H_param_collectionName :: H_insert :: nil;
                    out_unhandled := None |}
        | Throw e =>
            Some {| out_response := {| status := 500; content := ErrorPage e |};
                    out_state := st;
                    out_trace := mw_trace ++ H_param_collectionName :: H_insert :: nil;
                    out_unhandled := Some e |}
        | OutOfModel => None
        end
    end /\
  (forall out, handle app st rq = Some out ->
     ~ In H_order (out_trace out) /\
     status (out_response out) <> 400%nat /\ status (out_response out) <> 201%nat) /\
  (forall s, db st = Some s ->
     online s = true -> plain_doc b = true -> doc_get "_id" b = None ->
     fresh_oid s "orders" = true ->
     exists out,
       handle app st rq = Some out /\
       out_response out =
         ok (json_insert {| acknowledged := true; insertedId := VOid (Oid (next_oid s)) |}) /\
       exists s', out_state out = put_store s' /\
         docs s' "orders" =
           (docs s "orders" ++ (("_id", VOid (Oid (next_oid s))) :: b) :: nil)%list).
Proof.
  intros rq.
  assert (Heq : handle app st rq =
    match db st with
    | None =>
        Some {| out_response := {| status := 500; content := ErrorPage Err_DbNotInitialized |};
                out_state := st;
                out_trace := mw_trace ++ H_param_collectionName :: nil;
                out_unhandled := Some Err_DbNotInitialized |}
    | Some s =>
        match insertOne "orders" b s with
        | Val (r, s') =>
            Some {| out_response := ok (json_insert r); out_state := put_store s';
                    out_trace := mw_trace ++ H_param_collectionName :: H_insert :: nil;
                    out_unhandled := None |}
        | Throw e =>
            Some {| out_response := {| status := 500; content := ErrorPage e |};
                    out_state := st;
                    out_trace := mw_trace ++ H_param_collectionName :: H_insert :: nil;
                    out_unhandled := Some e |}
        | OutOfModel => None
        end
    end).
  { subst rq. destruct st as [[s|]]; cbn [db].
    - change {| db := Some s |} with (put_store s).
      rewrite route_insert by apply orders_name_ok.
      destruct (insertOne "orders" b s) as [[r s']|e|] eqn:Hins.
      + now rewrite (insert_try_val s "orders" nil _ _ q b r s' Hins).
      + now rewrite (insert_try_throw s "orders" nil _ _ q b e Hins).
      + now rewrite (insert_try_out s "orders" nil _ _ q b Hins).
    - now rewrite (route_no_db POST "orders" nil q b eq_refl). }
  split; [exact Heq|]. split.
  - intros out H. rewrite Heq in H.
    destruct (db st) as [s|].
    + destruct (insertOne "orders" b s) as [[r s']|e|]; try discriminate H;
        injection H as <-; cbn; (split; [|split; discriminate]);
        intros Hin; repeat (destruct Hin as [Hin|Hin]; [discriminate Hin|]); exact Hin.
    + injection H as <-; cbn; (split; [|split; discriminate]).
      intros Hin; repeat (destruct Hin as [Hin|Hin]; [discriminate Hin|]); exact Hin.
  - intros s Hdb Hon Hp Hid Hf. rewrite Heq, Hdb.
    rewrite (insertOne_generated s "orders" b Hon Hp Hid Hf).
    eexists. split; [reflexivity|]. split; [reflexivity|].
    eexists. split; [reflexivity|].
    now rewrite docs_bump_oid, docs_set_docs_eq.
Qed.

Lemma orders_post_witness :
  exists out,
    handle app (put_store empty_store)
           (Request POST ("collections" :: "orders" :: nil) None short_order) = Some out /\
    out_response out = ok (json_insert {| acknowledged := true; insertedId := VOid (Oid 0) |}) /\
    exists s', out_state out = put_store s' /\
      docs s' "orders" = (("_id", VOid (Oid 0)) :: short_order) :: nil.
Proof.
  destruct (orders_post_is_taken_by_the_generic_insert (put_store empty_store) None short_order)
    as (_ & _ & H).
  exact (H empty_store eq_refl eq_refl eq_refl eq_refl eq_refl).
Defined.

(** C1, on the code: the specification's order without address and phone, sent
    to a connected store, is answered 200 with the insert acknowledgement and
    is stored; the complete order is answered 200 as well, not 201. The order
    handler of [app.js], had it run, would have accepted the short order with
    201; the one of the first sibling revision rejects it with 400 and
    answers the complete order with 201. *)
Theorem orders_post_skips_the_order_validation :
  let post b := Request POST ("collections" :: "orders" :: nil) None b in
  let st := put_store empty_store in
  (exists out,
     handle app st (post short_order) = Some out /\
     out_response out = ok (json_insert {| acknowledged := true; insertedId := VOid (Oid 0) |}) /\
     status (out_response out) = 200%nat /\
     (exists s', out_state out = put_store s' /\
        docs s' "orders" = (("_id", VOid (Oid 0)) :: short_order) :: nil) /\
     out_trace out = (mw_trace ++ H_param_collectionName :: H_insert :: nil)%list) /\
  (exists out,
     handle app st (post full_order) = Some out /\
     status (out_response out) = 200%nat /\
     out_response out = ok (json_insert {| acknowledged := true; insertedId := VOid (Oid 0) |})) /\
  (exists out,
     handle app_000 st (post short_order) = Some out /\
     status (out_response out) = 200%nat /\
     out_trace out = (mw_trace ++ H_param_collectionName :: H_insert :: nil)%list) /\
  (exists r st', order_try (post short_order) st = Val (r, st') /\ status r = 201%nat) /\
  (exists r st', order_try_000 (post short_order) st = Val (r, st') /\ status r = 400%nat) /\
  (exists r st', order_try_000 (post full_order) st = Val (r, st') /\ status r = 201%nat).
Proof.
  cbv zeta. repeat apply conj.
  - eexists. split; [vm_compute; reflexivity|]. repeat split.
    eexists. split; [reflexivity|]. vm_compute. reflexivity.
  - eexists. split; [vm_compute; reflexivity|]. split; reflexivity.
  - eexists. split; [vm_compute; reflexivity|]. split; reflexivity.
  - eexists _, _. split; [vm_compute; reflexivity|]. reflexivity.
  - eexists _, _. split; [vm_compute; reflexivity|]. reflexivity.
  - eexists _, _. split; [vm_compute; reflexivity|]. reflexivity.
Qed.

(** ** Search *)



Lemma search_selector_shape q regex :
  RegExp_new (default "" q) = Val regex ->
  search_selector q =
  Val (if String.eqb (default "" q) "" then SAll
       else SOr (CRegex "subject" regex :: CRegex "description" regex
                 :: CRegex "location" regex
                 :: match parseFloat (default "" q) with
                    | Some n => CNum "price" n :: CNum "availablespaces" n :: nil
                    | None => nil
                    end)).
Proof.
  intros H. unfold search_selector. rewrite H. cbn. f_equal.
  unfold search_conditions.
  destruct (String.eqb (default "" q) "") eqn:E.
  - apply String.eqb_eq in E. rewrite E. reflexivity.
  - reflexivity.
Qed.




Lemma filter_all {A} (l : list A) : List.filter (fun _ => true) l = l.
Proof. induction l as [|a l IH]; [reflexivity|]. cbn. now rewrite IH. Qed.




(** ** Sorting *)

Section InsertionSort.
Context {A : Type} (leb : A -> A -> bool).
Hypothesis leb_total : forall a b, leb a b = true \/ leb b a = true.







End InsertionSort.


(** ** The order on keys *)

Lemma num_compare_antisym a b : num_compare a b = CompOpp (num_compare b a).
Proof.
  destruct a as [x| |], b as [y| |]; try reflexivity.
  cbn. now rewrite <- Qcompare_antisym.
Qed.

Lemma key_compare_antisym a b : key_compare a b = CompOpp (key_compare b a).
Proof.
  destruct a, b; try reflexivity; cbn.
  - apply num_compare_antisym.
  - apply String.compare_antisym.
  - apply N.compare_antisym.
  - now destruct b0, b.
Qed.













(** ** The generator stays ahead of the identifiers in the store *)

Lemma has_id_oid n d :
  has_id (KOid (Oid n)) d = true -> doc_get "_id" d = Some (VOid (Oid n)).
Proof.
  unfold has_id. destruct (doc_get "_id" d) as [[| | | | | |[m]]|]; try discriminate.
  cbn. unfold key_eqb. cbn. destruct (N.compare n m) eqn:E; try discriminate.
  apply N.compare_eq in E. now subst.
Qed.

Lemma store_ok_fresh s c :
  store_ok s -> (next_oid s < oid_limit)%N -> fresh_oid s c = true.
Proof.
  intros Hok Hlt. unfold fresh_oid. apply andb_true_intro. split; [now apply N.ltb_lt|].
  apply negb_true_iff. destruct (existsb _ _) eqn:E; [|reflexivity].
  apply existsb_exists in E as (d & Hin & Hid). apply has_id_oid in Hid.
  specialize (Hok c d _ Hin Hid). cbn in Hok. lia.
Qed.

Lemma store_ok_empty : store_ok empty_store.
Proof. intros c d o Hin. unfold docs in Hin. cbn in Hin. rewrite lookup_empty in Hin. destruct Hin. Qed.

Lemma docs_set_docs s c c' ds :
  docs (set_docs s c ds) c' = if String.eqb c c' then ds else docs s c'.
Proof.
  destruct (String.eqb c c') eqn:E.
  - apply String.eqb_eq in E. subst. apply docs_set_docs_eq.
  - apply String.eqb_neq in E. now apply docs_set_docs_ne.
Qed.

(** An insert that generates the identifier keeps the invariant. *)
Lemma insertOne_keeps_store_ok s c doc r s' :
  store_ok s -> doc_get "_id" doc = None ->
  insertOne c doc s = Val (r, s') -> store_ok s'.
Proof.
  intros Hok Hid H. unfold insertOne in H.
  destruct (negb (online s)); [discriminate|].
  destruct (negb (plain_doc doc)); [discriminate|].
  rewrite Hid in H. destruct (_ || _); [discriminate|]. injection H as _ <-.
  intros c' d o Hin Hd. rewrite docs_bump_oid, docs_set_docs in Hin. cbn [next_oid bump_oid set_docs].
  destruct (String.eqb c c').
  - apply in_app_or in Hin as [Hin|[<-|[]]].
    + specialize (Hok c d o Hin Hd). lia.
    + rewrite doc_get_cons in Hd. cbn in Hd. injection Hd as <-. cbn. lia.
  - specialize (Hok c' d o Hin Hd). lia.
Qed.

(** A delete keeps it too. *)
Lemma deleteOne_keeps_store_ok s c o r s' :
  store_ok s -> deleteOne c o s = Val (r, s') -> store_ok s'.
Proof.
  intros Hok H. unfold deleteOne in H.
  destruct (negb (online s)); [discriminate|].
  destruct (split_first _ _) as [[[pre x] post]|] eqn:Hs.
  - injection H as _ <-. apply split_first_some in Hs as (Hl & _ & _).
    intros c' d o' Hin Hd. rewrite docs_set_docs in Hin. cbn [next_oid set_docs].
    destruct (String.eqb c c') eqn:E.
    + apply String.eqb_eq in E. subst c'. apply (Hok c d o'); [|assumption].
      rewrite Hl. apply in_app_or in Hin as [Hin|Hin]; apply in_or_app; [now left|].
      right. now right.
    + now apply (Hok c' d o').
  - injection H as _ <-. assumption.
Qed.

(** ** Start-up *)

(** When the connection fails at start-up, [db] stays undefined. *)
Lemma connectToDatabase_failed mongo :
  online mongo = false -> connectToDatabase mongo {| db := None |} = {| db := None |}.
Proof. intros H. unfold connectToDatabase. now rewrite H. Qed.

Lemma connectToDatabase_ok mongo st :
  online mongo = true -> connectToDatabase mongo st = put_store mongo.
Proof. intros H. unfold connectToDatabase. now rewrite H. Qed.

(** ** The sibling revisions *)

(** The search of the second sibling revision puts the expression on the two
    numeric fields as well, where it matches nothing: [q=20] finds the lesson
    in "Room 20" only, while [app.js] also finds the lessons whose price or
    available spaces are 20. *)
Lemma search_001_misses_the_numbers :
  out_response <$> handle app_001 (put_store store5)
                     (Request GET ("search" :: nil) (Some "20") nil)
  = Some (ok (json_docs (lesson 1 "English" "Room 20" 80 5 :: nil))) /\
  out_response <$> handle app (put_store store5)
                     (Request GET ("search" :: nil) (Some "20") nil)
  = Some (ok (json_docs (lesson 1 "English" "Room 20" 80 5 :: lesson 2 "Music" "Bristol" 90 20
                         :: lesson 3 "Art" "Oxford" 20 4 :: nil))).
Proof. split; vm_compute; reflexivity. Qed.

(** Had the four-argument middleware of the second sibling revision been
    registered before the fallback, a forwarded error would have been answered
    by it, 404 with the error's message. *)
Lemma error_middleware_would_answer e rq cx st tr :
  dispatch (UseError H_errorReport :: Use H_notFound :: nil) (Some e) rq cx st tr =
  Some {| out_response :=
            {| status := 404;
               content := Json (VObj (("error",
                 VStr (if String.eqb (message e) "" then "An error occurred" else message e))
                 :: nil)) |};
          out_state := st; out_trace := (tr ++ H_errorReport :: nil)%list;
          out_unhandled := None |}.
Proof. reflexivity. Qed.

(** The order route is shadowed in the first sibling revision as well. *)
Lemma orders_post_in_app_000 s q b :
  handle app_000 (put_store s) (Request POST ("collections" :: "orders" :: nil) q b) =
  finish (put_store s)
         (insert_try (Request POST ("collections" :: "orders" :: nil) q b)
                     {| params := ("collectionName", "orders") :: nil;
                        collection := Some "orders" |}
                     (put_store s))
         (mw_trace ++ H_param_collectionName :: H_insert :: nil).
Proof.
  unfold handle, app_000, middlewares. route_eval.
  unfold param_collectionName. cbn. rewrite orders_name_ok. cbn.
  unfold insert_handler.
  destruct (insert_try _ _ _) as [[r st']|e|]; cbn; reflexivity.
Qed.

(** * Further properties *)

(** ** What a handler does to the state *)

Lemma try_catch_cases st m h a st' :
  try_catch st m h = Some (a, st') ->
  (exists r, m = Val (r, st') /\ a = Send r) \/ (exists e, m = Throw e /\ a = h e /\ st' = st).
Proof.
  unfold try_catch. destruct m as [[r st'']|e|]; [| |discriminate].
  - intros [= <- <-]. left. eauto.
  - intros [= <- <-]. right. eauto.
Qed.

Lemma bind_val {A B} (m : res A) (k : A -> res B) b :
  (x ← m; k x) = Val b -> exists a, m = Val a /\ k a = Val b.
Proof. destruct m as [a|e|]; cbn; [eauto|discriminate|discriminate]. Qed.

Lemma req_collection_val {A} cx st (op : string -> store -> res A) a :
  req_collection cx st op = Val a ->
  exists c s, collection cx = Some c /\ db st = Some s /\ op c s = Val a.
Proof.
  unfold req_collection. destruct (collection cx) as [c|]; [|discriminate].
  destruct (db st) as [s|]; [|discriminate]. eauto.
Qed.

Lemma db_collection_val {A} st (op : store -> res A) a :
  db_collection st op = Val a -> exists s, db st = Some s /\ op s = Val a.
Proof. unfold db_collection. destruct (db st) as [s|]; [eauto|discriminate]. Qed.

(** A handler leaves the state alone, or it has made one write, the store
    took it, and the handler answers 200 or 201. *)
Lemma run_handler_effect h rq cx st a st' :
  run_handler h rq cx st = Some (a, st') ->
  st' = st \/
  exists s s' resp,
    db st = Some s /\ st' = put_store s' /\ write rq s s' h /\
    a = Send resp /\ (status resp = 200%nat \/ status resp = 201%nat).
Proof.
  destruct h; cbn [run_handler]; intros H;
    try (injection H as _ <-; now left).
  - (* list *)
    apply try_catch_cases in H as [(r & Hm & ->)|(e & _ & _ & ->)]; [|now left].
    unfold list_try in Hm. apply bind_val in Hm as (ds & _ & Hm).
    cbn in Hm. injection Hm as _ <-. now left.
  - (* get by id *)
    apply try_catch_cases in H as [(r & Hm & ->)|(e & _ & _ & ->)]; [|now left].
    unfold getById_try in Hm. apply bind_val in Hm as (o & _ & Hm).
    apply bind_val in Hm as (d & _ & Hm).
    destruct d; cbn in Hm; injection Hm as _ <-; now left.
  - (* insert *)
    apply try_catch_cases in H as [(r & Hm & ->)|(e & _ & _ & ->)]; [|now left].
    unfold insert_try in Hm. apply bind_val in Hm as ([res s'] & Hop & Hm).
    cbn in Hm. injection Hm as <- <-.
    apply req_collection_val in Hop as (c & s & _ & Hdb & Hop).
    right. exists s, s'. eexists. repeat split; eauto using write.
  - (* delete *)
    apply try_catch_cases in H as [(r & Hm & ->)|(e & _ & _ & ->)]; [|now left].
    unfold delete_try in Hm. apply bind_val in Hm as (o & _ & Hm).
    apply bind_val in Hm as ([res s'] & Hop & Hm).
    cbn in Hm. injection Hm as <- <-.
    apply req_collection_val in Hop as (c & s & _ & Hdb & Hop).
    right. exists s, s'. eexists. repeat split; eauto using write.
  - (* update *)
    apply try_catch_cases in H as [(r & Hm & ->)|(e & _ & _ & ->)]; [|now left].
    unfold update_try in Hm. apply bind_val in Hm as (o & _ & Hm).
    apply bind_val in Hm as ([res s'] & Hop & Hm).
    cbn in Hm. injection Hm as <- <-.
    apply req_collection_val in Hop as (c & s & _ & Hdb & Hop).
    right. exists s, s'. eexists. repeat split; eauto using write.
  - (* order, app.js *)
    apply try_catch_cases in H as [(r & Hm & ->)|(e & _ & _ & ->)]; [|now left].
    unfold order_try in Hm. destruct (_ || _) in Hm.
    + cbn in Hm. injection Hm as _ <-. now left.
    + apply bind_val in Hm as ([res s'] & Hop & Hm).
      cbn in Hm. injection Hm as <- <-.
      apply db_collection_val in Hop as (s & Hdb & Hop).
      right. exists s, s'. eexists. repeat split; eauto using write.
  - (* order, first sibling *)
    apply try_catch_cases in H as [(r & Hm & ->)|(e & _ & _ & ->)]; [|now left].
    unfold order_try_000 in Hm. destruct (_ || _) in Hm.
    + cbn in Hm. injection Hm as _ <-. now left.
    + apply bind_val in Hm as ([res s'] & Hop & Hm).
      cbn in Hm. injection Hm as <- <-.
      apply db_collection_val in Hop as (s & Hdb & Hop).
      right. exists s, s'. eexists. repeat split; eauto using write.
  - (* sorted *)
    unfold sorted_handler in H.
    destruct (parseInt _); [|discriminate].
    destruct (negb _); [discriminate|].
    destruct (req_collection _ _ _); [| |discriminate];
      destruct (calls_back st); try discriminate H; injection H as _ <-; now left.
  - (* search *)
    apply try_catch_cases in H as [(r & Hm & ->)|(e & _ & _ & ->)]; [|now left].
    unfold search_try in Hm. apply bind_val in Hm as (sel & _ & Hm).
    apply bind_val in Hm as (ds & _ & Hm). cbn in Hm. injection Hm as _ <-. now left.
  - (* search, second sibling *)
    apply try_catch_cases in H as [(r & Hm & ->)|(e & _ & _ & ->)]; [|now left].
    unfold search_try_001 in Hm. apply bind_val in Hm as (sel & _ & Hm).
    apply bind_val in Hm as (ds & _ & Hm). cbn in Hm. injection Hm as _ <-. now left.
Qed.

Lemma run_error_handler_state h e st a st' :
  run_error_handler h e st = Some (a, st') -> st' = st.
Proof. destruct h; cbn; intros [= _ <-]; reflexivity. Qed.

Lemma after_cases r cx tr :
  match after r cx tr with
  | Done o =>
      exists resp, r = Some (Send resp, out_state o) /\ out_response o = resp /\
        out_unhandled o = None /\ out_trace o = tr
  | Go err' cx' st' tr' =>
      cx' = cx /\ tr' = tr /\
      (r = Some (Next, st') /\ err' = None \/ exists e, r = Some (NextErr e, st') /\ err' = Some e)
  | Stuck => r = None
  end.
Proof.
  unfold after. destruct r as [[[resp| |e] st']|]; cbn; eauto 10.
Qed.

(** One layer: it answers with what its handler sent, or passes the request
    on with the state its handler left. *)
Lemma step_cases l err rq cx st tr :
  match step l err rq cx st tr with
  | Done o =>
      out_unhandled o = None /\
      ((exists h cx0, runs l rq h /\
          run_handler h rq cx0 st = Some (Send (out_response o), out_state o)) \/
       out_state o = st)
  | Go err' cx' st' tr' =>
      st' = st \/
      exists h cx0 a, runs l rq h /\ run_handler h rq cx0 st = Some (a, st') /\
        forall resp, a <> Send resp
  | Stuck => True
  end.
Proof.
  assert (Hafter : forall h cx0 tr0, runs l rq h ->
    match after (run_handler h rq cx0 st) cx0 tr0 with
    | Done o =>
        out_unhandled o = None /\
        ((exists h cx0, runs l rq h /\
            run_handler h rq cx0 st = Some (Send (out_response o), out_state o)) \/
         out_state o = st)
    | Go err' cx' st' tr' =>
        st' = st \/
        exists h cx0 a, runs l rq h /\ run_handler h rq cx0 st = Some (a, st') /\
          forall resp, a <> Send resp
    | Stuck => True
    end).
  { intros h cx0 tr0 Hr. pose proof (after_cases (run_handler h rq cx0 st) cx0 tr0) as Ha.
    destruct (after _ _ _) as [o|err' cx' st' tr'|]; [| |exact I].
    - destruct Ha as (resp & Hrun & <- & Hu & _). split; [exact Hu|]. left. eauto.
    - destruct Ha as (_ & _ & [[Hrun _]|(e & Hrun & _)]); right;
        exists h, cx0; eexists; (split; [exact Hr|]); (split; [exact Hrun|]); discriminate. }
  unfold step. destruct err as [e|], l as [h|h|m pat h]; try (now left).
  - pose proof (after_cases (run_error_handler h e st) cx (tr ++ h :: nil)) as Ha.
    destruct (after _ _ _) as [o|err' cx' st' tr'|]; [| |exact I].
    + destruct Ha as (resp & Hrun & _ & Hu & _). split; [exact Hu|]. right.
      now apply run_error_handler_state in Hrun.
    + left. destruct Ha as (_ & _ & [[Hrun _]|(e' & Hrun & _)]);
        now apply run_error_handler_state in Hrun.
  - apply Hafter. reflexivity.
  - destruct (negb (method_eqb m (req_method rq))) eqn:Hm; [now left|].
    apply negb_false_iff in Hm.
    destruct (match_path pat (req_path rq)) as [ps|]; [|now left].
    assert (Hr : runs (Route m pat h) rq h) by (split; [reflexivity | exact Hm]).
    destruct (has_par "collectionName" pat).
    + destruct (param_collectionName _ _ st) as [[[r| |e] cx2]|]; try exact I.
      * now apply Hafter.
      * now apply Hafter.
      * now left.
    + now apply Hafter.
Qed.

(** Through a whole stack: the state at the end is the one at the start, or
    one layer's handler has written once to the store and answered 200 or
    201. *)
Lemma dispatch_effect stack : forall err rq cx st tr out,
  dispatch stack err rq cx st tr = Some out ->
  out_state out = st \/
  exists l h s s',
    In l stack /\ runs l rq h /\
    db st = Some s /\ out_state out = put_store s' /\ write rq s s' h /\
    (status (out_response out) = 200%nat \/ status (out_response out) = 201%nat) /\
    out_unhandled out = None.
Proof.
  induction stack as [|l rest IH]; intros err rq cx st tr out H.
  - cbn in H. injection H as <-. now left.
  - cbn in H. pose proof (step_cases l err rq cx st tr) as Hs.
    destruct (step l err rq cx st tr) as [o|err' cx' st' tr'|]; [| |discriminate].
    + injection H as <-. destruct Hs as [Hu [(h & cx0 & Hr & Hrun)|Hst]]; [|now left].
      apply run_handler_effect in Hrun as [Hst|(s & s' & resp & Hdb & Hst & Hw & [= <-] & Hstatus)];
        [now left|].
      right. exists l, h, s, s'. repeat split; try assumption. now left.
    + assert (Hst : st' = st).
      { destruct Hs as [Hst|(h & cx0 & a & Hr & Hrun & Hns)]; [exact Hst|].
        apply run_handler_effect in Hrun as [Hst|(s & s' & resp & _ & _ & _ & -> & _)];
          [exact Hst|]. now destruct (Hns resp). }
      subst st'. destruct (IH _ _ _ _ _ _ H) as [Hst|(l' & h & s & s' & Hin & Hrest)];
        [now left|].
      right. exists l', h, s, s'. split; [now right | exact Hrest].
Qed.

(** ** What a write does to the store *)

Lemma insertOne_val c doc s r s' :
  insertOne c doc s = Val (r, s') ->
  online s = true /\ plain_doc doc = true /\
  ((exists fields,
      (doc_get "_id" doc = None /\ fields = doc \/
       doc_get "_id" doc = Some VNull /\ fields = doc_remove "_id" doc) /\
      fresh_oid s c = true /\
      r = {| acknowledged := true; insertedId := VOid (Oid (next_oid s)) |} /\
      s' = bump_oid (set_docs s c (docs s c ++ (("_id", VOid (Oid (next_oid s))) :: fields) :: nil)))
   \/
   (exists v k, doc_get "_id" doc = Some v /\ v <> VNull /\ key_of (Some v) = Some k /\
      existsb (has_id k) (docs s c) = false /\
      r = {| acknowledged := true; insertedId := v |} /\
      s' = set_docs s c (docs s c ++ (("_id", v) :: doc_remove "_id" doc) :: nil))).
Proof.
  unfold insertOne. destruct (online s); [|discriminate]. cbn [negb].
  destruct (plain_doc doc); [|discriminate]. cbn [negb].
  assert (Hgen : forall fields,
    (doc_get "_id" doc = None /\ fields = doc \/
     doc_get "_id" doc = Some VNull /\ fields = doc_remove "_id" doc) ->
    (if (oid_limit <=? next_oid s)%N || existsb (has_id (KOid (Oid (next_oid s)))) (docs s c)
     then OutOfModel
     else Val ({| acknowledged := true; insertedId := VOid (Oid (next_oid s)) |},
               bump_oid (set_docs s c
                 (docs s c ++ (("_id", VOid (Oid (next_oid s))) :: fields) :: nil))))
    = Val (r, s') ->
    true = true /\ true = true /\
    ((exists fields,
        (doc_get "_id" doc = None /\ fields = doc \/
         doc_get "_id" doc = Some VNull /\ fields = doc_remove "_id" doc) /\
        fresh_oid s c = true /\
        r = {| acknowledged := true; insertedId := VOid (Oid (next_oid s)) |} /\
        s' = bump_oid (set_docs s c
               (docs s c ++ (("_id", VOid (Oid (next_oid s))) :: fields) :: nil)))
     \/
     (exists v k, doc_get "_id" doc = Some v /\ v <> VNull /\ key_of (Some v) = Some k /\
        existsb (has_id k) (docs s c) = false /\
        r = {| acknowledged := true; insertedId := v |} /\
        s' = set_docs s c (docs s c ++ (("_id", v) :: doc_remove "_id" doc) :: nil)))).
  { intros fields Hfields. destruct (_ || _) eqn:Hf; [discriminate|].
    intros [= <- <-]. repeat split. left. exists fields. repeat split; [exact Hfields|].
    apply orb_false_elim in Hf as [H1 H2]. unfold fresh_oid.
    apply N.leb_gt, N.ltb_lt in H1. now rewrite H1, H2. }
  destruct (doc_get "_id" doc) as [v|] eqn:Hid.
  - assert (Hkept : v <> VNull ->
      match key_of (Some v) with
      | Some k =>
          if existsb (has_id k) (docs s c) then Throw Err_Mongo_duplicate_key
          else Val ({| acknowledged := true; insertedId := v |},
                    set_docs s c (docs s c ++ (("_id", v) :: doc_remove "_id" doc) :: nil))
      | None => OutOfModel
      end = Val (r, s') ->
      true = true /\ true = true /\
      ((exists fields,
          (Some v = None /\ fields = doc \/
           Some v = Some VNull /\ fields = doc_remove "_id" doc) /\
          fresh_oid s c = true /\
          r = {| acknowledged := true; insertedId := VOid (Oid (next_oid s)) |} /\
          s' = bump_oid (set_docs s c
                 (docs s c ++ (("_id", VOid (Oid (next_oid s))) :: fields) :: nil)))
       \/
       (exists v0 k, Some v = Some v0 /\ v0 <> VNull /\ key_of (Some v0) = Some k /\
          existsb (has_id k) (docs s c) = false /\
          r = {| acknowledged := true; insertedId := v0 |} /\
          s' = set_docs s c (docs s c ++ (("_id", v0) :: doc_remove "_id" doc) :: nil)))).
    { intros Hv. destruct (key_of (Some v)) as [k|] eqn:Hk; [|discriminate].
      destruct (existsb (has_id k) (docs s c)) eqn:Hex; [discriminate|].
      intros [= <- <-]. repeat split. right. exists v, k. repeat split; assumption. }
    destruct v; try (apply Hkept; discriminate).
    apply (Hgen (doc_remove "_id" doc)). right. split; reflexivity.
  - apply (Hgen doc). left. split; reflexivity.
Qed.

Lemma has_id_oid_eq o d : has_id (KOid o) d = true -> doc_get "_id" d = Some (VOid o).
Proof. destruct o as [n]. apply has_id_oid. Qed.

Lemma updateOne_val c o body s r s' :
  updateOne c o body s = Val (r, s') ->
  online s = true /\ plain_doc body = true /\
  ((split_first (has_id (KOid o)) (docs s c) = None /\ r = {| matchedCount := 0 |} /\ s' = s)
   \/
   (exists pre d post,
      split_first (has_id (KOid o)) (docs s c) = Some (pre, d, post) /\
      doc_get "_id" (apply_set body d) = doc_get "_id" d /\
      r = {| matchedCount := 1 |} /\
      s' = set_docs s c (pre ++ apply_set body d :: post))).
Proof.
  unfold updateOne. destruct (online s); [|discriminate]. cbn [negb].
  destruct (plain_doc body) eqn:Hp; [|discriminate]. cbn [negb orb].
  destruct (is_nil body); [discriminate|].
  destruct (split_first _ _) as [[[pre d] post]|] eqn:Hs.
  - destruct (doc_get "_id" body) as [v|] eqn:Hb.
    + destruct (has_id (KOid o) (("_id", v) :: nil)) eqn:Hk; [|discriminate].
      intros [= <- <-]. repeat split. right. exists pre, d, post. repeat split.
      rewrite apply_set_get by now apply plain_doc_nodup. rewrite Hb.
      apply has_id_oid_eq in Hk. rewrite doc_get_cons in Hk. cbn in Hk.
      apply split_first_some in Hs as (_ & Hd & _). apply has_id_oid_eq in Hd. congruence.
    + intros [= <- <-]. repeat split. right. exists pre, d, post. repeat split.
      rewrite apply_set_get by now apply plain_doc_nodup. now rewrite Hb.
  - destruct (doc_has "_id" body); [discriminate|].
    intros [= <- <-]. repeat split. now left.
Qed.

Lemma deleteOne_val c o s r s' :
  deleteOne c o s = Val (r, s') ->
  online s = true /\
  ((split_first (has_id (KOid o)) (docs s c) = None /\ r = {| deletedCount := 0 |} /\ s' = s)
   \/
   (exists pre d post,
      split_first (has_id (KOid o)) (docs s c) = Some (pre, d, post) /\
      r = {| deletedCount := 1 |} /\ s' = set_docs s c (pre ++ post))).
Proof.
  unfold deleteOne. destruct (online s); [|discriminate]. cbn [negb].
  destruct (split_first _ _) as [[[pre d] post]|] eqn:Hs; intros [= <- <-]; split;
    try reflexivity.
  - right. exists pre, d, post. repeat split.
  - now left.
Qed.

(** A write changes the documents of one collection and nothing else, except
    the generator, which only advances. *)
Lemma write_frame rq s s' h :
  write rq s s' h ->
  online s' = online s /\ (next_oid s <= next_oid s')%N /\
  exists c, forall c', c' <> c -> docs s' c' = docs s c'.
Proof.
  intros [c r H|r H|r H|c o r H|c o r H].
  - apply insertOne_val in H
      as (_ & _ & [(fields & _ & _ & _ & ->)|(v & k & _ & _ & _ & _ & _ & ->)]).
    + repeat split; [cbn; lia|]. exists c. intros c' Hc.
      rewrite docs_bump_oid. now apply docs_set_docs_ne.
    + repeat split; [cbn; lia|]. exists c. intros c' Hc. now apply docs_set_docs_ne.
  - apply insertOne_val in H
      as (_ & _ & [(fields & _ & _ & _ & ->)|(v & k & _ & _ & _ & _ & _ & ->)]).
    + repeat split; [cbn; lia|]. exists "orders". intros c' Hc.
      rewrite docs_bump_oid. now apply docs_set_docs_ne.
    + repeat split; [cbn; lia|]. exists "orders". intros c' Hc. now apply docs_set_docs_ne.
  - apply insertOne_val in H
      as (_ & _ & [(fields & _ & _ & _ & ->)|(v & k & _ & _ & _ & _ & _ & ->)]).
    + repeat split; [cbn; lia|]. exists "orders". intros c' Hc.
      rewrite docs_bump_oid. now apply docs_set_docs_ne.
    + repeat split; [cbn; lia|]. exists "orders". intros c' Hc. now apply docs_set_docs_ne.
  - apply updateOne_val in H as (_ & _ & [(_ & _ & ->)|(pre & d & post & _ & _ & _ & ->)]).
    + repeat split; [lia|]. now exists c.
    + repeat split; [cbn; lia|]. exists c. intros c' Hc. now apply docs_set_docs_ne.
  - apply deleteOne_val in H as (_ & [(_ & _ & ->)|(pre & d & post & _ & _ & ->)]).
    + repeat split; [lia|]. now exists c.
    + repeat split; [cbn; lia|]. exists c. intros c' Hc. now apply docs_set_docs_ne.
Qed.

(** X1. Whatever the stack of layers, a request leaves the process state as
    it found it, or it has made one write that the store took (one
    [insertOne], [updateOne] or [deleteOne]): then the answer has status 200
    or 201, the documents of one collection only have changed, and the
    connection flag has not. So an answer with an error status, and a request
    whose error went to the final handler, have changed nothing. *)
Theorem a_request_makes_at_most_one_write (stack : list layer) (st : server)
    (rq : request) (out : outcome) :
  handle stack st rq = Some out ->
  (out_state out = st \/
   exists h s s',
     db st = Some s /\ out_state out = put_store s' /\ write rq s s' h /\
     (status (out_response out) = 200%nat \/ status (out_response out) = 201%nat) /\
     online s' = online s /\
     exists c, forall c', c' <> c -> docs s' c' = docs s c') /\
  ((400 <= status (out_response out))%nat -> out_state out = st) /\
  (forall e, out_unhandled out = Some e -> out_state out = st).
Proof.
  intros H. unfold handle in H.
  destruct (dispatch_effect _ _ _ _ _ _ _ H)
    as [Hst|(l & h & s & s' & _ & _ & Hdb & Hst & Hw & Hstatus & Hu)].
  - repeat split; auto.
  - destruct (write_frame _ _ _ _ Hw) as (Hon & _ & Hc). repeat split.
    + right. exists h, s, s'. repeat split; assumption.
    + intros Hge. destruct Hstatus as [E|E]; rewrite E in Hge; lia.
    + intros e He. congruence.
Qed.

Lemma a_request_makes_at_most_one_write_witness :
  (exists out,
     handle app (put_store store5)
       (Request DELETE ("collections" :: "lessons" :: "000000000000000000000003" :: nil) None nil)
       = Some out /\
     out_state out <> put_store store5 /\ status (out_response out) = 200%nat) /\
  (exists out,
     handle app (put_store store5)
       (Request DELETE ("collections" :: "lessons" :: "xyz" :: nil) None nil) = Some out /\
     status (out_response out) = 500%nat /\ out_state out = put_store store5).
Proof.
  split.
  - assert (H : exists out,
       handle app (put_store store5)
         (Request DELETE ("collections" :: "lessons" :: "000000000000000000000003" :: nil)
                  None nil) = Some out /\
       docs store5 "lessons" <> nil /\
       (forall s', out_state out = put_store s' -> length (docs s' "lessons") = 4%nat)).
    { eexists. split; [vm_compute; reflexivity|]. split; [discriminate|].
      intros s' [= <-]. vm_compute. reflexivity. }
    destruct H as (out & H & _ & Hlen). exists out. split; [exact H|].
    destruct (a_request_makes_at_most_one_write _ _ _ _ H)
      as ([Hst|(h & s & s' & _ & Hst & _ & Hstatus & _)] & _ & _).
    + split; [|exfalso]; specialize (Hlen store5 Hst); discriminate Hlen.
    + split.
      * intros Hx. specialize (Hlen store5 Hx). discriminate Hlen.
      * destruct Hstatus as [E|E]; [exact E|].
        exfalso. revert E. vm_compute in H. injection H as <-. discriminate.
  - assert (H : exists out,
       handle app (put_store store5)
         (Request DELETE ("collections" :: "lessons" :: "xyz" :: nil) None nil) = Some out /\
       status (out_response out) = 500%nat).
    { eexists. split; [vm_compute; reflexivity|]. reflexivity. }
    destruct H as (out & H & Hs). exists out. split; [exact H|]. split; [exact Hs|].
    apply (a_request_makes_at_most_one_write _ _ _ _ H). rewrite Hs. lia.
Defined.

(** ** The method decides the write *)

Lemma in_app_runs l rq h :
  In l app -> runs l rq h ->
  match h with
  | H_insert | H_order => req_method rq = POST
  | H_update => req_method rq = PUT
  | H_delete => req_method rq = DELETE
  | H_order_000 => False
  | _ => True
  end.
Proof.
  intros Hin Hr. unfold app, middlewares in Hin. cbn in Hin.
  repeat (destruct Hin as [<-|Hin];
          [cbn in Hr; first [ subst h; exact I
                            | destruct Hr as [<- Hm]; destruct (req_method rq);
                              first [exact I | reflexivity | discriminate Hm] ] |]).
  destruct Hin.
Qed.

Lemma in_siblings_runs l rq h :
  In l app_000 \/ In l app_001 -> runs l rq h -> req_method rq = GET ->
  match h with
  | H_insert | H_order | H_order_000 | H_update | H_delete => False
  | _ => True
  end.
Proof.
  intros [Hin|Hin] Hr Hget; unfold app_000, app_001, middlewares in Hin; cbn in Hin;
    repeat (destruct Hin as [<-|Hin];
            [cbn in Hr; first [ subst h; exact I
                              | destruct Hr as [<- Hm]; rewrite Hget in Hm;
                                first [exact I | discriminate Hm] ] |]);
    destruct Hin.
Qed.

(** X2. In [app.js] the method decides what a request can do to the store: a
    GET changes nothing, a POST can only insert the request body, a PUT can
    only update with it, a DELETE can only delete. In the two sibling
    revisions a GET changes nothing either. *)
Theorem the_method_decides_the_write (st : server) (rq : request) (out : outcome) :
  (handle app st rq = Some out ->
   out_state out = st \/
   exists s s',
     db st = Some s /\ out_state out = put_store s' /\
     match req_method rq with
     | GET => False
     | POST => exists c r, insertOne c (req_body rq) s = Val (r, s')
     | PUT => exists c o r, updateOne c o (req_body rq) s = Val (r, s')
     | DELETE => exists c o r, deleteOne c o s = Val (r, s')
     end) /\
  (req_method rq = GET ->
   handle app_000 st rq = Some out \/ handle app_001 st rq = Some out ->
   out_state out = st).
Proof.
  split.
  - intros H. unfold handle in H.
    destruct (dispatch_effect _ _ _ _ _ _ _ H)
      as [Hst|(l & h & s & s' & Hin & Hr & Hdb & Hst & Hw & _)]; [now left|].
    right. exists s, s'. split; [exact Hdb|]. split; [exact Hst|].
    pose proof (in_app_runs l rq h Hin Hr) as Hm.
    destruct Hw as [c r Hop|r Hop|r Hop|c o r Hop|c o r Hop]; cbn in Hm;
      try (rewrite Hm; eauto); destruct Hm.
  - intros Hget H.
    assert (Hd : exists stack, (stack = app_000 \/ stack = app_001) /\
                               handle stack st rq = Some out).
    { destruct H as [H|H]; eauto. }
    destruct Hd as (stack & Hstack & Hh). unfold handle in Hh.
    destruct (dispatch_effect _ _ _ _ _ _ _ Hh)
      as [Hst|(l & h & s & s' & Hin & Hr & _ & _ & Hw & _)]; [exact Hst|].
    assert (Hin' : In l app_000 \/ In l app_001) by (destruct Hstack as [->| ->]; auto).
    pose proof (in_siblings_runs l rq h Hin' Hr Hget) as Hm.
    destruct Hw; destruct Hm.
Qed.

Lemma the_method_decides_the_write_witness :
  exists out,
    handle app (put_store store5)
      (Request GET ("collections" :: "lessons" :: "2" :: "price" :: "asc" :: nil) None
               (("price", VNum (Fin 1)) :: nil)) = Some out /\
    out_state out = put_store store5.
Proof.
  assert (H : exists out,
     handle app (put_store store5)
       (Request GET ("collections" :: "lessons" :: "2" :: "price" :: "asc" :: nil) None
                (("price", VNum (Fin 1)) :: nil)) = Some out).
  { eexists. vm_compute. reflexivity. }
  destruct H as (out & H). exists out. split; [exact H|].
  destruct (the_method_decides_the_write (put_store store5)
              (Request GET ("collections" :: "lessons" :: "2" :: "price" :: "asc" :: nil) None
                       (("price", VNum (Fin 1)) :: nil)) out) as [Happ _].
  destruct (Happ H) as [Hst|(s & s' & _ & _ & Hf)]; [exact Hst | destruct Hf].
Defined.

(** ** The handle on the store *)

Lemma serve_effect stack : forall rqs st st',
  serve stack st rqs = Some st' ->
  match db st with
  | None => st' = st
  | Some s => exists s', st' = put_store s' /\ online s' = online s /\
                         (next_oid s <= next_oid s')%N
  end.
Proof.
  induction rqs as [|rq rqs IH]; intros st st' H; cbn in H.
  - injection H as <-. destruct st as [[s|]]; cbn; [|reflexivity].
    exists s. repeat split. lia.
  - destruct (handle stack st rq) as [out|] eqn:Hh; [|discriminate].
    specialize (IH _ _ H). unfold handle in Hh.
    destruct (dispatch_effect _ _ _ _ _ _ _ Hh)
      as [Hst|(l & h & s & s1 & _ & _ & Hdb & Hst & Hw & _)].
    + now rewrite Hst in IH.
    + rewrite Hdb. rewrite Hst in IH. cbn in IH.
      destruct IH as (s' & -> & Hon & Hn).
      destruct (write_frame _ _ _ _ Hw) as (Hon1 & Hn1 & _).
      exists s'. repeat split; [congruence | lia].
Qed.

(** X3. Only [connectToDatabase] assigns [db]. Through any sequence of
    requests, on any stack of these layers, an undefined [db] stays undefined
    and the state is untouched; a defined one stays defined, with the same
    connection. So when the connection fails at start-up, every later request
    for a collection route of [app.js] is answered 500 with "Database not
    initialized", whatever was served before. *)
Theorem only_connect_assigns_db (stack : list layer) (rqs : list request) :
  (forall st', serve stack {| db := None |} rqs = Some st' -> st' = {| db := None |}) /\
  (forall s st', serve stack (put_store s) rqs = Some st' ->
     exists s', st' = put_store s' /\ online s' = online s) /\
  (forall mongo st' m name rest q b,
     online mongo = false ->
     serve app (connectToDatabase mongo {| db := None |}) rqs = Some st' ->
     collection_route m (name :: rest) = true ->
     exists out,
       handle app st' (Request m ("collections" :: name :: rest) q b) = Some out /\
       out_response out = {| status := 500; content := ErrorPage Err_DbNotInitialized |} /\
       out_state out = {| db := None |}).
Proof.
  repeat split.
  - intros st' H. exact (serve_effect _ _ _ _ H).
  - intros s st' H. destruct (serve_effect _ _ _ _ H) as (s' & -> & Hon & _). eauto.
  - intros mongo st' m name rest q b Hoff H Hc.
    rewrite (connectToDatabase_failed _ Hoff) in H.
    pose proof (serve_effect _ _ _ _ H) as Hst. cbn in Hst. subst st'.
    eexists. split; [now apply route_no_db|]. split; reflexivity.
Qed.

Lemma only_connect_assigns_db_witness :
  let offline := {| online := false; colls := ∅; next_oid := 0; callback_api := true |} in
  let rqs := Request POST ("collections" :: "lessons" :: nil) None short_order
             :: Request GET ("search" :: nil) (Some "a") nil :: nil in
  online offline = false /\
  serve app (connectToDatabase offline {| db := None |}) rqs = Some {| db := None |} /\
  exists out,
    handle app {| db := None |}
           (Request GET ("collections" :: "lessons" :: nil) None nil) = Some out /\
    out_response out = {| status := 500; content := ErrorPage Err_DbNotInitialized |}.
Proof.
  cbv zeta. split; [reflexivity|]. split; [vm_compute; reflexivity|].
  destruct (only_connect_assigns_db app
              (Request POST ("collections" :: "lessons" :: nil) None short_order
               :: Request GET ("search" :: nil) (Some "a") nil :: nil)) as (_ & _ & H).
  destruct (H {| online := false; colls := ∅; next_oid := 0; callback_api := true |} {| db := None |}
              GET "lessons" nil None nil eq_refl) as (out & Hh & Hr & _).
  - vm_compute. reflexivity.
  - reflexivity.
  - exists out. split; assumption.
Defined.

(** ** Invariants of the store *)

Lemma doc_get_pick_fields k ks d :
  ~ In k ks -> doc_get k (pick_fields ks d) = None.
Proof.
  unfold pick_fields. induction ks as [|x ks IH]; intros Hk; [reflexivity|].
  cbn. destruct (doc_get x d) as [v|]; cbn.
  - rewrite doc_get_cons.
    destruct (String.eqb x k) eqn:E.
    + apply String.eqb_eq in E. subst. exfalso. apply Hk. now left.
    + apply IH. intros Hin. apply Hk. now right.
  - apply IH. intros Hin. apply Hk. now right.
Qed.

Lemma order_fields_no_id d : doc_get "_id" (pick_fields order_fields d) = None.
Proof.
  apply doc_get_pick_fields. unfold order_fields. cbn.
  intros H. repeat (destruct H as [H|H]; [discriminate H|]). exact H.
Qed.

Lemma key_eqb_sym a b : key_eqb a b = key_eqb b a.
Proof.
  unfold key_eqb. rewrite (key_compare_antisym b a). now destruct (key_compare a b).
Qed.

Lemma same_key_sym a b : same_key a b = same_key b a.
Proof. destruct a, b; cbn; try reflexivity. apply key_eqb_sym. Qed.

Lemma has_id_same_key k d : has_id k d = same_key (Some k) (id_key d).
Proof. reflexivity. Qed.

Lemma existsb_has_id k ds :
  existsb (has_id k) ds = existsb (same_key (Some k)) (map id_key ds).
Proof. induction ds as [|d ds IH]; [reflexivity|]. cbn. now rewrite IH. Qed.

Lemma distinct_keys_snoc ks k :
  distinct_keys ks = true -> existsb (same_key k) ks = false ->
  distinct_keys (ks ++ k :: nil) = true.
Proof.
  induction ks as [|x ks IH]; intros Hd Hex; [reflexivity|].
  cbn in *. apply andb_prop in Hd as [Hx Hd]. apply orb_false_elim in Hex as [Hkx Hex].
  rewrite IH by assumption. rewrite andb_true_r.
  apply negb_true_iff in Hx. apply negb_true_iff.
  rewrite existsb_app, Hx. cbn. now rewrite same_key_sym, Hkx.
Qed.

Lemma distinct_keys_remove pre k post :
  distinct_keys (pre ++ k :: post) = true -> distinct_keys (pre ++ post) = true.
Proof.
  induction pre as [|x pre IH]; cbn.
  - intros H. now apply andb_prop in H as [_ H].
  - intros H. apply andb_prop in H as [Hx H]. rewrite (IH H), andb_true_r.
    apply negb_true_iff in Hx. apply negb_true_iff.
    rewrite existsb_app in *. cbn in Hx.
    apply orb_false_elim in Hx as [H1 H2]. apply orb_false_elim in H2 as [_ H2].
    now rewrite H1, H2.
Qed.

Lemma insertOne_keeps_ids_unique s c doc r s' :
  ids_unique s -> insertOne c doc s = Val (r, s') -> ids_unique s'.
Proof.
  intros Hu H c'.
  assert (Hnew : forall v k x, key_of (Some v) = Some k ->
            existsb (has_id k) (docs s c) = false ->
            distinct_keys (map id_key (docs s c ++ (("_id", v) :: x) :: nil)) = true).
  { intros v k x Hk Hex. rewrite map_app. cbn [map].
    assert (Hkey : id_key (("_id", v) :: x) = Some k)
      by (unfold id_key; rewrite doc_get_cons; exact Hk).
    rewrite Hkey. apply distinct_keys_snoc; [apply Hu|].
    now rewrite <- existsb_has_id. }
  destruct (insertOne_val _ _ _ _ _ H)
    as (_ & _ & [(fields & _ & Hf & _ & ->)|(v & k & _ & _ & Hk & Hex & _ & ->)]).
  - rewrite docs_bump_oid, docs_set_docs. destruct (String.eqb c c'); [|apply Hu].
    apply fresh_oid_spec in Hf as [_ Hex]. now apply (Hnew _ (KOid (Oid (next_oid s)))).
  - rewrite docs_set_docs. destruct (String.eqb c c'); [|apply Hu]. now apply (Hnew v k).
Qed.

Lemma updateOne_keeps_ids_unique s c o body r s' :
  ids_unique s -> updateOne c o body s = Val (r, s') -> ids_unique s'.
Proof.
  intros Hu H c'.
  destruct (updateOne_val _ _ _ _ _ _ H)
    as (_ & _ & [(_ & _ & ->)|(pre & d & post & Hs & Hid & _ & ->)]); [apply Hu|].
  rewrite docs_set_docs. destruct (String.eqb c c'); [|apply Hu].
  apply split_first_some in Hs as (Hl & _ & _).
  specialize (Hu c). rewrite Hl in Hu. rewrite map_app in *. cbn [map] in *.
  assert (Hkey : id_key (apply_set body d) = id_key d) by (unfold id_key; now rewrite Hid).
  now rewrite Hkey.
Qed.

Lemma deleteOne_keeps_ids_unique s c o r s' :
  ids_unique s -> deleteOne c o s = Val (r, s') -> ids_unique s'.
Proof.
  intros Hu H c'.
  destruct (deleteOne_val _ _ _ _ _ H)
    as (_ & [(_ & _ & ->)|(pre & d & post & Hs & _ & ->)]); [apply Hu|].
  rewrite docs_set_docs. destruct (String.eqb c c'); [|apply Hu].
  apply split_first_some in Hs as (Hl & _ & _).
  specialize (Hu c). rewrite Hl in Hu. rewrite map_app in *. cbn [map] in Hu.
  now apply distinct_keys_remove in Hu.
Qed.

Lemma write_keeps_ids_unique rq s s' h :
  write rq s s' h -> ids_unique s -> ids_unique s'.
Proof.
  intros [c r H|r H|r H|c o r H|c o r H] Hu;
    eauto using insertOne_keeps_ids_unique, updateOne_keeps_ids_unique,
                deleteOne_keeps_ids_unique.
Qed.

(** A property of the store that every write keeps is kept by every sequence
    of requests. *)
Lemma serve_invariant (P : store -> Prop) stack :
  forall rqs,
  (forall rq s s' h, In rq rqs -> write rq s s' h -> P s -> P s') ->
  forall s st', P s -> serve stack (put_store s) rqs = Some st' ->
  exists s', st' = put_store s' /\ P s'.
Proof.
  induction rqs as [|rq rqs IH]; intros Hw s st' HP H; cbn in H.
  - injection H as <-. eauto.
  - destruct (handle stack (put_store s) rq) as [out|] eqn:Hh; [|discriminate].
    unfold handle in Hh.
    assert (Hrest : forall rq0 s0 s0' h, In rq0 rqs -> write rq0 s0 s0' h -> P s0 -> P s0').
    { intros rq0 s0 s0' h Hin. apply Hw. now right. }
    destruct (dispatch_effect _ _ _ _ _ _ _ Hh)
      as [Hst|(l & h & s0 & s1 & _ & _ & [= <-] & Hst & Hwr & _)]; rewrite Hst in H.
    + exact (IH Hrest _ _ HP H).
    + apply (IH Hrest _ _ (Hw _ _ _ _ (or_introl eq_refl) Hwr HP) H).
Qed.

(** X4. The identifiers of a collection stay pairwise different: when they
    are in every collection of the store, they still are after any sequence
    of requests, on any stack of these layers. *)
Theorem identifiers_stay_unique (stack : list layer) (rqs : list request)
    (s : store) (st' : server) :
  ids_unique s -> serve stack (put_store s) rqs = Some st' ->
  exists s', st' = put_store s' /\ ids_unique s'.
Proof.
  apply (serve_invariant ids_unique). intros rq s0 s0' h _. apply write_keeps_ids_unique.
Qed.

Lemma ids_unique_store5 : ids_unique store5.
Proof.
  intros c. unfold docs. cbn [colls store5].
  destruct (decide (c = "lessons")) as [->|Hne].
  - vm_compute. reflexivity.
  - rewrite lookup_singleton_ne by congruence. reflexivity.
Qed.

Lemma identifiers_stay_unique_witness :
  let rqs := Request POST ("collections" :: "lessons" :: nil) None
               (("_id", VStr "a") :: ("subject", VStr "Dance") :: nil)
             :: Request POST ("collections" :: "lessons" :: nil) None
               (("_id", VStr "a") :: ("subject", VStr "Judo") :: nil)
             :: Request DELETE ("collections" :: "lessons" :: "000000000000000000000001" :: nil)
               None nil
             :: nil in
  exists s', serve app (put_store store5) rqs = Some (put_store s') /\
             length (docs s' "lessons") = 5%nat /\ ids_unique s'.
Proof.
  cbv zeta.
  assert (H : exists s',
    serve app (put_store store5)
      (Request POST ("collections" :: "lessons" :: nil) None
         (("_id", VStr "a") :: ("subject", VStr "Dance") :: nil)
       :: Request POST ("collections" :: "lessons" :: nil) None
         (("_id", VStr "a") :: ("subject", VStr "Judo") :: nil)
       :: Request DELETE ("collections" :: "lessons" :: "000000000000000000000001" :: nil)
         None nil
       :: nil) = Some (put_store s') /\ length (docs s' "lessons") = 5%nat).
  { eexists. split; vm_compute; reflexivity. }
  destruct H as (s' & H & Hlen). exists s'. split; [exact H|]. split; [exact Hlen|].
  destruct (identifiers_stay_unique _ _ _ _ ids_unique_store5 H) as (s'' & [= <-] & Hu).
  exact Hu.
Defined.

(** ** Listing *)

Lemma list_try_online s name ps :
  online s = true ->
  list_try {| params := ps; collection := Some name |} (put_store s)
  = Val (ok (json_docs (docs s name)), put_store s).
Proof.
  intros Hon. unfold list_try. cbn. unfold find. rewrite Hon. cbn.
  now rewrite filter_all.
Qed.

(** X5. On a connected store, [GET /collections/{name}] answers every
    document of the collection, in the order of insertion, and changes
    nothing; a collection the store does not have is answered with the empty
    array, not with an error; and after a [POST] of a document without [_id]
    to the collection, the listing is the former one with the new document,
    identifier included, at its end. *)
Theorem list_answers_the_whole_collection (s : store) (name : string)
    (q q' : option string) (b body : document) :
  online s = true -> collection_name_ok name = true ->
  (exists out,
     handle app (put_store s) (Request GET ("collections" :: name :: nil) q b) = Some out /\
     out_response out = ok (json_docs (docs s name)) /\
     out_state out = put_store s) /\
  (colls s !! name = None ->
   exists out,
     handle app (put_store s) (Request GET ("collections" :: name :: nil) q b) = Some out /\
     out_response out = ok (VArr nil)) /\
  (plain_doc body = true -> doc_get "_id" body = None -> fresh_oid s name = true ->
   exists out1 out2 i,
     handle app (put_store s) (Request POST ("collections" :: name :: nil) q' body)
       = Some out1 /\
     out_response out1 = ok (json_insert {| acknowledged := true; insertedId := VOid i |}) /\
     handle app (out_state out1) (Request GET ("collections" :: name :: nil) q b) = Some out2 /\
     out_response out2 =
       ok (json_docs (docs s name ++ (("_id", VOid i) :: body) :: nil))).
Proof.
  intros Hon Hn. repeat split.
  - eexists. rewrite route_list by assumption. rewrite list_try_online by assumption.
    repeat split.
  - intros Hnone. eexists. rewrite route_list by assumption.
    rewrite list_try_online by assumption. split; [reflexivity|].
    cbn. unfold docs. now rewrite Hnone.
  - intros Hp Hid Hf.
    pose proof (insertOne_generated s name body Hon Hp Hid Hf) as Hins.
    eexists _, _, (Oid (next_oid s)). split.
    { rewrite route_insert by assumption.
      rewrite (insert_try_val s name nil _ _ q' body _ _ Hins). reflexivity. }
    split; [reflexivity|]. cbn [out_state]. split.
    { rewrite route_list by assumption.
      rewrite list_try_online by exact Hon. reflexivity. }
    cbn [out_response]. now rewrite docs_bump_oid, docs_set_docs_eq.
Qed.

Lemma list_answers_the_whole_collection_witness :
  (exists out,
     handle app (put_store store5) (Request GET ("collections" :: "lessons" :: nil) None nil)
       = Some out /\
     out_response out = ok (json_docs lessons5)) /\
  (exists out,
     handle app (put_store store5) (Request GET ("collections" :: "orders" :: nil) None nil)
       = Some out /\
     out_response out = ok (VArr nil)).
Proof.
  split.
  - destruct (list_answers_the_whole_collection store5 "lessons" None None nil nil
                eq_refl eq_refl) as ((out & H & Hr & _) & _).
    exists out. split; [exact H | exact Hr].
  - destruct (list_answers_the_whole_collection store5 "orders" None None nil nil
                eq_refl eq_refl) as (_ & Hempty & _).
    destruct Hempty as (out & H & Hr); [reflexivity|].
    exists out. split; assumption.
Defined.

(** ** Deleting *)

Lemma distinct_keys_after pre k post :
  distinct_keys (pre ++ k :: post) = true -> existsb (same_key k) post = false.
Proof.
  induction pre as [|x pre IH]; cbn; intros H; apply andb_prop in H as [Hx H].
  - now apply negb_true_iff in Hx.
  - now apply IH.
Qed.

Lemma split_first_absent {A} (p : A -> bool) l :
  (forall x, In x l -> p x = false) -> split_first p l = None.
Proof.
  induction l as [|a l IH]; intros H; [reflexivity|]. cbn.
  rewrite (H a) by now left. rewrite IH; [reflexivity|]. intros x Hx. apply H. now right.
Qed.

Lemma find_absent {A} (p : A -> bool) l :
  (forall x, In x l -> p x = false) -> List.find p l = None.
Proof.
  induction l as [|a l IH]; intros H; [reflexivity|]. cbn.
  rewrite (H a) by now left. apply IH. intros x Hx. apply H. now right.
Qed.

(** With unique identifiers, what is left of a collection once the first
    document with an identifier is taken out has no document with it. *)
Lemma unique_id_gone s c o pre d post :
  ids_unique s ->
  split_first (has_id (KOid o)) (docs s c) = Some (pre, d, post) ->
  forall x, In x (pre ++ post) -> has_id (KOid o) x = false.
Proof.
  intros Hu Hs x Hin. apply split_first_some in Hs as (Hl & Hd & Hpre).
  apply in_app_or in Hin as [Hin|Hin]; [now apply Hpre|].
  specialize (Hu c). rewrite Hl, map_app in Hu. cbn [map] in Hu.
  apply distinct_keys_after in Hu.
  apply has_id_oid_eq in Hd.
  assert (Hk : id_key d = Some (KOid o)) by (unfold id_key; now rewrite Hd).
  rewrite Hk in Hu. rewrite has_id_same_key.
  apply (existsb_false_forall _ _ Hu). now apply in_map.
Qed.

(** X6. With unique identifiers in the collection and a document that has the
    identifier, [DELETE /collections/{name}/{id}] answers success and takes
    out that document and no other; afterwards [GET] with the same id answers
    404 "Document not found", and a second [DELETE] answers
    [{"msg":"error"}] and changes nothing. *)
Theorem delete_then_get_is_not_found (s : store) (name id : string) (o : ObjectId)
    (q : option string) (b : document) :
  online s = true -> collection_name_ok name = true -> ObjectId_new id = Val o ->
  ids_unique s ->
  (exists d, In d (docs s name) /\ has_id (KOid o) d = true) ->
  let by_id m := Request m ("collections" :: name :: id :: nil) q b in
  exists out1 s1,
    handle app (put_store s) (by_id DELETE) = Some out1 /\
    out_response out1 = ok (msg "success") /\
    out_state out1 = put_store s1 /\
    (forall x, In x (docs s1 name) -> has_id (KOid o) x = false) /\
    (forall x, In x (docs s name) -> has_id (KOid o) x = false -> In x (docs s1 name)) /\
    (length (docs s1 name) + 1 = length (docs s name))%nat /\
    (exists out2,
       handle app (put_store s1) (by_id GET) = Some out2 /\
       out_response out2 = {| status := 404; content := Json (msg "Document not found") |}) /\
    (exists out3,
       handle app (put_store s1) (by_id DELETE) = Some out3 /\
       out_response out3 = ok (msg "error") /\ out_state out3 = put_store s1).
Proof.
  intros Hon Hn Ho Hu Hex by_id. subst by_id.
  pose proof (ObjectId_new_nonempty _ _ Ho) as Hi.
  destruct (split_first_is_some _ _ Hex) as (pre & d & post & Hs).
  pose proof (deleteOne_matched s name o pre d post Hon Hs) as Hdel.
  pose proof (unique_id_gone s name o pre d post Hu Hs) as Hgone.
  destruct (split_first_some _ _ _ _ _ Hs) as (Hl & Hd & Hpre).
  set (s1 := set_docs s name (pre ++ post)) in *.
  assert (Hdocs1 : docs s1 name = (pre ++ post)%list) by apply docs_set_docs_eq.
  eexists _, s1. split.
  { rewrite route_delete by assumption.
    rewrite (delete_try_val s name id nil o _ _ Ho Hdel). reflexivity. }
  split; [reflexivity|]. split; [reflexivity|].
  split; [now rewrite Hdocs1|]. split.
  { intros x Hin Hx. rewrite Hdocs1. rewrite Hl in Hin.
    apply in_app_or in Hin as [Hin|[<-|Hin]]; apply in_or_app; [now left| |now right].
    congruence. }
  split; [rewrite Hdocs1, Hl, !length_app; cbn; lia|]. split.
  - eexists. rewrite (route_getById _ s1) by (assumption || reflexivity).
    rewrite (getById_try_missing s1 name id nil o) by
      first [exact Hon | exact Ho | rewrite Hdocs1; now apply find_absent].
    split; reflexivity.
  - assert (Hnone : split_first (has_id (KOid o)) (docs s1 name) = None)
      by (rewrite Hdocs1; now apply split_first_absent).
    pose proof (deleteOne_unmatched s1 name o Hon Hnone) as Hdel2.
    eexists. rewrite route_delete by assumption.
    rewrite (delete_try_val s1 name id nil o _ _ Ho Hdel2). repeat split.
Qed.

Lemma delete_then_get_is_not_found_witness :
  let by_id m := Request m ("collections" :: "lessons" :: "000000000000000000000002" :: nil)
                         None nil in
  exists out1 s1,
    handle app (put_store store5) (by_id DELETE) = Some out1 /\
    out_response out1 = ok (msg "success") /\
    out_state out1 = put_store s1 /\
    length (docs s1 "lessons") = 4%nat /\
    exists out2,
      handle app (put_store s1) (by_id GET) = Some out2 /\
      status (out_response out2) = 404%nat.
Proof.
  cbv zeta.
  destruct (delete_then_get_is_not_found store5 "lessons" "000000000000000000000002" (Oid 2)
              None nil eq_refl eq_refl eq_refl ids_unique_store5)
    as (out1 & s1 & H1 & Hr1 & Hst & _ & _ & Hlen & (out2 & H2 & Hr2) & _).
  { exists (lesson 2 "Music" "Bristol" 90 20). split; [|reflexivity]. vm_compute. tauto. }
  exists out1, s1. repeat split; try assumption.
  - assert (Hl5 : length (docs store5 "lessons") = 5%nat) by reflexivity. lia.
  - exists out2. split; [exact H2|]. now rewrite Hr2.
Defined.

(** ** Updating and reading back *)

(** X7. After a [PUT] that matched, [GET] with the same id answers the merged
    document: the body's value for every field of the body, the former value
    for every other field, the identifier among them. *)
Theorem update_then_get_is_the_merge (s : store) (name id : string) (o : ObjectId)
    (q q' : option string) (body b' : document) (pre post : list document) (d : document) :
  online s = true -> collection_name_ok name = true -> ObjectId_new id = Val o ->
  plain_doc body = true -> body <> nil -> doc_has "_id" body = false ->
  docs s name = (pre ++ d :: post)%list ->
  has_id (KOid o) d = true -> (forall x, In x pre -> has_id (KOid o) x = false) ->
  exists out1 out2 d',
    handle app (put_store s) (Request PUT ("collections" :: name :: id :: nil) q body)
      = Some out1 /\
    out_response out1 = ok (msg "success") /\
    handle app (out_state out1) (Request GET ("collections" :: name :: id :: nil) q' b')
      = Some out2 /\
    out_response out2 = ok (VObj d') /\
    (forall f v, doc_get f body = Some v -> doc_get f d' = Some v) /\
    (forall f, doc_get f body = None -> doc_get f d' = doc_get f d) /\
    doc_get "_id" d' = Some (VOid o).
Proof.
  intros Hon Hn Ho Hp Hne Hid Hdocs Hd Hpre.
  pose proof (ObjectId_new_nonempty _ _ Ho) as Hi.
  assert (Hs : split_first (has_id (KOid o)) (docs s name) = Some (pre, d, post)).
  { rewrite Hdocs. now apply split_first_here. }
  pose proof (updateOne_matched s name o body pre d post Hon Hp Hne Hid Hs) as Hu.
  pose proof (plain_doc_nodup _ Hp) as Hnd.
  set (d' := apply_set body d).
  set (s1 := set_docs s name (pre ++ d' :: post)) in *.
  assert (Hkeep : doc_get "_id" d' = doc_get "_id" d).
  { unfold d'. rewrite apply_set_get by assumption. now rewrite (doc_has_false _ _ Hid). }
  assert (Hd' : has_id (KOid o) d' = true) by (unfold has_id in *; now rewrite Hkeep).
  assert (Hfind : List.find (has_id (KOid o)) (docs s1 name) = Some d').
  { unfold s1. rewrite docs_set_docs_eq. rewrite find_app_skip by assumption.
    cbn. now rewrite Hd'. }
  eexists _, _, d'. split.
  { rewrite route_update by assumption.
    rewrite (update_try_val s name id nil o q body _ _ _ _ Ho Hu). reflexivity. }
  split; [reflexivity|]. cbn [out_state]. split.
  { rewrite (route_getById _ s1) by (assumption || reflexivity).
    fold d'. fold s1.
    rewrite (getById_try_found s1 name id nil o d') by (assumption || reflexivity).
    reflexivity. }
  split; [reflexivity|]. repeat split.
  - intros f v Hf. unfold d'. rewrite apply_set_get by assumption. now rewrite Hf.
  - intros f Hf. unfold d'. rewrite apply_set_get by assumption. now rewrite Hf.
  - rewrite Hkeep. now apply has_id_oid_eq.
Qed.

Lemma update_then_get_is_the_merge_witness :
  let body : document := ("availablespaces", VNum (Fin 3)) :: nil in
  exists out1 out2 d',
    handle app (put_store store5)
      (Request PUT ("collections" :: "lessons" :: "000000000000000000000000" :: nil) None body)
      = Some out1 /\
    handle app (out_state out1)
      (Request GET ("collections" :: "lessons" :: "000000000000000000000000" :: nil) None nil)
      = Some out2 /\
    out_response out2 = ok (VObj d') /\
    doc_get "availablespaces" d' = Some (VNum (Fin 3)) /\
    doc_get "subject" d' = Some (VStr "Math").
Proof.
  cbv zeta.
  assert (Hne : (("availablespaces", VNum (Fin 3)) :: nil : document) <> nil) by discriminate.
  assert (Hpre : forall x, In x (@nil document) -> has_id (KOid (Oid 0)) x = false)
    by (intros x []).
  destruct (update_then_get_is_the_merge store5 "lessons" "000000000000000000000000" (Oid 0)
              None None (("availablespaces", VNum (Fin 3)) :: nil) nil nil
              (lesson 1 "English" "Room 20" 80 5 :: lesson 2 "Music" "Bristol" 90 20
               :: lesson 3 "Art" "Oxford" 20 4 :: lesson 4 "Chess" "York" 95 2 :: nil)
              (lesson 0 "Math" "London" 100 5)
              eq_refl eq_refl eq_refl eq_refl Hne eq_refl eq_refl eq_refl Hpre)
    as (out1 & out2 & d' & H1 & _ & H2 & Hr2 & Hset & Hkeep & _).
  exists out1, out2, d'. repeat split; try assumption.
  - now apply Hset.
  - now rewrite Hkeep.
Defined.

(** ** Documents with an identifier of their own *)

Lemma in_replace_other {A} (pre post : list A) d d' x :
  In x (pre ++ d :: post) -> x <> d -> In x (pre ++ d' :: post).
Proof.
  intros Hin Hne. apply in_app_or in Hin as [Hin|[Hin|Hin]]; apply in_or_app;
    [now left | congruence | right; now right].
Qed.

Lemma in_remove_other {A} (pre post : list A) d x :
  In x (pre ++ d :: post) -> x <> d -> In x (pre ++ post).
Proof.
  intros Hin Hne. apply in_app_or in Hin as [Hin|[Hin|Hin]]; apply in_or_app;
    [now left | congruence | now right].
Qed.

Lemma insertOne_kept s c doc v k :
  online s = true -> plain_doc doc = true ->
  doc_get "_id" doc = Some v -> v <> VNull -> key_of (Some v) = Some k ->
  existsb (has_id k) (docs s c) = false ->
  insertOne c doc s =
  Val ({| acknowledged := true; insertedId := v |},
       set_docs s c (docs s c ++ (("_id", v) :: doc_remove "_id" doc) :: nil)).
Proof.
  intros Hon Hp Hid Hv Hk Hex. unfold insertOne. rewrite Hon, Hp, Hid. cbn [negb].
  destruct v; try (now destruct Hv); rewrite Hk, Hex; reflexivity.
Qed.

Lemma insertOne_null s c doc :
  online s = true -> plain_doc doc = true -> doc_get "_id" doc = Some VNull ->
  fresh_oid s c = true ->
  insertOne c doc s =
  Val ({| acknowledged := true; insertedId := VOid (Oid (next_oid s)) |},
       bump_oid (set_docs s c
         (docs s c ++ (("_id", VOid (Oid (next_oid s))) :: doc_remove "_id" doc) :: nil))).
Proof.
  intros Hon Hp Hid Hf. apply fresh_oid_spec in Hf as [Hlt Hex].
  unfold insertOne. rewrite Hon, Hp, Hid. cbn [negb].
  rewrite Hex. apply N.leb_gt in Hlt. now rewrite Hlt.
Qed.

(** X8. A [POST] keeps the [_id] the body brings when it is a scalar other
    than [null] (a string, a number, ...): the acknowledgement names it and
    the document is stored under it; a body whose [_id] is [null] is given a
    generated identifier, as a body without [_id] is. The routes by id look
    for an [ObjectId]: a document whose [_id] is not one is never the answer
    of a [GET] by id, and no [PUT] or [DELETE] by id touches it. *)
Theorem by_id_routes_need_an_ObjectId (s : store) (name : string) (q : option string) :
  online s = true -> collection_name_ok name = true ->
  (forall body v k,
     plain_doc body = true -> doc_get "_id" body = Some v -> v <> VNull ->
     key_of (Some v) = Some k ->
     existsb (has_id k) (docs s name) = false ->
     exists out s',
       handle app (put_store s) (Request POST ("collections" :: name :: nil) q body) = Some out /\
       out_response out = ok (json_insert {| acknowledged := true; insertedId := v |}) /\
       out_state out = put_store s' /\
       docs s' name = (docs s name ++ (("_id", v) :: doc_remove "_id" body) :: nil)%list) /\
  (forall body,
     plain_doc body = true -> doc_get "_id" body = Some VNull -> fresh_oid s name = true ->
     exists out s',
       handle app (put_store s) (Request POST ("collections" :: name :: nil) q body) = Some out /\
       out_response out =
         ok (json_insert {| acknowledged := true; insertedId := VOid (Oid (next_oid s)) |}) /\
       out_state out = put_store s' /\
       docs s' name =
         (docs s name ++ (("_id", VOid (Oid (next_oid s))) :: doc_remove "_id" body) :: nil)%list) /\
  (forall d m id b out,
     In d (docs s name) -> (forall o, doc_get "_id" d <> Some (VOid o)) ->
     m <> POST -> id <> "" ->
     handle app (put_store s) (Request m ("collections" :: name :: id :: nil) q b) = Some out ->
     (m = GET -> out_response out <> ok (VObj d)) /\
     exists s', out_state out = put_store s' /\ In d (docs s' name)).
Proof.
  intros Hon Hn. split; [|split].
  - intros body v k Hp Hid Hv Hk Hex.
    pose proof (insertOne_kept s name body v k Hon Hp Hid Hv Hk Hex) as Hins.
    eexists _, _. split.
    { rewrite route_insert by assumption.
      rewrite (insert_try_val s name nil _ _ q body _ _ Hins). reflexivity. }
    split; [reflexivity|]. split; [reflexivity|]. apply docs_set_docs_eq.
  - intros body Hp Hid Hf.
    pose proof (insertOne_null s name body Hon Hp Hid Hf) as Hins.
    eexists _, _. split.
    { rewrite route_insert by assumption.
      rewrite (insert_try_val s name nil _ _ q body _ _ Hins). reflexivity. }
    split; [reflexivity|]. split; [reflexivity|].
    now rewrite docs_bump_oid, docs_set_docs_eq.
  - intros d m id b out Hin Hnot Hm Hi H.
    assert (Hno : forall o, has_id (KOid o) d = false).
    { intros o. destruct (has_id (KOid o) d) eqn:E; [|reflexivity].
      apply has_id_oid_eq in E. now destruct (Hnot o). }
    destruct m; try congruence.
    + (* GET *)
      rewrite (route_getById _ s) in H by (assumption || reflexivity).
      unfold getById_try in H. cbn in H.
      destruct (ObjectId_new id) as [o|e|]; cbn in H; [| |discriminate].
      * unfold findOne in H. rewrite Hon in H. cbn in H.
        destruct (List.find _ _) as [d'|] eqn:Hf; cbn in H; injection H as <-; cbn.
        -- split; [|eauto]. intros _ [= ->]. apply find_some in Hf as [_ Hf].
           rewrite Hno in Hf. discriminate.
        -- split; [discriminate | eauto].
      * injection H as <-. cbn. split; [discriminate | eauto].
    + (* PUT *)
      split; [discriminate|].
      rewrite route_update in H by assumption.
      unfold update_try in H. cbn in H.
      destruct (ObjectId_new id) as [o|e|]; cbn in H; [| |discriminate].
      * destruct (updateOne name o b s) as [[r s']|e|] eqn:Hu; cbn in H; [| |discriminate].
        -- injection H as <-. cbn.
           exists s'. split; [reflexivity|].
           destruct (updateOne_val _ _ _ _ _ _ Hu)
             as (_ & _ & [(_ & _ & ->)|(pre & d0 & post & Hs & _ & _ & ->)]); [exact Hin|].
           rewrite docs_set_docs_eq.
           apply split_first_some in Hs as (Hl & Hd0 & _). rewrite Hl in Hin.
           apply (in_replace_other _ _ d0); [exact Hin|].
           intros ->. rewrite Hno in Hd0. discriminate.
        -- injection H as <-. cbn. eauto.
      * injection H as <-. cbn. eauto.
    + (* DELETE *)
      split; [discriminate|].
      rewrite route_delete in H by assumption.
      unfold delete_try in H. cbn in H.
      destruct (ObjectId_new id) as [o|e|]; cbn in H; [| |discriminate].
      * destruct (deleteOne name o s) as [[r s']|e|] eqn:Hu; cbn in H; [| |discriminate].
        -- injection H as <-. cbn.
           exists s'. split; [reflexivity|].
           destruct (deleteOne_val _ _ _ _ _ Hu)
             as (_ & [(_ & _ & ->)|(pre & d0 & post & Hs & _ & ->)]); [exact Hin|].
           rewrite docs_set_docs_eq.
           apply split_first_some in Hs as (Hl & Hd0 & _). rewrite Hl in Hin.
           apply (in_remove_other _ _ d0); [exact Hin|].
           intros ->. rewrite Hno in Hd0. discriminate.
        -- injection H as <-. cbn. eauto.
      * injection H as <-. cbn. eauto.
Qed.

Lemma by_id_routes_need_an_ObjectId_witness :
  let body : document := ("_id", VStr "000000000000000000000009") :: ("subject", VStr "Judo") :: nil in
  exists out s',
    handle app (put_store store5) (Request POST ("collections" :: "lessons" :: nil) None body)
      = Some out /\
    out_response out =
      ok (json_insert {| acknowledged := true;
                         insertedId := VStr "000000000000000000000009" |}) /\
    out_state out = put_store s' /\
    exists out2,
      handle app (put_store s')
        (Request GET ("collections" :: "lessons" :: "000000000000000000000009" :: nil) None nil)
        = Some out2 /\
      out_response out2 <> ok (VObj body).
Proof.
  cbv zeta.
  destruct (by_id_routes_need_an_ObjectId store5 "lessons" None eq_refl eq_refl) as [Hpost _].
  assert (Hv : VStr "000000000000000000000009" <> VNull) by discriminate.
  destruct (Hpost (("_id", VStr "000000000000000000000009") :: ("subject", VStr "Judo") :: nil)
              (VStr "000000000000000000000009") (KStr "000000000000000000000009")
              eq_refl eq_refl Hv eq_refl eq_refl) as (out & s' & H & Hr & Hst & Hdocs).
  exists out, s'. repeat split; try assumption.
  assert (Hon : online s' = true).
  { vm_compute in H. injection H as <-. injection Hst as <-. reflexivity. }
  destruct (by_id_routes_need_an_ObjectId s' "lessons" None Hon eq_refl) as (_ & _ & Hget).
  assert (H2 : exists out2,
    handle app (put_store s')
      (Request GET ("collections" :: "lessons" :: "000000000000000000000009" :: nil) None nil)
      = Some out2).
  { vm_compute in H. injection H as <-. injection Hst as <-. eexists. vm_compute. reflexivity. }
  destruct H2 as (out2 & H2). exists out2. split; [exact H2|].
  assert (Hi : "000000000000000000000009" <> "") by discriminate.
  assert (Hm : GET <> POST) by discriminate.
  refine (proj1 (Hget _ GET _ nil out2 _ _ Hm Hi H2) eq_refl).
  - rewrite Hdocs. apply in_or_app. right. now left.
  - intros o. rewrite doc_get_cons. discriminate.
Defined.

(** ** Requests no route takes *)

Arguments route_matches : simpl never.

Lemma step_unmatched l rq cx st tr :
  is_route l = true -> route_matches l rq = false ->
  step l None rq cx st tr = Go None cx st tr.
Proof.
  destruct l as [h|h|m pat h]; try discriminate. intros _ H.
  unfold route_matches in H. unfold step.
  destruct (method_eqb m (req_method rq)); [|reflexivity]. cbn in *.
  destruct (match_path pat (req_path rq)); [discriminate | reflexivity].
Qed.

Lemma dispatch_skip_routes routes rest rq cx st tr :
  forallb is_route routes = true -> no_route routes rq = true ->
  dispatch (routes ++ rest) None rq cx st tr = dispatch rest None rq cx st tr.
Proof.
  unfold no_route. induction routes as [|l routes IH]; intros Hr Hn; [reflexivity|].
  cbn in Hr, Hn. apply andb_prop in Hr as [Hl Hr]. apply andb_prop in Hn as [Hm Hn].
  apply negb_true_iff in Hm. cbn [List.app dispatch].
  rewrite (step_unmatched l rq cx st tr Hl Hm). now apply IH.
Qed.

Lemma unmatched_gets_the_fallback routes rq st :
  forallb is_route routes = true -> no_route routes rq = true ->
  handle (middlewares ++ routes ++ Use H_notFound :: nil) st rq =
  Some {| out_response := fallback_404; out_state := st;
          out_trace := mw_trace ++ H_notFound :: nil; out_unhandled := None |}.
Proof.
  intros Hr Hn. unfold handle, middlewares.
  cbn [List.app dispatch step after run_handler]. rewrite dispatch_skip_routes by assumption.
  reflexivity.
Qed.

Lemma run_handler_answers h rq cx st st' :
  answers h = true -> run_handler h rq cx st <> Some (Next, st').
Proof.
  intros Ha H. destruct h; try discriminate Ha; cbn [run_handler] in H;
    try (apply try_catch_cases in H as [(r & _ & E)|(e & _ & E & _)]; discriminate E);
    try discriminate H.
  unfold sorted_handler in H. destruct (parseInt _); [|discriminate].
  destruct (negb _); [discriminate|].
  destruct (req_collection _ _ _); destruct (calls_back st); discriminate.
Qed.

(** A route that takes the request answers it, or forwards an error: the
    request does not reach the layers below without one. *)
Lemma step_matched l rq cx st tr :
  route_matches l rq = true ->
  (forall m pat h, l = Route m pat h -> answers h = true /\ h <> H_notFound) ->
  ~ In H_notFound tr ->
  match step l None rq cx st tr with
  | Done o => ~ In H_notFound (out_trace o)
  | Go err' _ st' tr' => err' <> None /\ ~ In H_notFound tr'
  | Stuck => True
  end.
Proof.
  intros Hm Hl Htr. destruct l as [h|h|m pat h]; try discriminate Hm.
  destruct (Hl m pat h eq_refl) as [Ha Hne].
  unfold route_matches in Hm. apply andb_prop in Hm as [Hmeth Hpath].
  assert (Hafter : forall cx0 tl, (forall x, In x tl -> x = h \/ x = H_param_collectionName) ->
    match after (run_handler h rq cx0 st) cx0 (tr ++ tl) with
    | Done o => ~ In H_notFound (out_trace o)
    | Go err' _ st' tr' => err' <> None /\ ~ In H_notFound tr'
    | Stuck => True
    end).
  { intros cx0 tl Htl.
    assert (Hout : ~ In H_notFound (tr ++ tl)).
    { intros Hin. apply in_app_or in Hin as [Hin|Hin]; [auto|].
      destruct (Htl _ Hin) as [E|E]; [congruence | discriminate E]. }
    pose proof (run_handler_answers h rq cx0 st) as Hnn.
    unfold after. destruct (run_handler h rq cx0 st) as [[[r| |e] st']|]; cbn.
    all: try exact Hout; try exact I.
    all: try (now destruct (Hnn st')).
    all: split; [discriminate | exact Hout]. }
  unfold step. rewrite Hmeth. cbn [negb].
  destruct (match_path pat (req_path rq)) as [ps|]; [|discriminate].
  destruct (has_par "collectionName" pat).
  - destruct (param_collectionName _ _ st) as [[[r| |e] cx2]|]; try exact I.
    + apply Hafter. intros x [<-|[<-|[]]]; auto.
    + apply Hafter. intros x [<-|[<-|[]]]; auto.
    + split; [discriminate|]. intros Hin.
      apply in_app_or in Hin as [Hin|[E|[]]]; [auto | discriminate E].
  - apply Hafter. intros x [<-|[]]. now left.
Qed.

Lemma dispatch_matched routes rest rq : forall cx st tr out,
  forallb is_route routes = true ->
  (forall m pat h, In (Route m pat h) routes -> answers h = true /\ h <> H_notFound) ->
  forallb (fun l => negb (takes_errors l)) rest = true ->
  no_route routes rq = false ->
  ~ In H_notFound tr ->
  dispatch (routes ++ rest) None rq cx st tr = Some out ->
  ~ In H_notFound (out_trace out).
Proof.
  unfold no_route. induction routes as [|l routes IH]; intros cx st tr out Hr Hh Hrest Hn Htr H.
  - discriminate Hn.
  - cbn in Hr, Hn. apply andb_prop in Hr as [Hl Hr]. cbn [List.app dispatch] in H.
    destruct (route_matches l rq) eqn:Hm.
    + pose proof (step_matched l rq cx st tr Hm) as Hs.
      destruct (step l None rq cx st tr) as [o|err' cx' st' tr'|]; [| |discriminate].
      * injection H as <-. apply Hs; [|exact Htr].
        intros m pat h ->. apply (Hh m pat h). now left.
      * destruct Hs as [Herr Htr']; [|exact Htr|].
        { intros m pat h ->. apply (Hh m pat h). now left. }
        destruct err' as [e|]; [|congruence].
        rewrite dispatch_pending in H.
        -- injection H as <-. exact Htr'.
        -- rewrite forallb_app. apply andb_true_intro. split; [|exact Hrest].
           clear -Hr. induction routes as [|x routes IH]; [reflexivity|].
           cbn in *. apply andb_prop in Hr as [Hx Hr]. rewrite (IH Hr), andb_true_r.
           now destruct x.
    + rewrite (step_unmatched l rq cx st tr Hl Hm) in H. cbn in Hn.
      apply (IH cx st tr out Hr); auto.
      intros m pat h Hin. apply (Hh m pat h). now right.
Qed.

Lemma no_route_routes_of stack rq : no_route (routes_of stack) rq = no_route stack rq.
Proof.
  unfold no_route, routes_of. induction stack as [|l stack IH]; [reflexivity|].
  destruct l as [h|h|m pat h]; cbn [List.filter is_route forallb]; rewrite IH; reflexivity.
Qed.

Lemma stack_shape stack :
  In stack (app :: app_000 :: app_001 :: nil) ->
  stack = (middlewares ++ routes_of stack ++ Use H_notFound :: nil)%list /\
  forallb is_route (routes_of stack) = true /\
  forall m pat h, In (Route m pat h) (routes_of stack) -> answers h = true /\ h <> H_notFound.
Proof.
  intros [<-|[<-|[<-|[]]]]; (split; [reflexivity|split; [reflexivity|]]);
    intros m pat h Hin; cbn in Hin;
    repeat (destruct Hin as [E|Hin]; [injection E as <- <- <-; split; [reflexivity|discriminate]|]);
    destruct Hin.
Qed.

(** X9.  In the three revisions the fallback of the last [app.use] runs only
    for requests that no route takes by method and path (a trailing slash
    apart), and then it answers the plain text [Error: Resource not found]
    with status 404 and leaves the state as it was. A POST, PUT or DELETE
    request that no route takes always ends there, after the four
    middlewares, whether or not the store is connected ([express.static]
    passes every request that is not a GET or HEAD on). So the first sibling
    revision, which registers no DELETE route, answers every DELETE request
    with the fallback. *)
Theorem the_fallback_answers_what_no_route_takes (st : server) (rq : request) :
  let fallback :=
    Some {| out_response := fallback_404; out_state := st;
            out_trace := (mw_trace ++ H_notFound :: nil)%list; out_unhandled := None |} in
  (forall stack, In stack (app :: app_000 :: app_001 :: nil) ->
     req_method rq <> GET -> no_route stack rq = true -> handle stack st rq = fallback) /\
  (forall stack out, In stack (app :: app_000 :: app_001 :: nil) ->
     handle stack st rq = Some out -> In H_notFound (out_trace out) ->
     no_route stack rq = true /\ out_response out = fallback_404 /\ out_state out = st) /\
  (req_method rq = DELETE -> handle app_000 st rq = fallback).
Proof.
  intros fallback.
  assert (Hfall : forall stack, In stack (app :: app_000 :: app_001 :: nil) ->
     no_route stack rq = true -> handle stack st rq = fallback).
  { intros stack Hin Hn. destruct (stack_shape stack Hin) as (Hs & Hr & _).
    rewrite Hs. apply unmatched_gets_the_fallback; [exact Hr|].
    now rewrite no_route_routes_of. }
  split; [intros stack Hin _; now apply Hfall|]. split.
  - intros stack out Hin H Htr. destruct (stack_shape stack Hin) as (Hs & Hr & Hh).
    assert (Hn : no_route stack rq = true).
    { destruct (no_route stack rq) eqn:Hn; [reflexivity|]. exfalso.
      rewrite Hs in H. unfold handle, middlewares in H.
      cbn [List.app dispatch step after run_handler] in H.
      revert Htr.
      eapply (dispatch_matched (routes_of stack) (Use H_notFound :: nil));
        [exact Hr|exact Hh|reflexivity| | |exact H].
      + now rewrite no_route_routes_of.
      + cbn. intros [E|[E|[E|[E|[]]]]]; discriminate E. }
    split; [exact Hn|]. rewrite (Hfall stack Hin Hn) in H. injection H as <-.
    split; reflexivity.
  - intros Hm. apply Hfall; [right; now left|].
    unfold no_route, route_matches. rewrite Hm. reflexivity.
Qed.

Lemma the_fallback_answers_what_no_route_takes_witness :
  exists out,
    handle app (put_store store5)
      (Request PUT ("collections" :: "lessons" :: nil) None (("price", VNum (Fin 1)) :: nil))
      = Some out /\
    out_response out = fallback_404 /\
    out_state out = put_store store5.
Proof.
  destruct (the_fallback_answers_what_no_route_takes (put_store store5)
              (Request PUT ("collections" :: "lessons" :: nil) None
                       (("price", VNum (Fin 1)) :: nil))) as [H _].
  assert (Hm : PUT <> GET) by discriminate.
  eexists. split; [apply (H app (or_introl eq_refl) Hm); vm_compute; reflexivity|].
  split; reflexivity.
Defined.

(** ** The sorted listing without a limit *)





(** ** The order handlers *)

Lemma truthy_some v : truthy v = true -> exists x, v = Some x.
Proof. destruct v as [x|]; [eauto | discriminate]. Qed.

Lemma isArray_truthy v : isArray v = true -> truthy v = true.
Proof. destruct v as [[]|]; try discriminate; reflexivity. Qed.

Lemma order_check b :
  negb (truthy (doc_get "name" b)) || negb (truthy (doc_get "email" b))
  || negb (truthy (doc_get "lessonIDs" b)) || negb (isArray (doc_get "lessonIDs" b))
  = negb (truthy (doc_get "name" b) && truthy (doc_get "email" b)
          && isArray (doc_get "lessonIDs" b)).
Proof.
  destruct (truthy (doc_get "name" b)), (truthy (doc_get "email" b)); cbn; try reflexivity.
  destruct (isArray (doc_get "lessonIDs" b)) eqn:E.
  - now rewrite (isArray_truthy _ E).
  - now rewrite orb_true_r.
Qed.

(** X11.  The order handler of [app.js] answers every order itself, and
    forwards nothing.  An order passes its check exactly when [name] and
    [email] are truthy and [lessonIDs] is an array (the separate test of
    [lessonIDs] for truth adds nothing; address, city, postcode and phone are
    not looked at).  An order that does not pass is answered 400 before the
    store is touched, so also while [db] is undefined.  One that passes is
    given to [insertOne] on [orders] whole: the answer is 201 with the
    inserted identifier, or, when [db] is undefined or the store refuses, 500
    with a fixed message and the state as it was.  Whenever the order handler
    of the first sibling revision, which checks all seven fields, answers 201,
    the order passes this check as well. *)
Theorem order_handler_answers_every_order (rq : request) (st : server) :
  let b := req_body rq in
  let valid :=
    truthy (doc_get "name" b) && truthy (doc_get "email" b) && isArray (doc_get "lessonIDs" b) in
  let failed :=
    Send {| status := 500;
            content := Json (msg "An error occurred while processing your order. Please try again.") |} in
  (valid = false ->
     order_handler rq st =
     Some (Send {| status := 400;
                   content := Json (msg "Invalid order data. Ensure all required fields are provided.") |},
           st)) /\
  (valid = true -> db st = None -> order_handler rq st = Some (failed, st)) /\
  (valid = true -> forall s, db st = Some s ->
     order_handler rq st =
     match insertOne "orders" b s with
     | Val (r, s') =>
         Some (Send {| status := 201;
                       content := Json (VObj (("msg", VStr "Order created successfully")
                                              :: ("orderID", insertedId r) :: nil)) |},
               put_store s')
     | Throw _ => Some (failed, st)
     | OutOfModel => None
     end) /\
  (forall a st', order_handler rq st = Some (a, st') ->
     exists r, a = Send r /\
       (status r = 400%nat \/ status r = 201%nat \/ status r = 500%nat) /\
       (status r <> 201%nat -> st' = st)) /\
  (forall r st', order_try_000 rq st = Val (r, st') -> status r = 201%nat -> valid = true).
Proof.
  intros b valid failed.
  assert (H400 : valid = false ->
     order_handler rq st =
     Some (Send {| status := 400;
                   content := Json (msg "Invalid order data. Ensure all required fields are provided.") |},
           st)).
  { intros Hv. unfold order_handler, order_try. fold b. rewrite order_check. fold valid.
    rewrite Hv. reflexivity. }
  assert (Hdb : valid = true -> forall s, db st = Some s ->
     order_handler rq st =
     match insertOne "orders" b s with
     | Val (r, s') =>
         Some (Send {| status := 201;
                       content := Json (VObj (("msg", VStr "Order created successfully")
                                              :: ("orderID", insertedId r) :: nil)) |},
               put_store s')
     | Throw _ => Some (failed, st)
     | OutOfModel => None
     end).
  { intros Hv s Hs. unfold order_handler, order_try. fold b. rewrite order_check. fold valid.
    rewrite Hv. cbn [negb]. unfold db_collection. rewrite Hs.
    destruct (insertOne "orders" b s) as [[r s']|e|]; reflexivity. }
  assert (Hnone : valid = true -> db st = None -> order_handler rq st = Some (failed, st)).
  { intros Hv Hs. unfold order_handler, order_try. fold b. rewrite order_check. fold valid.
    rewrite Hv. cbn [negb]. unfold db_collection. rewrite Hs. reflexivity. }
  split; [exact H400|]. split; [exact Hnone|]. split; [exact Hdb|]. split.
  - intros a st' H. destruct valid eqn:Hv.
    + destruct (db st) as [s|] eqn:Hs.
      * rewrite (Hdb eq_refl s eq_refl) in H.
        destruct (insertOne "orders" b s) as [[r s']|e|]; [| |discriminate];
          injection H as <- <-; eexists; (split; [reflexivity|]); cbn; split; auto.
        intros Hne. now destruct Hne.
      * rewrite (Hnone eq_refl eq_refl) in H. injection H as <- <-.
        eexists. split; [reflexivity|]. cbn. split; auto.
    + rewrite (H400 eq_refl) in H. injection H as <- <-.
      eexists. split; [reflexivity|]. cbn. split; auto.
  - intros r st' H Hst. unfold order_try_000 in H. fold b in H. unfold valid.
    destruct (truthy (doc_get "name" b)), (truthy (doc_get "email" b)),
      (isArray (doc_get "lessonIDs" b)); try reflexivity; exfalso;
      cbn [negb orb] in H; rewrite ?orb_true_r in H; cbn in H;
      injection H as <- <-; discriminate Hst.
Qed.

Lemma doc_get_in k d v : doc_get k d = Some v -> In (k, v) d.
Proof.
  induction d as [|[k' v'] d IH]; [discriminate|].
  rewrite doc_get_cons. destruct (String.eqb k' k) eqn:E.
  - apply String.eqb_eq in E. intros [= ->]. subst. now left.
  - intros H. right. now apply IH.
Qed.

Lemma plain_doc_get d k v :
  plain_doc d = true -> doc_get k d = Some v -> plain_value v = true.
Proof.
  unfold plain_doc. cbn [plain_value]. intros H Hg.
  apply andb_prop in H as [_ H]. rewrite forallb_forall in H.
  specialize (H _ (doc_get_in _ _ _ Hg)). cbn in H. now apply andb_prop in H as [_ H].
Qed.

Lemma pick_fields_cons k ks d :
  pick_fields (k :: ks) d =
  match doc_get k d with
  | Some v => (k, v) :: pick_fields ks d
  | None => pick_fields ks d
  end.
Proof. unfold pick_fields. cbn. now destruct (doc_get k d). Qed.

Lemma pick_fields_keys x ks d :
  existsb (String.eqb x) (map fst (pick_fields ks d)) = true -> existsb (String.eqb x) ks = true.
Proof.
  induction ks as [|k ks IH]; [discriminate|]. rewrite pick_fields_cons.
  destruct (doc_get k d) as [v|]; cbn.
  - intros H. apply orb_prop in H as [H|H]; [now rewrite H|].
    rewrite (IH H). apply orb_true_r.
  - intros H. rewrite (IH H). apply orb_true_r.
Qed.

(** The object built from picked fields is as plain as the object they are
    picked from. *)
Lemma plain_doc_pick_fields ks d :
  plain_doc d = true -> nodup_keys ks = true -> forallb plain_key ks = true ->
  plain_doc (pick_fields ks d) = true.
Proof.
  intros Hd. unfold plain_doc. cbn [plain_value].
  induction ks as [|k ks IH]; [reflexivity|]. intros Hn Hp.
  cbn in Hn, Hp. apply andb_prop in Hn as [Hk Hn]. apply andb_prop in Hp as [Hpk Hp].
  specialize (IH Hn Hp). apply andb_prop in IH as [IH1 IH2].
  rewrite pick_fields_cons. destruct (doc_get k d) as [v|] eqn:Hg.
  - cbn. rewrite IH1, IH2, Hpk, (plain_doc_get d k v Hd Hg), !andb_true_r.
    apply negb_true_iff in Hk. apply negb_true_iff.
    destruct (existsb (String.eqb k) (map fst (pick_fields ks d))) eqn:E; [|reflexivity].
    now rewrite (pick_fields_keys _ _ _ E) in Hk.
  - now rewrite IH1, IH2.
Qed.

Lemma doc_get_pick_fields_in k ks d :
  In k ks -> doc_get k (pick_fields ks d) = doc_get k d.
Proof.
  induction ks as [|x ks IH]; [intros []|]. intros Hin. rewrite pick_fields_cons.
  destruct (string_dec x k) as [->|Hne].
  - destruct (doc_get k d) as [v|] eqn:Hg.
    + rewrite doc_get_cons. now rewrite String.eqb_refl.
    + destruct (in_dec string_dec k ks) as [Hk|Hk].
      * exact (IH Hk).
      * now apply doc_get_pick_fields.
  - destruct Hin as [E|Hin]; [contradiction|].
    destruct (doc_get x d) as [v|]; [|now apply IH].
    rewrite doc_get_cons. apply String.eqb_neq in Hne. rewrite Hne. now apply IH.
Qed.

Lemma pick_fields_all ks d :
  forallb (fun k => doc_has k d) ks = true -> map fst (pick_fields ks d) = ks.
Proof.
  induction ks as [|k ks IH]; [reflexivity|]. cbn [forallb]. intros H.
  apply andb_prop in H as [Hk H]. rewrite pick_fields_cons. unfold doc_has in Hk.
  destruct (doc_get k d) as [v|]; [|discriminate]. cbn. now rewrite (IH H).
Qed.

(** X12.  The order handler of the first sibling revision.  An order in which
    one of [name], [email], [address], [city], [postcode], [phone] is falsy,
    or [lessonIDs] is not an array, is answered 400 before the store is
    touched.  A complete order on a connected store is answered 201 with the
    generated identifier, and what is stored is a new object of exactly the
    seven fields, in the order of the object literal and with the values of
    the body, under the generated [_id]: every other field of the body, a
    supplied [_id] included, is dropped.  No other collection changes.  While
    [db] is undefined a complete order makes the handler forward the
    TypeError. *)
Theorem order_000_stores_the_seven_fields (rq : request) :
  let b := req_body rq in
  let valid :=
    forallb (fun k => truthy (doc_get k b))
            ("name" :: "email" :: "address" :: "city" :: "postcode" :: "phone" :: nil)
    && isArray (doc_get "lessonIDs" b) in
  (valid = false ->
   forall st, order_handler_000 rq st =
     Some (Send {| status := 400;
                   content := Json (VObj (("error", VStr "Invalid order data") :: nil)) |}, st)) /\
  (valid = true ->
   order_handler_000 rq {| db := None |} = Some (NextErr Err_TypeError_db, {| db := None |})) /\
  (valid = true ->
   forall s, online s = true -> plain_doc b = true -> fresh_oid s "orders" = true ->
   exists order s',
     order_handler_000 rq (put_store s) =
       Some (Send {| status := 201;
                     content := Json (VObj (("message", VStr "Order created successfully")
                                            :: ("_id", VOid (Oid (next_oid s))) :: nil)) |},
             put_store s') /\
     docs s' "orders" =
       (docs s "orders" ++ (("_id", VOid (Oid (next_oid s))) :: order) :: nil)%list /\
     (forall c, c <> "orders" -> docs s' c = docs s c) /\
     map fst order = order_fields /\
     (forall k, In k order_fields -> doc_get k order = doc_get k b) /\
     (forall k, ~ In k order_fields -> doc_get k order = None)).
Proof.
  intros b valid.
  assert (Hcheck :
    negb (truthy (doc_get "name" b)) || negb (truthy (doc_get "email" b))
    || negb (truthy (doc_get "address" b)) || negb (truthy (doc_get "city" b))
    || negb (truthy (doc_get "postcode" b)) || negb (truthy (doc_get "phone" b))
    || negb (isArray (doc_get "lessonIDs" b)) = negb valid).
  { unfold valid. cbn [forallb].
    destruct (truthy (doc_get "name" b)), (truthy (doc_get "email" b)),
      (truthy (doc_get "address" b)), (truthy (doc_get "city" b)),
      (truthy (doc_get "postcode" b)), (truthy (doc_get "phone" b)),
      (isArray (doc_get "lessonIDs" b)); reflexivity. }
  split; [|split].
  - intros Hv st. unfold order_handler_000, order_try_000. fold b. rewrite Hcheck, Hv.
    reflexivity.
  - intros Hv. unfold order_handler_000, order_try_000. fold b. rewrite Hcheck, Hv.
    reflexivity.
  - intros Hv s Hon Hplain Hfresh.
    assert (Hpick : plain_doc (pick_fields order_fields b) = true)
      by (apply plain_doc_pick_fields; [exact Hplain | reflexivity | reflexivity]).
    exists (pick_fields order_fields b). eexists. split.
    { unfold order_handler_000, order_try_000. fold b. rewrite Hcheck, Hv. cbn [negb].
      unfold db_collection. cbn [db put_store].
      rewrite (insertOne_generated s "orders" _ Hon Hpick (order_fields_no_id b) Hfresh).
      reflexivity. }
    split; [now rewrite docs_bump_oid, docs_set_docs_eq|].
    split; [intros c Hc; rewrite docs_bump_oid; now apply docs_set_docs_ne|].
    split; [|split].
    + apply pick_fields_all. unfold valid in Hv. apply andb_prop in Hv as [Hsix Harr].
      cbn [forallb] in Hsix.
      repeat (apply andb_prop in Hsix as [? Hsix]).
      unfold order_fields, doc_has. cbn [forallb].
      repeat match goal with
             | H : truthy (doc_get ?k b) = true |- _ =>
                 destruct (truthy_some _ H) as [? ->]; clear H
             end.
      destruct (doc_get "lessonIDs" b); [reflexivity | discriminate Harr].
    + intros k Hk. now apply doc_get_pick_fields_in.
    + intros k Hk. now apply doc_get_pick_fields.
Qed.

Lemma order_000_stores_the_seven_fields_witness :
  exists s',
    order_handler_000
      (Request POST ("collections" :: "orders" :: nil) None
         (("_id", VStr "mine") :: ("coupon", VStr "x") :: full_order))
      (put_store empty_store) =
      Some (Send {| status := 201;
                    content := Json (VObj (("message", VStr "Order created successfully")
                                           :: ("_id", VOid (Oid 0)) :: nil)) |},
            put_store s') /\
    docs s' "orders" = (("_id", VOid (Oid 0)) :: full_order) :: nil.
Proof.
  destruct (order_000_stores_the_seven_fields
              (Request POST ("collections" :: "orders" :: nil) None
                 (("_id", VStr "mine") :: ("coupon", VStr "x") :: full_order)))
    as (_ & _ & H).
  destruct (H eq_refl empty_store eq_refl eq_refl eq_refl) as (order & s' & Hh & Hd & _).
  exists s'. split; [exact Hh|].
  vm_compute in Hh. injection Hh as <-. vm_compute. reflexivity.
Defined.

(** ** The search of the second sibling revision *)

Lemma route_search_001 st q b :
  handle app_001 st (Request GET ("search" :: nil) q b) =
  match search_try_001 (Request GET ("search" :: nil) q b) st with
  | Val (r, st') =>
      Some {| out_response := r; out_state := st'; out_trace := mw_trace ++ H_search_001 :: nil;
              out_unhandled := None |}
  | Throw e =>
      Some {| out_response :=
                {| status := 500; content := Json (VObj (("error", VStr (message e)) :: nil)) |};
              out_state := st; out_trace := mw_trace ++ H_search_001 :: nil;
              out_unhandled := None |}
  | OutOfModel => None
  end.
Proof.
  unfold handle, app_001, middlewares. route_eval.
  unfold search_handler_001.
  destruct (search_try_001 _ _) as [[r st']|e|]; cbn; reflexivity.
Qed.

Lemma regex_no_text f regex d :
  no_text (doc_get f d) = true -> cond_matches (CRegex f regex) d = false.
Proof.
  unfold cond_matches. destruct (doc_get f d) as [[]|]; try discriminate; reflexivity.
Qed.

(** X13.  The search of the second sibling revision puts the expression on
    all five fields, [price] and [availablespaces] included, and compares no
    number.  On a connected store, and for a [q] the constructor accepts, it
    answers the lessons in which the expression matches one of the five
    fields and leaves the store as it was.  A lesson whose [price] and
    [availablespaces] hold no text is found only through [subject],
    [description] or [location], whatever number [q] spells; and every such
    lesson it answers is answered by the search of [app.js] too. *)
Theorem search_001_matches_text_only (s : store) (q : option string) (b : document)
    (regex : RegExp) :
  online s = true -> RegExp_new (default "" q) = Val regex ->
  let rq := Request GET ("search" :: nil) q b in
  let on fields d := existsb (fun f => cond_matches (CRegex f regex) d) fields in
  let text := "subject" :: "description" :: "location" :: nil in
  let numbers := "price" :: "availablespaces" :: nil in
  exists out1 out found,
    handle app_001 (put_store s) rq = Some out1 /\
    out_response out1 = ok (json_docs (List.filter (on (text ++ numbers)%list) (docs s "lessons"))) /\
    out_state out1 = put_store s /\
    handle app (put_store s) rq = Some out /\
    out_response out = ok (json_docs found) /\
    (forall d, forallb (fun f => no_text (doc_get f d)) numbers = true ->
       on (text ++ numbers)%list d = on text d) /\
    (forall d, In d (List.filter (on (text ++ numbers)%list) (docs s "lessons")) ->
       forallb (fun f => no_text (doc_get f d)) numbers = true -> In d found).
Proof.
  intros Hon Hre rq on text numbers.
  assert (Htext : forall d, forallb (fun f => no_text (doc_get f d)) numbers = true ->
            on (text ++ numbers)%list d = on text d).
  { intros d Hd. unfold on, text, numbers. cbn [List.app existsb].
    cbn [forallb numbers] in Hd. apply andb_prop in Hd as [Hp Ha].
    apply andb_prop in Ha as [Ha _].
    rewrite (regex_no_text "price" regex d Hp), (regex_no_text "availablespaces" regex d Ha).
    reflexivity. }
  eexists _, _, _. split.
  { unfold rq. rewrite route_search_001. unfold search_try_001, search_selector_001.
    cbn [req_q]. rewrite Hre. cbn. unfold find. rewrite Hon. cbn. reflexivity. }
  split; [reflexivity|]. split; [reflexivity|]. split.
  { unfold rq. rewrite route_search. unfold search_try. cbn [req_q].
    rewrite (search_selector_shape q regex Hre). cbn. unfold find. rewrite Hon. cbn.
    reflexivity. }
  split; [reflexivity|]. split; [exact Htext|].
  intros d Hin Hd. apply filter_In in Hin as [Hin Hany].
  apply filter_In. split; [exact Hin|].
  destruct (String.eqb (default "" q) ""); [reflexivity|].
  rewrite (Htext d Hd) in Hany. unfold on, text in Hany. cbn [existsb] in Hany.
  cbn [matches existsb]. rewrite orb_false_r in Hany.
  rewrite !orb_assoc. rewrite !orb_assoc in Hany. rewrite Hany. reflexivity.
Qed.

Lemma search_001_matches_text_only_witness :
  exists out1 out,
    handle app_001 (put_store store5) (Request GET ("search" :: nil) (Some "5") nil) = Some out1 /\
    out_response out1 = ok (json_docs nil) /\
    handle app (put_store store5) (Request GET ("search" :: nil) (Some "5") nil) = Some out /\
    out_response out =
      ok (json_docs (lesson 0 "Math" "London" 100 5 :: lesson 1 "English" "Room 20" 80 5 :: nil)).
Proof.
  destruct (search_001_matches_text_only store5 (Some "5") nil
              {| rx_anchored := false; rx_text := "5" |} eq_refl eq_refl)
    as (out1 & out & found & H1 & Hr1 & _ & H & Hr & _).
  exists out1, out. split; [exact H1|]. split.
  - rewrite Hr1. vm_compute. reflexivity.
  - split; [exact H|]. vm_compute in H. injection H as <-. reflexivity.
Defined.

(** ** An insert undone *)

(** X14.  A document posted without [_id] to a connected store and then
    deleted under the identifier the insert answered: the delete answers
    success, and every collection holds again exactly the documents it held
    before the insert, in the same order.  The identifier is spent all the
    same: the generator has moved on, so a later insert gets another one. *)
Theorem insert_then_delete_restores_the_collection (s : store) (name : string)
    (body : document) (q q' : option string) (b' : document) :
  online s = true -> collection_name_ok name = true ->
  plain_doc body = true -> doc_get "_id" body = None -> fresh_oid s name = true ->
  exists out1 i out2 s2,
    handle app (put_store s) (Request POST ("collections" :: name :: nil) q body) = Some out1 /\
    out_response out1 = ok (json_insert {| acknowledged := true; insertedId := VOid i |}) /\
    handle app (out_state out1)
           (Request DELETE ("collections" :: name :: toHexString i :: nil) q' b') = Some out2 /\
    out_response out2 = ok (msg "success") /\
    out_state out2 = put_store s2 /\
    (forall c, docs s2 c = docs s c) /\
    online s2 = true /\
    next_oid s2 = (next_oid s + 1)%N.
Proof.
  intros Hon Hn Hp Hid Hf.
  pose proof (insertOne_generated s name body Hon Hp Hid Hf) as Hins.
  pose proof Hf as Hf'. apply fresh_oid_spec in Hf' as [Hlt Hex].
  set (i := Oid (next_oid s)) in *.
  set (d := ("_id", VOid i) :: body) in *.
  set (s1 := bump_oid (set_docs s name (docs s name ++ d :: nil))) in *.
  pose proof (ObjectId_text_roundtrip _ Hlt) as Hrt. fold i in Hrt.
  assert (Hsplit : split_first (has_id (KOid i)) (docs s1 name) = Some (docs s name, d, nil)).
  { unfold s1. rewrite docs_bump_oid, docs_set_docs_eq.
    apply split_first_here; [apply has_id_own | now apply existsb_false_forall]. }
  assert (Hon1 : online s1 = true) by exact Hon.
  pose proof (deleteOne_matched s1 name i _ _ _ Hon1 Hsplit) as Hdel.
  set (s2 := set_docs s1 name (docs s name ++ nil)) in *.
  assert (Hdocs : forall c, docs s2 c = docs s c).
  { intros c. unfold s2. rewrite docs_set_docs.
    destruct (String.eqb name c) eqn:E.
    - apply String.eqb_eq in E. subst c. apply app_nil_r.
    - unfold s1. rewrite docs_bump_oid, docs_set_docs, E. reflexivity. }
  exists {| out_response := ok (json_insert {| acknowledged := true; insertedId := VOid i |});
            out_state := put_store s1;
            out_trace := mw_trace ++ H_param_collectionName :: H_insert :: nil;
            out_unhandled := None |}, i.
  eexists _, s2. split.
  { rewrite route_insert by assumption.
    rewrite (insert_try_val s name nil _ _ q body _ _ Hins). reflexivity. }
  split; [reflexivity|]. cbn [out_state]. split.
  { rewrite route_delete by (assumption || exact (ObjectId_new_nonempty _ _ Hrt)).
    rewrite (delete_try_val s1 name _ nil i _ _ Hrt Hdel). reflexivity. }
  split; [reflexivity|]. split; [reflexivity|]. split; [exact Hdocs|].
  split; [exact Hon|]. reflexivity.
Qed.

Lemma insert_then_delete_restores_the_collection_witness :
  let body : document := ("subject", VStr "Dance") :: ("price", VNum (Fin 10)) :: nil in
  exists out1 i out2 s2,
    handle app (put_store store5) (Request POST ("collections" :: "lessons" :: nil) None body)
      = Some out1 /\
    handle app (out_state out1)
           (Request DELETE ("collections" :: "lessons" :: toHexString i :: nil) None nil)
      = Some out2 /\
    out_response out2 = ok (msg "success") /\
    out_state out2 = put_store s2 /\
    docs s2 "lessons" = lessons5.
Proof.
  cbv zeta.
  destruct (insert_then_delete_restores_the_collection store5 "lessons"
              (("subject", VStr "Dance") :: ("price", VNum (Fin 10)) :: nil) None None nil
              eq_refl eq_refl eq_refl eq_refl eq_refl)
    as (out1 & i & out2 & s2 & H1 & _ & H2 & Hr & Hs & Hd & _).
  exists out1, i, out2, s2. repeat (split; [assumption|]).
  rewrite Hd. vm_compute. reflexivity.
Defined.
